(** * Order claiming and fulfilment: a shallow embedding of the storefront core

    The development follows the TypeScript sources file by file:
    - [Number]  : the arithmetic of the JavaScript runtime on numbers
    - [Types]   : lib/types.ts   (seller records, status predicates)
    - [Sellers] : lib/sellers.ts (seller directory and inventory store)
    - [Order]   : lib/order.ts   (order processing and seller resolution)
    - [Orders]  : lib/orders.ts  (order store, claim engine, seller views,
                                  administrator views, legacy records)
    - [RateLimit] : lib/rate-limit.ts (the request limiter of the routes)
    followed by the vocabulary of the properties, sample stores, and the
    properties themselves.

    Conventions of the embedding.
    - A directory of JSON files is a finite map from file key to record; a
      record has the fields of its TypeScript interface.
    - A JavaScript number is a binary64 value.  The numbers that a request
      carries (the quantity of an order line, the quantity passed to an
      inventory writer) are finite and are rationals ([Q]); comparisons,
      [Math.floor] and [Math.max] are exact on them, while [+] and [-]
      round to the nearest binary64 (module [Number]).  Both inventory
      writers store [Math.max(0, Math.floor(quantity))], so the quantities
      of an inventory are integers ([Z]).  [x || y] is [y] when [x] is
      absent or 0.
    - An optional field [f?: T] is an [option T]; [a === b] on strings is
      [String.eqb].
    - An object mutated in memory and persisted by an explicit write is a
      value that is rebuilt and inserted into the store only where the source
      calls the writer.
    - The clock, [new Date().toISOString()], is an argument [now] of the
      operation; the functions of the JavaScript runtime that the code calls
      ([localeCompare], [trim], [toLowerCase], [length], [Date.getTime])
      are section variables; generated ids and password hashes are
      arguments. *)

From Stdlib Require Import ZArith QArith Qround Qpower Qreduction Ascii String.
From stdpp Require Import gmap strings list fin_maps sorting.

Local Open Scope string_scope.
Local Open Scope Z_scope.

(* ===================================================================== *)
(** ** JavaScript numbers *)
(* ===================================================================== *)

Module Number.

(** [a < b] and [a >= b]. *)
Definition ltb (a b : Q) : bool := negb (Qle_bool b a).

Definition geb (a b : Q) : bool := Qle_bool b a.

(** [x || y] tests its left operand for 0. *)
Definition isZero (a : Q) : bool := Qeq_bool a 0.

(** [Math.floor]. *)
Definition floor (a : Q) : Z := Qfloor a.

(** The position of the leading bit of a positive rational: the [k] with
    [2^k <= x < 2^(k+1)]. *)
Definition floorLog2 (x : Q) : Z :=
  let k := Z.log2 (Qnum x) - Z.log2 (Zpos (Qden x)) in
  if Qle_bool (Qpower 2 k) x then k else k - 1.

(** The nearest integer, the even one of two that are equally near. *)
Definition roundHalfEven (x : Q) : Z :=
  let f := Qfloor x in
  match Qcompare (x - inject_Z f) (1 # 2) with
  | Lt => f
  | Gt => f + 1
  | Eq => if Z.even f then f else f + 1
  end.

(** The binary64 value nearest to a positive rational: 53 significant
    bits, the last of them of weight [2^e] with [e] at least -1074. *)
Definition roundPositive (x : Q) : Q :=
  let e := Z.max (floorLog2 x - 52) (-1074) in
  (inject_Z (roundHalfEven (x / Qpower 2 e)) * Qpower 2 e)%Q.

(** Rounding to nearest, ties to even, of the rational in lowest terms.
    The exponent is not bounded from above: where the runtime gives an
    infinity (a magnitude of [2^1024] or more) the result here is the
    nearest number of 53 significant bits.  The theorems that give a sum
    or a difference as an integer bound it by [2^53]. *)
Definition roundDouble (x : Q) : Q :=
  let x := Qred x in
  match Qcompare x 0 with
  | Eq => 0%Q
  | Gt => roundPositive x
  | Lt => (- roundPositive (- x))%Q
  end.

(** [a + b] and [a - b]: the exact result, rounded. *)
Definition add (a b : Q) : Q := roundDouble (a + b).

Definition sub (a b : Q) : Q := roundDouble (a - b).

End Number.

(* ===================================================================== *)
(** ** lib/types.ts *)
(* ===================================================================== *)

Module Types.

Inductive SellerStatus : Set :=
  | pending_verification
  | active
  | banned
  | disabled.

#[export] Instance SellerStatus_eq_dec : EqDecision SellerStatus.
Proof. solve_decision. Defined.

(** [SellerInventoryItem]: quantity only, keyed by blueprint id. *)
Record SellerInventoryItem : Set := mkInventoryItem {
  inv_blueprintId : string;
  inv_quantity : Z
}.

(** [SellerWithInventory extends Seller]. *)
Record SellerWithInventory : Set := mkSeller {
  seller_id : string;
  seller_discordId : string;
  seller_passwordHash : string;
  seller_status : SellerStatus;
  seller_telegramChatId : option string;
  seller_createdAt : string;
  seller_updatedAt : string;
  seller_inventory : list SellerInventoryItem
}.

Definition canSellerReceiveOrders (seller : SellerWithInventory) : bool :=
  bool_decide (seller_status seller = active).

(** [SellerOrderGroup] and its item rows. *)
Record SellerGroupItem : Set := mkGroupItem {
  gi_blueprintId : string;
  gi_blueprintName : string;
  gi_requestedQty : Q;
  gi_available : bool;
  gi_availableQty : Z
}.

Record SellerOrderGroup : Set := mkGroup {
  sg_sellerId : string;
  sg_sellerDiscordId : string;
  sg_sellerTelegramChatId : option string;
  sg_items : list SellerGroupItem
}.

End Types.
Export Types.

(* ===================================================================== *)
(** ** lib/sellers.ts *)
(* ===================================================================== *)

Module Sellers.

(** The sellers directory: one record per file [<sellerId>.json]. *)
Abbreviation SellerDir := (gmap string SellerWithInventory).

(** [safeReadJson] of the seller file; [None] is JavaScript's [null].  The
    default [inventory = []] for a record without inventory does not arise:
    the field is mandatory in [SellerWithInventory]. *)
Definition getSellerById (dir : SellerDir) (sellerId : string)
  : option SellerWithInventory :=
  dir !! sellerId.

(** [Array.prototype.find] on the inventory. *)
Definition findInventoryItem (inventory : list SellerInventoryItem)
  (blueprintId : string) : option SellerInventoryItem :=
  List.find (fun i => String.eqb (inv_blueprintId i) blueprintId) inventory.

(** [item?.quantity || 0]. *)
Definition quantityOrZero (item : option SellerInventoryItem) : Z :=
  match item with
  | Some i => if inv_quantity i =? 0 then 0 else inv_quantity i
  | None => 0
  end.

Definition getSellerBlueprintQuantity (dir : SellerDir)
  (sellerId blueprintId : string) : Z :=
  match getSellerById dir sellerId with
  | None => 0
  | Some seller =>
      quantityOrZero (findInventoryItem (seller_inventory seller) blueprintId)
  end.

(** [Array.prototype.findIndex]; [None] is the result [-1]. *)
Fixpoint findIndex (inventory : list SellerInventoryItem)
  (blueprintId : string) : option nat :=
  match inventory with
  | [] => None
  | i :: rest =>
      if String.eqb (inv_blueprintId i) blueprintId then Some 0%nat
      else S <$> findIndex rest blueprintId
  end.

Definition setQuantityAt (item : SellerInventoryItem) (qty : Z)
  : SellerInventoryItem :=
  {| inv_blueprintId := inv_blueprintId item; inv_quantity := qty |}.

(** The body shared by the single and the bulk update: normalise the
    quantity ([Math.max(0, Math.floor(quantity))]), then remove ([splice]),
    overwrite or [push]. *)
Definition applyInventoryUpdate (inventory : list SellerInventoryItem)
  (blueprintId : string) (quantity : Q) : list SellerInventoryItem :=
  let qty := Z.max 0 (Number.floor quantity) in
  let existingIndex := findIndex inventory blueprintId in
  if qty =? 0 then
    match existingIndex with
    | Some idx => delete idx inventory
    | None => inventory
    end
  else
    match existingIndex with
    | Some idx => alter (fun item => setQuantityAt item qty) idx inventory
    | None => inventory ++ [mkInventoryItem blueprintId qty]
    end.

Definition withInventory (seller : SellerWithInventory)
  (inventory : list SellerInventoryItem) (now : string)
  : SellerWithInventory :=
  {| seller_id := seller_id seller;
     seller_discordId := seller_discordId seller;
     seller_passwordHash := seller_passwordHash seller;
     seller_status := seller_status seller;
     seller_telegramChatId := seller_telegramChatId seller;
     seller_createdAt := seller_createdAt seller;
     seller_updatedAt := now;
     seller_inventory := inventory |}.

(** Returns the boolean of the source together with the directory after
    the call. *)
Definition updateSellerInventoryItem (dir : SellerDir)
  (sellerId blueprintId : string) (quantity : Q) (now : string)
  : bool * SellerDir :=
  match getSellerById dir sellerId with
  | None => (false, dir)
  | Some seller =>
      let inventory :=
        applyInventoryUpdate (seller_inventory seller) blueprintId quantity in
      (true, <[sellerId := withInventory seller inventory now]> dir)
  end.

Definition updateSellerInventoryBulk (dir : SellerDir) (sellerId : string)
  (updates : list (string * Q)) (now : string) : bool * SellerDir :=
  match getSellerById dir sellerId with
  | None => (false, dir)
  | Some seller =>
      let inventory :=
        fold_left (fun inv u => applyInventoryUpdate inv u.1 u.2)
                  updates (seller_inventory seller) in
      (true, <[sellerId := withInventory seller inventory now]> dir)
  end.

(** Inner loop of [requiresMultipleSellers]: [canFulfillAll] with its
    [break] on the first item the seller cannot cover.  An item
    [{blueprintId, quantity}] is a pair. *)
Fixpoint canFulfillAll (seller : SellerWithInventory)
  (items : list (string * Q)) : bool :=
  match items with
  | [] => true
  | (blueprintId, quantity) :: rest =>
      let availableQty :=
        quantityOrZero (findInventoryItem (seller_inventory seller) blueprintId) in
      if Number.ltb (inject_Z availableQty) quantity then false
      else canFulfillAll seller rest
  end.

(** Outer loop: return false at the first seller that covers the order. *)
Fixpoint requiresMultipleSellersLoop (activeSellers : list SellerWithInventory)
  (items : list (string * Q)) : bool :=
  match activeSellers with
  | [] => true
  | seller :: rest =>
      if canFulfillAll seller items then false
      else requiresMultipleSellersLoop rest items
  end.

(** Item of an order as [resolveOrderToSellers] receives it. *)
Record RequestedItem : Set := mkRequested {
  ri_blueprintId : string;
  ri_blueprintName : string;
  ri_quantity : Q
}.

(** [sellerGroups.get(seller.id)] followed by [group.items.push(row)]: the
    [Map] keeps insertion order, so a new group goes to the end. *)
Fixpoint pushToGroup (groups : list SellerOrderGroup)
  (seller : SellerWithInventory) (row : SellerGroupItem)
  : list SellerOrderGroup :=
  match groups with
  | [] =>
      [ {| sg_sellerId := seller_id seller;
           sg_sellerDiscordId := seller_discordId seller;
           sg_sellerTelegramChatId := seller_telegramChatId seller;
           sg_items := [row] |} ]
  | g :: rest =>
      if String.eqb (sg_sellerId g) (seller_id seller) then
        {| sg_sellerId := sg_sellerId g;
           sg_sellerDiscordId := sg_sellerDiscordId g;
           sg_sellerTelegramChatId := sg_sellerTelegramChatId g;
           sg_items := sg_items g ++ [row] |} :: rest
      else g :: pushToGroup rest seller row
  end.

Definition resolveItem (activeSellers : list SellerWithInventory)
  (groups : list SellerOrderGroup) (item : RequestedItem)
  : list SellerOrderGroup :=
  fold_left
    (fun groups seller =>
       let availableQty :=
         quantityOrZero
           (findInventoryItem (seller_inventory seller) (ri_blueprintId item)) in
       if 0 <? availableQty then
         pushToGroup groups seller
           {| gi_blueprintId := ri_blueprintId item;
              gi_blueprintName := ri_blueprintName item;
              gi_requestedQty := ri_quantity item;
              gi_available :=
                Number.geb (inject_Z availableQty) (ri_quantity item);
              gi_availableQty := availableQty |}
       else groups)
    activeSellers groups.

Section Listing.

(** [a.discordId.localeCompare(b.discordId)] of the JavaScript runtime. *)
Variable localeCompare : string → string → Z.

Definition byDiscordId (a b : SellerWithInventory) : Prop :=
  localeCompare (seller_discordId a) (seller_discordId b) ≤ 0.

#[local] Instance byDiscordId_dec a b : Decision (byDiscordId a b).
Proof. unfold byDiscordId. apply _. Defined.

(** [getAllSellers]: read every file of the directory, keep the records
    that carry an id and a Discord id, sort by Discord id. *)
Definition getAllSellers (dir : SellerDir) : list SellerWithInventory :=
  merge_sort byDiscordId
    (filter (fun s => seller_id s ≠ "" ∧ seller_discordId s ≠ "")
            (snd <$> map_to_list dir)).

Definition getActiveSellers (dir : SellerDir) : list SellerWithInventory :=
  filter (fun s => seller_status s = active) (getAllSellers dir).

Definition requiresMultipleSellers (dir : SellerDir)
  (items : list (string * Q)) : bool :=
  requiresMultipleSellersLoop (getActiveSellers dir) items.

Definition resolveOrderToSellers (dir : SellerDir)
  (items : list RequestedItem) : list SellerOrderGroup :=
  fold_left (resolveItem (getActiveSellers dir)) items [].

End Listing.

(** *** Status, deletion and the public stock *)

Definition getSellerInventory (dir : SellerDir) (sellerId : string)
  : list SellerInventoryItem :=
  match getSellerById dir sellerId with
  | None => []
  | Some seller => seller_inventory seller
  end.

Definition withStatus (seller : SellerWithInventory) (status : SellerStatus)
  (now : string) : SellerWithInventory :=
  {| seller_id := seller_id seller;
     seller_discordId := seller_discordId seller;
     seller_passwordHash := seller_passwordHash seller;
     seller_status := status;
     seller_telegramChatId := seller_telegramChatId seller;
     seller_createdAt := seller_createdAt seller;
     seller_updatedAt := now;
     seller_inventory := seller_inventory seller |}.

(** [updateSellerStatus]: the status is of type [SellerStatus], so the
    check [isValidSellerStatus] passes. *)
Definition updateSellerStatus (dir : SellerDir) (sellerId : string)
  (status : SellerStatus) (now : string)
  : option SellerWithInventory * SellerDir :=
  match getSellerById dir sellerId with
  | None => (None, dir)
  | Some seller =>
      let seller' := withStatus seller status now in
      (Some seller', <[sellerId := seller']> dir)
  end.

Definition deleteSeller (dir : SellerDir) (sellerId : string)
  : bool * SellerDir :=
  match dir !! sellerId with
  | None => (false, dir)
  | Some _ => (true, delete sellerId dir)
  end.

(** An entry of the [Map] of [getAggregatedInventory]. *)
Record AggregatedEntry : Set := mkAggregated {
  ag_blueprintId : string;
  ag_totalQty : Q;
  ag_sellers : list string
}.

(** [aggregated.get(id)] followed by the update of the entry found, or
    [aggregated.set] of a new entry; the [Map] keeps insertion order. *)
Fixpoint addToAggregated (aggregated : list AggregatedEntry)
  (blueprintId : string) (quantity : Z) (sellerId : string)
  : list AggregatedEntry :=
  match aggregated with
  | [] =>
      [ {| ag_blueprintId := blueprintId; ag_totalQty := inject_Z quantity;
           ag_sellers := [sellerId] |} ]
  | existing :: rest =>
      if String.eqb (ag_blueprintId existing) blueprintId then
        {| ag_blueprintId := ag_blueprintId existing;
           ag_totalQty :=
             Number.add (ag_totalQty existing) (inject_Z quantity);
           ag_sellers := ag_sellers existing ++ [sellerId] |} :: rest
      else existing :: addToAggregated rest blueprintId quantity sellerId
  end.

Definition aggregateSeller (aggregated : list AggregatedEntry)
  (seller : SellerWithInventory) : list AggregatedEntry :=
  fold_left
    (fun aggregated item =>
       if 0 <? inv_quantity item
       then addToAggregated aggregated (inv_blueprintId item)
              (inv_quantity item) (seller_id seller)
       else aggregated)
    (seller_inventory seller) aggregated.

(** [inventory.some(item => item.blueprintId === id && item.quantity > 0)]. *)
Definition hasInStock (blueprintId : string) (seller : SellerWithInventory)
  : bool :=
  existsb (fun item => String.eqb (inv_blueprintId item) blueprintId
                       && (0 <? inv_quantity item))
          (seller_inventory seller).

Section Catalogue.

Variable localeCompare : string → string → Z.

Definition getPendingVerificationSellers (dir : SellerDir)
  : list SellerWithInventory :=
  filter (fun s => seller_status s = pending_verification)
         (getAllSellers localeCompare dir).

Definition getAggregatedInventory (dir : SellerDir) : list AggregatedEntry :=
  fold_left aggregateSeller (getActiveSellers localeCompare dir) [].

Definition getSellersWithBlueprint (dir : SellerDir) (blueprintId : string)
  : list SellerWithInventory :=
  List.filter (hasInStock blueprintId) (getActiveSellers localeCompare dir).

End Catalogue.

(** *** Registration *)

(** The [error] strings of the validators and of [registerSeller], by
    their sense. *)
Inductive RegisterError : Set :=
  | DiscordIdRequired      (* Discord ID is required *)
  | DiscordIdEmpty         (* Discord ID cannot be empty *)
  | DiscordIdTooLong       (* Discord ID is too long (max. 64) *)
  | PasswordRequired       (* password is required *)
  | PasswordTooShort       (* password must have at least 8 characters *)
  | PasswordTooLong        (* password is too long (max. 128) *)
  | DiscordIdTaken.        (* a seller with this Discord ID exists *)

Definition MIN_PASSWORD_LENGTH : nat := 8.
Definition MAX_PASSWORD_LENGTH : nat := 128.

(** The record that [registerSeller] and [createSeller] write. *)
Definition newSeller (id discordId passwordHash now : string)
  : SellerWithInventory :=
  {| seller_id := id;
     seller_discordId := discordId;
     seller_passwordHash := passwordHash;
     seller_status := pending_verification;
     seller_telegramChatId := None;
     seller_createdAt := now;
     seller_updatedAt := now;
     seller_inventory := [] |}.

Section Registration.

Variable localeCompare : string → string → Z.
(** [String.prototype.trim], [toLowerCase] and [length] of the JavaScript
    runtime. *)
Variable trim : string → string.
Variable toLowerCase : string → string.
Variable jsLength : string → nat.

(** [None] is [{ valid: true }]. *)
Definition validatePassword (password : string) : option RegisterError :=
  if String.eqb password "" then Some PasswordRequired
  else if (jsLength password <? MIN_PASSWORD_LENGTH)%nat
  then Some PasswordTooShort
  else if (MAX_PASSWORD_LENGTH <? jsLength password)%nat
  then Some PasswordTooLong
  else None.

Definition validateDiscordId (discordId : string) : option RegisterError :=
  if String.eqb discordId "" then Some DiscordIdRequired
  else
    let trimmed := trim discordId in
    if (jsLength trimmed =? 0)%nat then Some DiscordIdEmpty
    else if (64 <? jsLength trimmed)%nat then Some DiscordIdTooLong
    else None.

Definition getSellerByDiscordId (dir : SellerDir) (discordId : string)
  : option SellerWithInventory :=
  List.find (fun s => String.eqb (toLowerCase (seller_discordId s))
                                 (toLowerCase discordId))
            (getAllSellers localeCompare dir).

(** [generateSellerId()], the bcrypt hash of the password and the clock
    are the arguments [id], [passwordHash] and [now]. *)
Definition registerSeller (dir : SellerDir) (discordId password : string)
  (id passwordHash now : string)
  : (RegisterError + SellerWithInventory) * SellerDir :=
  match validateDiscordId discordId with
  | Some e => (inl e, dir)
  | None =>
      match validatePassword password with
      | Some e => (inl e, dir)
      | None =>
          match getSellerByDiscordId dir discordId with
          | Some _ => (inl DiscordIdTaken, dir)
          | None =>
              let seller := newSeller id (trim discordId) passwordHash now in
              (inr seller, <[id := seller]> dir)
          end
      end
  end.


End Registration.

End Sellers.
Export Sellers.

(* ===================================================================== *)
(** ** lib/order.ts *)
(* ===================================================================== *)

Module Order.

(** The fixed disclosure shown instead of the buyer's offer. *)
Definition MULTI_SELLER_OFFER_MESSAGE : string :=
  "Це замовлення включає кількох продавців. Ціна/умови мають бути узгоджені в приватних повідомленнях (DM).".

Record OrderItem : Set := mkOrderItem {
  oi_id : string;
  oi_name : string;
  oi_quantity : Q
}.

Record OrderRequest : Set := mkOrderRequest {
  req_discordNick : string;
  req_offer : string;
  req_notes : option string;
  req_items : list OrderItem
}.

Record ProcessedOrder : Set := mkProcessedOrder {
  po_orderId : string;
  po_buyerDiscordNick : string;
  po_offer : string;
  po_originalOffer : string;
  po_notes : option string;
  po_sellerGroups : list SellerOrderGroup;
  po_isMultiSeller : bool;
  po_sellerCount : nat;
  po_createdAt : string
}.

Section ProcessOrder.

Variable localeCompare : string → string → Z.
(** [String.prototype.trim] of the JavaScript runtime. *)
Variable trim : string → string.
(** [getBlueprintById(id)?.name]: the catalogue is read from the content
    directory, which is outside the order core. *)
Variable catalogName : string → option string.

(** [blueprint?.name || item.name]. *)
Definition nameOf (item : OrderItem) : string :=
  match catalogName (oi_id item) with
  | Some name => if String.eqb name "" then oi_name item else name
  | None => oi_name item
  end.

(** The test that [validateOrder] makes on the quantity of an item, for a
    quantity of type number: [item.quantity < 1 || item.quantity > 999].
    The item is rejected when it holds. *)
Definition quantityOutOfRange (quantity : Q) : bool :=
  Number.ltb quantity 1 || Number.ltb 999 quantity.

(** [generateOrderId()] and the clock are arguments. *)
Definition processOrder (dir : SellerDir) (order : OrderRequest)
  (orderId createdAt : string) : ProcessedOrder :=
  let itemsWithNames :=
    map (fun item => {| ri_blueprintId := oi_id item;
                        ri_blueprintName := nameOf item;
                        ri_quantity := oi_quantity item |})
        (req_items order) in
  let sellerGroups := resolveOrderToSellers localeCompare dir itemsWithNames in
  let sellerCount := length sellerGroups in
  let itemsForCheck :=
    map (fun item => (oi_id item, oi_quantity item)) (req_items order) in
  let isMultiSeller := requiresMultipleSellers localeCompare dir itemsForCheck in
  let originalOffer := trim (req_offer order) in
  let offer :=
    if isMultiSeller then MULTI_SELLER_OFFER_MESSAGE else originalOffer in
  {| po_orderId := orderId;
     po_buyerDiscordNick := trim (req_discordNick order);
     po_offer := offer;
     po_originalOffer := originalOffer;
     po_notes := trim <$> req_notes order;
     po_sellerGroups := sellerGroups;
     po_isMultiSeller := isMultiSeller;
     po_sellerCount := sellerCount;
     po_createdAt := createdAt |}.

End ProcessOrder.

End Order.
Export Order.

(* ===================================================================== *)
(** ** lib/orders.ts *)
(* ===================================================================== *)

Module Orders.

Inductive OrderStatus : Set :=
  | open
  | in_progress
  | completed
  | closed
  | cancelled.

Inductive ItemClaimStatus : Set :=
  | unclaimed
  | claimed
  | fulfilled.

Inductive SellerOrderStatus : Set :=
  | seller_active
  | seller_closed.

#[export] Instance OrderStatus_eq_dec : EqDecision OrderStatus.
Proof. solve_decision. Defined.
#[export] Instance ItemClaimStatus_eq_dec : EqDecision ItemClaimStatus.
Proof. solve_decision. Defined.
#[export] Instance SellerOrderStatus_eq_dec : EqDecision SellerOrderStatus.
Proof. solve_decision. Defined.

Record SellerOrderState : Set := mkSellerState {
  ss_sellerId : string;
  ss_status : SellerOrderStatus;
  ss_closedAt : option string
}.

Record OrderItemClaim : Set := mkClaim {
  blueprintId : string;
  blueprintName : string;
  requestedQty : Q;
  claimStatus : ItemClaimStatus;
  claimedBySellerId : option string;
  claimedBySellerDiscordId : option string;
  claimedQuantity : option Q;
  claimedAt : option string;
  fulfilledAt : option string
}.

(** [StoredOrder extends ProcessedOrder]. *)
Record StoredOrder : Set := mkStoredOrder {
  orderId : string;
  buyerDiscordNick : string;
  offer : string;
  originalOffer : string;
  notes : option string;
  sellerGroups : list SellerOrderGroup;
  isMultiSeller : bool;
  sellerCount : nat;
  createdAt : string;
  sellerIds : list string;
  status : OrderStatus;
  assignedSellerId : option string;
  assignedSellerDiscordId : option string;
  assignedAt : option string;
  itemClaims : list OrderItemClaim;
  sellerStates : option (list SellerOrderState);
  closedAt : option string;
  closedBySellerId : option string
}.

Record SellerViewItem : Set := mkViewItem {
  vi_blueprintId : string;
  vi_blueprintName : string;
  vi_requestedQty : Q;
  vi_available : bool;
  vi_availableQty : Z;
  vi_claimStatus : ItemClaimStatus;
  vi_claimedByMe : bool;
  vi_claimedBySellerId : option string;
  vi_claimedBySellerDiscordId : option string;
  vi_claimedQuantity : option Q
}.

Record SellerOrderView : Set := mkView {
  v_orderId : string;
  v_buyerDiscordNick : string;
  v_offer : string;
  v_notes : option string;
  v_isMultiSeller : bool;
  v_createdAt : string;
  v_status : OrderStatus;
  v_isAssignedToMe : bool;
  v_isClosedByMe : bool;
  v_items : list SellerViewItem;
  v_canAcceptFull : bool;
  v_claimableItemCount : nat;
  v_myClaimedItemCount : nat
}.

(** The [error] strings of the claim engine, one constructor per message
    (given here by its English sense; quantities and names that the source
    interpolates into the message are arguments). *)
Inductive ClaimError : Set :=
  | OrderNotFound                              (* order not found *)
  | OrderAlreadyClosed                         (* order is already closed *)
  | AcceptedByOtherSeller                      (* order already accepted by another seller *)
  | NoPermission                               (* you may not accept orders *)
  | ItemTakenByOther (name : string)           (* item already accepted by another seller *)
  | NotEnoughInInventory (name : string) (have : Z) (need : Q)
  | NothingToClaim                             (* no items to accept *)
  | ItemNotFound                               (* item not found *)
  | CannotFulfillItem                          (* you cannot fulfil this item *)
  | ItemAlreadyFulfilled                       (* item is already fulfilled *)
  | NotEnoughInStock (have : Z) (need : Q)
  | InventoryUpdateFailed                      (* could not update the inventory *)
  | NothingToFulfill                           (* no items to fulfil *)
  | NotEnoughInStockOf (name : string) (have : Z) (need : Q)
  | InventoryUpdateFailedFor (name : string)
  | AlreadyClosedByYou                         (* you have already closed this order *)
  | CannotCloseOrder                           (* you cannot close this order *)
  | FulfillClaimedFirst                        (* fulfil all your accepted items first *)
  | CannotReleaseItem                          (* you cannot release this item *)
  | CannotReleaseFulfilled.                    (* a fulfilled item cannot be released *)

Record ClaimResult : Set := mkResult {
  success : bool;
  error : option ClaimError;
  claimedItems : option (list string)
}.

Definition failure (e : ClaimError) : ClaimResult :=
  {| success := false; error := Some e; claimedItems := None |}.

Definition succeeded (items : option (list string)) : ClaimResult :=
  {| success := true; error := None; claimedItems := items |}.

(** The durable state: the sellers directory and the orders directory. *)
Record World : Type := mkWorld {
  sellersDir : SellerDir;
  ordersDir : gmap string StoredOrder
}.

(** [/[^a-zA-Z0-9-_]/]: the characters an order file name keeps. *)
Definition isSafeIdChar (c : ascii) : bool :=
  let n := nat_of_ascii c in
  ((97 <=? n) && (n <=? 122))%nat || ((65 <=? n) && (n <=? 90))%nat
  || ((48 <=? n) && (n <=? 57))%nat || (n =? 45)%nat || (n =? 95)%nat.

Fixpoint replaceUnsafe (s : string) : string :=
  match s with
  | EmptyString => EmptyString
  | String c rest =>
      String (if isSafeIdChar c then c else "_"%char) (replaceUnsafe rest)
  end.

(** The file key of an order (directory and extension are constant). *)
Definition getOrderFilePath (orderId : string) : string :=
  replaceUnsafe orderId.

(** [a === b] where [a] may be [undefined]. *)
Definition isSeller (field : option string) (sellerId : string) : bool :=
  match field with
  | Some s => String.eqb s sellerId
  | None => false
  end.

(** [order.assignedSellerId && order.assignedSellerId !== sellerId]. *)
Definition assignedToOther (order : StoredOrder) (sellerId : string) : bool :=
  match assignedSellerId order with
  | Some s => negb (String.eqb s "") && negb (String.eqb s sellerId)
  | None => false
  end.

Definition isClosedOrCancelled (st : OrderStatus) : bool :=
  bool_decide (st = closed) || bool_decide (st = cancelled).

(** [order.itemClaims.find((c) => c.blueprintId === blueprintId)]. *)
Definition findClaim (claims : list OrderItemClaim) (bid : string)
  : option OrderItemClaim :=
  List.find (fun c => String.eqb (blueprintId c) bid) claims.

(** Mutation of the object that [find] returned: the first claim with the
    blueprint id is replaced in the array. *)
Fixpoint updateFoundClaim (bid : string) (f : OrderItemClaim → OrderItemClaim)
  (claims : list OrderItemClaim) : list OrderItemClaim :=
  match claims with
  | [] => []
  | c :: rest =>
      if String.eqb (blueprintId c) bid then f c :: rest
      else c :: updateFoundClaim bid f rest
  end.

(** The three mutations of a claim. *)
Definition markClaimed (sellerId sellerDiscordId now : string)
  (c : OrderItemClaim) : OrderItemClaim :=
  {| blueprintId := blueprintId c;
     blueprintName := blueprintName c;
     requestedQty := requestedQty c;
     claimStatus := claimed;
     claimedBySellerId := Some sellerId;
     claimedBySellerDiscordId := Some sellerDiscordId;
     claimedQuantity := Some (requestedQty c);
     claimedAt := Some now;
     fulfilledAt := fulfilledAt c |}.

Definition markFulfilled (now : string) (c : OrderItemClaim) : OrderItemClaim :=
  {| blueprintId := blueprintId c;
     blueprintName := blueprintName c;
     requestedQty := requestedQty c;
     claimStatus := fulfilled;
     claimedBySellerId := claimedBySellerId c;
     claimedBySellerDiscordId := claimedBySellerDiscordId c;
     claimedQuantity := claimedQuantity c;
     claimedAt := claimedAt c;
     fulfilledAt := Some now |}.

Definition markReleased (c : OrderItemClaim) : OrderItemClaim :=
  {| blueprintId := blueprintId c;
     blueprintName := blueprintName c;
     requestedQty := requestedQty c;
     claimStatus := unclaimed;
     claimedBySellerId := None;
     claimedBySellerDiscordId := None;
     claimedQuantity := None;
     claimedAt := None;
     fulfilledAt := fulfilledAt c |}.

(** Field assignments on an order. *)
Definition setClaimState (o : StoredOrder) (st : OrderStatus)
  (assignee assigneeDiscord assigned : option string)
  (claims : list OrderItemClaim) : StoredOrder :=
  {| orderId := orderId o;
     buyerDiscordNick := buyerDiscordNick o;
     offer := offer o;
     originalOffer := originalOffer o;
     notes := notes o;
     sellerGroups := sellerGroups o;
     isMultiSeller := isMultiSeller o;
     sellerCount := sellerCount o;
     createdAt := createdAt o;
     sellerIds := sellerIds o;
     status := st;
     assignedSellerId := assignee;
     assignedSellerDiscordId := assigneeDiscord;
     assignedAt := assigned;
     itemClaims := claims;
     sellerStates := sellerStates o;
     closedAt := closedAt o;
     closedBySellerId := closedBySellerId o |}.

Definition setStatus (o : StoredOrder) (st : OrderStatus) : StoredOrder :=
  setClaimState o st (assignedSellerId o) (assignedSellerDiscordId o)
    (assignedAt o) (itemClaims o).

Definition setItemClaims (o : StoredOrder) (claims : list OrderItemClaim)
  : StoredOrder :=
  setClaimState o (status o) (assignedSellerId o) (assignedSellerDiscordId o)
    (assignedAt o) claims.

Definition setClosure (o : StoredOrder) (st : OrderStatus)
  (states : option (list SellerOrderState))
  (closedTime closedBy : option string) : StoredOrder :=
  {| orderId := orderId o;
     buyerDiscordNick := buyerDiscordNick o;
     offer := offer o;
     originalOffer := originalOffer o;
     notes := notes o;
     sellerGroups := sellerGroups o;
     isMultiSeller := isMultiSeller o;
     sellerCount := sellerCount o;
     createdAt := createdAt o;
     sellerIds := sellerIds o;
     status := st;
     assignedSellerId := assignedSellerId o;
     assignedSellerDiscordId := assignedSellerDiscordId o;
     assignedAt := assignedAt o;
     itemClaims := itemClaims o;
     sellerStates := states;
     closedAt := closedTime;
     closedBySellerId := closedBy |}.

(** [order.itemClaims.every((c) => c.claimStatus === "fulfilled")]. *)
Definition allFulfilled (claims : list OrderItemClaim) : bool :=
  forallb (fun c => bool_decide (claimStatus c = fulfilled)) claims.

(** [claim.claimedQuantity || claim.requestedQty]. *)
Definition quantityToFulfill (c : OrderItemClaim) : Q :=
  match claimedQuantity c with
  | Some q => if Number.isZero q then requestedQty c else q
  | None => requestedQty c
  end.

(** *** Basic CRUD *)

(** [itemClaimsMap]: one unclaimed claim per distinct blueprint id, in the
    order of first appearance over the seller groups. *)
Definition addInitialClaim (claims : list OrderItemClaim)
  (item : SellerGroupItem) : list OrderItemClaim :=
  if existsb (fun c => String.eqb (blueprintId c) (gi_blueprintId item)) claims
  then claims
  else claims ++ [ {| blueprintId := gi_blueprintId item;
                      blueprintName := gi_blueprintName item;
                      requestedQty := gi_requestedQty item;
                      claimStatus := unclaimed;
                      claimedBySellerId := None;
                      claimedBySellerDiscordId := None;
                      claimedQuantity := None;
                      claimedAt := None;
                      fulfilledAt := None |} ].

Definition initialClaims (groups : list SellerOrderGroup)
  : list OrderItemClaim :=
  fold_left (fun claims g => fold_left addInitialClaim (sg_items g) claims)
            groups [].

Definition newStoredOrder (p : ProcessedOrder) : StoredOrder :=
  {| orderId := po_orderId p;
     buyerDiscordNick := po_buyerDiscordNick p;
     offer := po_offer p;
     originalOffer := po_originalOffer p;
     notes := po_notes p;
     sellerGroups := po_sellerGroups p;
     isMultiSeller := po_isMultiSeller p;
     sellerCount := po_sellerCount p;
     createdAt := po_createdAt p;
     sellerIds := map sg_sellerId (po_sellerGroups p);
     status := open;
     assignedSellerId := None;
     assignedSellerDiscordId := None;
     assignedAt := None;
     itemClaims := initialClaims (po_sellerGroups p);
     sellerStates := None;
     closedAt := None;
     closedBySellerId := None |}.

Definition saveOrder (w : World) (p : ProcessedOrder) : StoredOrder * World :=
  let storedOrder := newStoredOrder p in
  (storedOrder,
   {| sellersDir := sellersDir w;
      ordersDir := <[getOrderFilePath (po_orderId p) := storedOrder]> (ordersDir w) |}).

(** [getOrderById]: the record of the order file.  [migrateOrderIfNeeded]
    only fills in a missing [status] or [itemClaims]; both fields are
    mandatory in [StoredOrder], on which it is the identity. *)
Definition getOrderById (w : World) (orderId : string) : option StoredOrder :=
  ordersDir w !! getOrderFilePath orderId.

(** [updateOrder]: full overwrite of the file named after the order's own id. *)
Definition updateOrder (w : World) (order : StoredOrder) : World :=
  {| sellersDir := sellersDir w;
     ordersDir := <[getOrderFilePath (orderId order) := order]> (ordersDir w) |}.

Definition withSellers (w : World) (dir : SellerDir) : World :=
  {| sellersDir := dir; ordersDir := ordersDir w |}.

(** [order.sellerStates.find(s => s.sellerId === sellerId)?.status === "closed"]. *)
Definition isOrderClosedBySeller (order : StoredOrder) (sellerId : string)
  : bool :=
  match sellerStates order with
  | None => false
  | Some states =>
      match List.find (fun s => String.eqb (ss_sellerId s) sellerId) states with
      | Some s => bool_decide (ss_status s = seller_closed)
      | None => false
      end
  end.

(** *** Claim operations

    Every operation runs inside [withFileLock] with a synchronous body, so
    it is one step from world to world.  It returns the [ClaimResult] and
    the world after the call. *)

(** First loop of [acceptOrderFull]: stop at the first blocking item,
    otherwise collect the blueprint ids. *)
Fixpoint acceptCheck (dir : SellerDir) (sellerId : string)
  (claims : list OrderItemClaim) : ClaimError + list string :=
  match claims with
  | [] => inr []
  | claim :: rest =>
      if negb (bool_decide (claimStatus claim = unclaimed))
         && negb (isSeller (claimedBySellerId claim) sellerId)
      then inl (ItemTakenByOther (blueprintName claim))
      else
        let sellerQty :=
          getSellerBlueprintQuantity dir sellerId (blueprintId claim) in
        if Number.ltb (inject_Z sellerQty) (requestedQty claim)
        then inl (NotEnoughInInventory (blueprintName claim) sellerQty
                    (requestedQty claim))
        else
          match acceptCheck dir sellerId rest with
          | inl e => inl e
          | inr ids => inr (blueprintId claim :: ids)
          end
  end.

Definition acceptOrderFull (w : World) (orderId sellerId now : string)
  : ClaimResult * World :=
  match getOrderById w orderId with
  | None => (failure OrderNotFound, w)
  | Some order =>
      if isClosedOrCancelled (status order)
      then (failure OrderAlreadyClosed, w)
      else if assignedToOther order sellerId
      then (failure AcceptedByOtherSeller, w)
      else
        match getSellerById (sellersDir w) sellerId with
        | None => (failure NoPermission, w)
        | Some seller =>
            if negb (canSellerReceiveOrders seller)
            then (failure NoPermission, w)
            else
              match acceptCheck (sellersDir w) sellerId (itemClaims order) with
              | inl e => (failure e, w)
              | inr claimedIds =>
                  let order' :=
                    setClaimState order in_progress (Some sellerId)
                      (Some (seller_discordId seller)) (Some now)
                      (map (markClaimed sellerId (seller_discordId seller) now)
                           (itemClaims order)) in
                  (succeeded (Some claimedIds), updateOrder w order')
              end
        end
  end.

(** The loop of [claimOrderItems] over [itemsToClaim]; the claims array is
    mutated as the loop goes, so later look-ups see earlier claims. *)
Fixpoint claimLoop (dir : SellerDir) (sellerId sellerDiscordId now : string)
  (itemsToClaim : list string) (claims : list OrderItemClaim)
  (claimedIds : list string) : list OrderItemClaim * list string :=
  match itemsToClaim with
  | [] => (claims, claimedIds)
  | bid :: rest =>
      match findClaim claims bid with
      | None => claimLoop dir sellerId sellerDiscordId now rest claims claimedIds
      | Some claim =>
          if negb (bool_decide (claimStatus claim = unclaimed))
             && negb (isSeller (claimedBySellerId claim) sellerId)
          then claimLoop dir sellerId sellerDiscordId now rest claims claimedIds
          else
            let sellerQty :=
              getSellerBlueprintQuantity dir sellerId (blueprintId claim) in
            if Number.ltb (inject_Z sellerQty) (requestedQty claim)
            then claimLoop dir sellerId sellerDiscordId now rest claims claimedIds
            else
              claimLoop dir sellerId sellerDiscordId now rest
                (updateFoundClaim bid
                   (markClaimed sellerId sellerDiscordId now) claims)
                (claimedIds ++ [bid])
      end
  end.

Definition claimOrderItems (w : World) (orderId sellerId : string)
  (blueprintIds : option (list string)) (now : string)
  : ClaimResult * World :=
  match getOrderById w orderId with
  | None => (failure OrderNotFound, w)
  | Some order =>
      if isClosedOrCancelled (status order)
      then (failure OrderAlreadyClosed, w)
      else if assignedToOther order sellerId
      then (failure AcceptedByOtherSeller, w)
      else
        match getSellerById (sellersDir w) sellerId with
        | None => (failure NoPermission, w)
        | Some seller =>
            if negb (canSellerReceiveOrders seller)
            then (failure NoPermission, w)
            else
              let itemsToClaim :=
                match blueprintIds with
                | Some ids => ids
                | None =>
                    map blueprintId
                      (List.filter
                         (fun c => bool_decide (claimStatus c = unclaimed))
                         (itemClaims order))
                end in
              let '(claims, claimedIds) :=
                claimLoop (sellersDir w) sellerId (seller_discordId seller) now
                  itemsToClaim (itemClaims order) [] in
              match claimedIds with
              | [] => (failure NothingToClaim, w)
              | _ :: _ =>
                  let st :=
                    if bool_decide (status order = open) then in_progress
                    else status order in
                  let order' :=
                    setClaimState order st (assignedSellerId order)
                      (assignedSellerDiscordId order) (assignedAt order) claims in
                  (succeeded (Some claimedIds), updateOrder w order')
              end
        end
  end.

Definition fulfillOrderItem (w : World) (orderId sellerId bid now : string)
  : ClaimResult * World :=
  match getOrderById w orderId with
  | None => (failure OrderNotFound, w)
  | Some order =>
      match findClaim (itemClaims order) bid with
      | None => (failure ItemNotFound, w)
      | Some claim =>
          if negb (isSeller (claimedBySellerId claim) sellerId)
          then (failure CannotFulfillItem, w)
          else if bool_decide (claimStatus claim = fulfilled)
          then (failure ItemAlreadyFulfilled, w)
          else
            let currentQty :=
              getSellerBlueprintQuantity (sellersDir w) sellerId bid in
            let qty := quantityToFulfill claim in
            if Number.ltb (inject_Z currentQty) qty
            then (failure (NotEnoughInStock currentQty qty), w)
            else
              let newQty := Number.sub (inject_Z currentQty) qty in
              let '(inventoryUpdated, dir') :=
                updateSellerInventoryItem (sellersDir w) sellerId bid newQty now in
              if negb inventoryUpdated
              then (failure InventoryUpdateFailed, withSellers w dir')
              else
                let claims := updateFoundClaim bid (markFulfilled now)
                                (itemClaims order) in
                let st := if allFulfilled claims then completed
                          else status order in
                let order' :=
                  setClaimState order st (assignedSellerId order)
                    (assignedSellerDiscordId order) (assignedAt order) claims in
                (succeeded (Some [bid]), updateOrder (withSellers w dir') order')
      end
  end.

(** [claim.claimedBySellerId === sellerId && claim.claimStatus === "claimed"]. *)
Definition toFulfill (sellerId : string) (c : OrderItemClaim) : bool :=
  isSeller (claimedBySellerId c) sellerId
  && bool_decide (claimStatus c = claimed).

(** First pass of [fulfillAllClaimedItems]: inventory check of every item
    to fulfil; stops at the first shortfall. *)
Fixpoint fulfillCheck (dir : SellerDir) (sellerId : string)
  (itemsToFulfill : list OrderItemClaim) : option ClaimError :=
  match itemsToFulfill with
  | [] => None
  | claim :: rest =>
      let currentQty :=
        getSellerBlueprintQuantity dir sellerId (blueprintId claim) in
      let quantityNeeded := quantityToFulfill claim in
      if Number.ltb (inject_Z currentQty) quantityNeeded
      then Some (NotEnoughInStockOf (blueprintName claim) currentQty
                   quantityNeeded)
      else fulfillCheck dir sellerId rest
  end.

Section FulfillAll.

(** The inventory writer that the second pass calls, as orders.ts imports it
    from sellers.ts; [fulfillAllClaimedItems] below instantiates it with
    [updateSellerInventoryItem]. *)
Variable updateInventory :
  SellerDir → string → string → Q → string → bool * SellerDir.

(** Second pass.  [itemsToFulfill] holds the very objects of
    [order.itemClaims] that pass the filter, so the loop is a traversal of
    [itemClaims] that acts on those and leaves the others.  The result is
    the error of the early return (if any), the sellers directory, the
    claims as mutated in memory and the ids fulfilled. *)
Fixpoint fulfillPass (dir : SellerDir) (sellerId now : string)
  (claims : list OrderItemClaim)
  : option ClaimError * SellerDir * list OrderItemClaim * list string :=
  match claims with
  | [] => (None, dir, [], [])
  | claim :: rest =>
      if toFulfill sellerId claim then
        let currentQty :=
          getSellerBlueprintQuantity dir sellerId (blueprintId claim) in
        let qty := quantityToFulfill claim in
        let newQty := Number.sub (inject_Z currentQty) qty in
        let '(inventoryUpdated, dir') :=
          updateInventory dir sellerId (blueprintId claim) newQty now in
        if negb inventoryUpdated
        then (Some (InventoryUpdateFailedFor (blueprintName claim)),
              dir', claim :: rest, [])
        else
          let '(err, dir'', rest', ids) := fulfillPass dir' sellerId now rest in
          (err, dir'', markFulfilled now claim :: rest', blueprintId claim :: ids)
      else
        let '(err, dir', rest', ids) := fulfillPass dir sellerId now rest in
        (err, dir', claim :: rest', ids)
  end.

Definition fulfillAllClaimedItemsWith (w : World)
  (orderId sellerId now : string) : ClaimResult * World :=
  match getOrderById w orderId with
  | None => (failure OrderNotFound, w)
  | Some order =>
      let itemsToFulfill := List.filter (toFulfill sellerId) (itemClaims order) in
      match itemsToFulfill with
      | [] => (failure NothingToFulfill, w)
      | _ :: _ =>
          match fulfillCheck (sellersDir w) sellerId itemsToFulfill with
          | Some e => (failure e, w)
          | None =>
              let '(err, dir', claims, fulfilledIds) :=
                fulfillPass (sellersDir w) sellerId now (itemClaims order) in
              match err with
              | Some e => (failure e, withSellers w dir')
              | None =>
                  let st := if allFulfilled claims then completed
                            else status order in
                  let order' :=
                    setClaimState order st (assignedSellerId order)
                      (assignedSellerDiscordId order) (assignedAt order)
                      claims in
                  (succeeded (Some fulfilledIds),
                   updateOrder (withSellers w dir') order')
              end
          end
      end
  end.

End FulfillAll.

Definition fulfillAllClaimedItems : World → string → string → string
  → ClaimResult * World :=
  fulfillAllClaimedItemsWith updateSellerInventoryItem.

(** [sellerState.status = "closed"; sellerState.closedAt = now] on the
    state that [find] returned, or on a new state pushed at the end. *)
Fixpoint closeSellerState (sellerId now : string)
  (states : list SellerOrderState) : list SellerOrderState :=
  match states with
  | [] => [ {| ss_sellerId := sellerId; ss_status := seller_closed;
               ss_closedAt := Some now |} ]
  | s :: rest =>
      if String.eqb (ss_sellerId s) sellerId
      then {| ss_sellerId := ss_sellerId s; ss_status := seller_closed;
              ss_closedAt := Some now |} :: rest
      else s :: closeSellerState sellerId now rest
  end.

Definition closeOrder (w : World) (orderId sellerId : string) (isAdmin : bool)
  (now : string) : ClaimResult * World :=
  match getOrderById w orderId with
  | None => (failure OrderNotFound, w)
  | Some order =>
      if isAdmin then
        (succeeded None,
         updateOrder w (setClosure order closed (sellerStates order)
                          (Some now) (Some sellerId)))
      else if isClosedOrCancelled (status order)
      then (failure OrderAlreadyClosed, w)
      else if isOrderClosedBySeller order sellerId
      then (failure AlreadyClosedByYou, w)
      else
        let isAssigned := isSeller (assignedSellerId order) sellerId in
        let hasClaimedItems :=
          existsb (fun c => isSeller (claimedBySellerId c) sellerId)
                  (itemClaims order) in
        if negb isAssigned && negb hasClaimedItems
        then (failure CannotCloseOrder, w)
        else
          let myUnfulfilledItems :=
            List.filter
              (fun c => isSeller (claimedBySellerId c) sellerId
                        && negb (bool_decide (claimStatus c = fulfilled)))
              (itemClaims order) in
          match myUnfulfilledItems with
          | _ :: _ => (failure FulfillClaimedFirst, w)
          | [] =>
              let states :=
                closeSellerState sellerId now
                  (match sellerStates order with
                   | Some states => states
                   | None => []
                   end) in
              let order' :=
                if allFulfilled (itemClaims order)
                then setClosure order closed (Some states)
                       (Some now) (Some sellerId)
                else setClosure order (status order) (Some states)
                       (closedAt order) (closedBySellerId order) in
              (succeeded None, updateOrder w order')
          end
  end.

Definition cancelOrder (w : World) (orderId now : string)
  : ClaimResult * World :=
  match getOrderById w orderId with
  | None => (failure OrderNotFound, w)
  | Some order =>
      if isClosedOrCancelled (status order)
      then (failure OrderAlreadyClosed, w)
      else
        (succeeded None,
         updateOrder w (setClosure order cancelled (sellerStates order)
                          (Some now) (closedBySellerId order)))
  end.

Definition releaseOrderItem (w : World) (orderId sellerId bid : string)
  : ClaimResult * World :=
  match getOrderById w orderId with
  | None => (failure OrderNotFound, w)
  | Some order =>
      if isClosedOrCancelled (status order)
      then (failure OrderAlreadyClosed, w)
      else
        match findClaim (itemClaims order) bid with
        | None => (failure ItemNotFound, w)
        | Some claim =>
            if negb (isSeller (claimedBySellerId claim) sellerId)
            then (failure CannotReleaseItem, w)
            else if bool_decide (claimStatus claim = fulfilled)
            then (failure CannotReleaseFulfilled, w)
            else
              let claims := updateFoundClaim bid markReleased
                              (itemClaims order) in
              let stillHasClaims :=
                existsb
                  (fun c => isSeller (claimedBySellerId c) sellerId
                            && negb (bool_decide (claimStatus c = unclaimed)))
                  claims in
              let unassign :=
                isSeller (assignedSellerId order) sellerId
                && negb stillHasClaims in
              let hasAnyClaims :=
                existsb (fun c => negb (bool_decide (claimStatus c = unclaimed)))
                        claims in
              let order' :=
                setClaimState order
                  (if hasAnyClaims then status order else open)
                  (if unassign then None else assignedSellerId order)
                  (if unassign then None else assignedSellerDiscordId order)
                  (if unassign then None else assignedAt order)
                  claims in
              (succeeded (Some [bid]), updateOrder w order')
        end
  end.

(** *** Seller order views *)

(** The row of the view for a claim the seller can see. *)
Definition viewItem (dir : SellerDir) (sellerId : string)
  (claim : OrderItemClaim) : SellerViewItem :=
  let sellerQty := getSellerBlueprintQuantity dir sellerId (blueprintId claim) in
  {| vi_blueprintId := blueprintId claim;
     vi_blueprintName := blueprintName claim;
     vi_requestedQty := requestedQty claim;
     vi_available := Number.geb (inject_Z sellerQty) (requestedQty claim);
     vi_availableQty := sellerQty;
     vi_claimStatus := claimStatus claim;
     vi_claimedByMe := isSeller (claimedBySellerId claim) sellerId;
     vi_claimedBySellerId := claimedBySellerId claim;
     vi_claimedBySellerDiscordId := claimedBySellerDiscordId claim;
     vi_claimedQuantity := claimedQuantity claim |}.

(** [canSee] of the loop of [buildSellerOrderView]. *)
Definition canSee (dir : SellerDir) (sellerId : string)
  (isAssignedToMe : bool) (claim : OrderItemClaim) : bool :=
  let sellerQty := getSellerBlueprintQuantity dir sellerId (blueprintId claim) in
  let isClaimedByMe := isSeller (claimedBySellerId claim) sellerId in
  let isUnclaimed := bool_decide (claimStatus claim = unclaimed) in
  let canSeeUnclaimed := isUnclaimed && (0 <? sellerQty) in
  isClaimedByMe || canSeeUnclaimed || isAssignedToMe.

(** The loop over [order.itemClaims]: the visible rows, the two counters
    and the running [canAcceptAll] flag. *)
Fixpoint viewLoop (dir : SellerDir) (sellerId : string)
  (isAssignedToMe : bool) (claims : list OrderItemClaim)
  : list SellerViewItem * nat * nat * bool :=
  match claims with
  | [] => ([], 0%nat, 0%nat, true)
  | claim :: rest =>
      let '(items, claimableItemCount, myClaimedItemCount, canAcceptAll) :=
        viewLoop dir sellerId isAssignedToMe rest in
      let sellerQty :=
        getSellerBlueprintQuantity dir sellerId (blueprintId claim) in
      let isClaimedByMe := isSeller (claimedBySellerId claim) sellerId in
      let isUnclaimed := bool_decide (claimStatus claim = unclaimed) in
      if negb (canSee dir sellerId isAssignedToMe claim) then
        (items, claimableItemCount, myClaimedItemCount,
         if isUnclaimed then false else canAcceptAll)
      else
        (viewItem dir sellerId claim :: items,
         if isUnclaimed && (0 <? sellerQty)
         then S claimableItemCount else claimableItemCount,
         if isClaimedByMe then S myClaimedItemCount else myClaimedItemCount,
         if isUnclaimed
            && Number.ltb (inject_Z sellerQty) (requestedQty claim)
         then false else canAcceptAll)
  end.

Definition buildSellerOrderView (w : World) (order : StoredOrder)
  (sellerId sellerDiscordId : string) : option SellerOrderView :=
  let isAssignedToMe := isSeller (assignedSellerId order) sellerId in
  let isClosedByMe := isOrderClosedBySeller order sellerId in
  let '(items, claimableItemCount, myClaimedItemCount, canAcceptAll) :=
    viewLoop (sellersDir w) sellerId isAssignedToMe (itemClaims order) in
  match items with
  | [] => None
  | _ :: _ =>
      let allUnclaimed :=
        forallb (fun c => bool_decide (claimStatus c = unclaimed))
                (itemClaims order) in
      Some {| v_orderId := orderId order;
              v_buyerDiscordNick := buyerDiscordNick order;
              v_offer := offer order;
              v_notes := notes order;
              v_isMultiSeller := isMultiSeller order;
              v_createdAt := createdAt order;
              v_status := status order;
              v_isAssignedToMe := isAssignedToMe;
              v_isClosedByMe := isClosedByMe;
              v_items := items;
              v_canAcceptFull :=
                canAcceptAll && allUnclaimed
                && (length items =? length (itemClaims order))%nat;
              v_claimableItemCount := claimableItemCount;
              v_myClaimedItemCount := myClaimedItemCount |}
  end.

Definition getOrderForSeller (w : World) (orderId sellerId : string)
  : option SellerOrderView :=
  match getOrderById w orderId with
  | None => None
  | Some order =>
      match getSellerById (sellersDir w) sellerId with
      | None => None
      | Some seller =>
          if negb (canSellerReceiveOrders seller) then None
          else buildSellerOrderView w order sellerId (seller_discordId seller)
      end
  end.

Section OrderListing.

(** [new Date(createdAt).getTime()] of the JavaScript runtime. *)
Variable getTime : string → Z.

Definition newestFirst (a b : StoredOrder) : Prop :=
  getTime (createdAt b) ≤ getTime (createdAt a).

#[local] Instance newestFirst_dec a b : Decision (newestFirst a b).
Proof. unfold newestFirst. apply _. Defined.

(** [getAllOrders]: every order file whose record has an order id, newest
    first. *)
Definition getAllOrders (w : World) : list StoredOrder :=
  merge_sort newestFirst
    (filter (fun o => orderId o ≠ "") (snd <$> map_to_list (ordersDir w))).

Definition getOrdersForSeller (w : World) (sellerId : string)
  : list SellerOrderView :=
  match getSellerById (sellersDir w) sellerId with
  | None => []
  | Some seller =>
      if negb (canSellerReceiveOrders seller) then []
      else
        omap (fun order =>
                if isClosedOrCancelled (status order) then None
                else if isOrderClosedBySeller order sellerId then None
                else if assignedToOther order sellerId then None
                else buildSellerOrderView w order sellerId
                       (seller_discordId seller))
             (getAllOrders w)
  end.

Definition getArchivedOrdersForSeller (w : World) (sellerId : string)
  : list SellerOrderView :=
  match getSellerById (sellersDir w) sellerId with
  | None => []
  | Some seller =>
      if negb (canSellerReceiveOrders seller) then []
      else
        omap (fun order =>
                let isGloballyClosed := isClosedOrCancelled (status order) in
                let isClosedByThisSeller :=
                  isOrderClosedBySeller order sellerId in
                let hasClaimedItems :=
                  existsb (fun c => isSeller (claimedBySellerId c) sellerId)
                          (itemClaims order) in
                let wasAssigned := isSeller (assignedSellerId order) sellerId in
                let hadInvolvement := hasClaimedItems || wasAssigned in
                if negb isGloballyClosed && negb isClosedByThisSeller then None
                else if isGloballyClosed && negb hadInvolvement then None
                else buildSellerOrderView w order sellerId
                       (seller_discordId seller))
             (getAllOrders w)
  end.

End OrderListing.

(** *** Utility functions *)

(** [deleteOrder]: [false] when the file does not exist, otherwise the file
    is unlinked. *)
Definition deleteOrder (w : World) (orderId : string) : bool * World :=
  match ordersDir w !! getOrderFilePath orderId with
  | None => (false, w)
  | Some _ =>
      (true,
       {| sellersDir := sellersDir w;
          ordersDir := delete (getOrderFilePath orderId) (ordersDir w) |})
  end.

(** [clearAllOrders]: every order file is unlinked and counted.  The
    result is [success] and [deletedCount]. *)
Definition clearAllOrders (w : World) : (bool * nat) * World :=
  let files := map_to_list (ordersDir w) in
  ((true, length files),
   {| sellersDir := sellersDir w;
      ordersDir := fold_left (fun dir file => delete file.1 dir) files
                             (ordersDir w) |}).

(** *** Legacy records

    An order file written before claim tracking has neither [status] nor
    [itemClaims]; [None] is the missing field. *)
Record LegacyOrder : Set := mkLegacyOrder {
  lo_orderId : string;
  lo_buyerDiscordNick : string;
  lo_offer : string;
  lo_originalOffer : string;
  lo_notes : option string;
  lo_sellerGroups : list SellerOrderGroup;
  lo_isMultiSeller : bool;
  lo_sellerCount : nat;
  lo_createdAt : string;
  lo_sellerIds : list string;
  lo_status : option OrderStatus;
  lo_assignedSellerId : option string;
  lo_assignedSellerDiscordId : option string;
  lo_assignedAt : option string;
  lo_itemClaims : option (list OrderItemClaim);
  lo_sellerStates : option (list SellerOrderState);
  lo_closedAt : option string;
  lo_closedBySellerId : option string
}.

(** The body of the inner loop of [migrateOrderIfNeeded]: [find] the claim
    of the blueprint and [push] a new one if there is none. *)
Definition addMigratedClaim (claims : list OrderItemClaim)
  (item : SellerGroupItem) : list OrderItemClaim :=
  match findClaim claims (gi_blueprintId item) with
  | Some _ => claims
  | None =>
      claims ++ [ {| blueprintId := gi_blueprintId item;
                     blueprintName := gi_blueprintName item;
                     requestedQty := gi_requestedQty item;
                     claimStatus := unclaimed;
                     claimedBySellerId := None;
                     claimedBySellerDiscordId := None;
                     claimedQuantity := None;
                     claimedAt := None;
                     fulfilledAt := None |} ]
  end.

Definition migrateOrderIfNeeded (order : LegacyOrder) : StoredOrder :=
  {| orderId := lo_orderId order;
     buyerDiscordNick := lo_buyerDiscordNick order;
     offer := lo_offer order;
     originalOffer := lo_originalOffer order;
     notes := lo_notes order;
     sellerGroups := lo_sellerGroups order;
     isMultiSeller := lo_isMultiSeller order;
     sellerCount := lo_sellerCount order;
     createdAt := lo_createdAt order;
     sellerIds := lo_sellerIds order;
     status := match lo_status order with
               | Some st => st
               | None => open
               end;
     assignedSellerId := lo_assignedSellerId order;
     assignedSellerDiscordId := lo_assignedSellerDiscordId order;
     assignedAt := lo_assignedAt order;
     itemClaims :=
       match lo_itemClaims order with
       | Some claims => claims
       | None =>
           fold_left
             (fun claims g => fold_left addMigratedClaim (sg_items g) claims)
             (lo_sellerGroups order) []
       end;
     sellerStates := lo_sellerStates order;
     closedAt := lo_closedAt order;
     closedBySellerId := lo_closedBySellerId order |}.

(** A stored order read back as a record with all fields present. *)
Definition asLegacy (o : StoredOrder) : LegacyOrder :=
  {| lo_orderId := orderId o;
     lo_buyerDiscordNick := buyerDiscordNick o;
     lo_offer := offer o;
     lo_originalOffer := originalOffer o;
     lo_notes := notes o;
     lo_sellerGroups := sellerGroups o;
     lo_isMultiSeller := isMultiSeller o;
     lo_sellerCount := sellerCount o;
     lo_createdAt := createdAt o;
     lo_sellerIds := sellerIds o;
     lo_status := Some (status o);
     lo_assignedSellerId := assignedSellerId o;
     lo_assignedSellerDiscordId := assignedSellerDiscordId o;
     lo_assignedAt := assignedAt o;
     lo_itemClaims := Some (itemClaims o);
     lo_sellerStates := sellerStates o;
     lo_closedAt := closedAt o;
     lo_closedBySellerId := closedBySellerId o |}.

(** *** Administrator views *)

Record AdminViewItem : Set := mkAdminItem {
  ai_blueprintId : string;
  ai_blueprintName : string;
  ai_requestedQty : Q;
  ai_claimStatus : ItemClaimStatus;
  ai_claimedBySellerId : option string;
  ai_claimedBySellerDiscordId : option string;
  ai_claimedQuantity : option Q;
  ai_claimedAt : option string;
  ai_fulfilledAt : option string
}.

Record AdminOrderView : Set := mkAdminView {
  a_orderId : string;
  a_buyerDiscordNick : string;
  a_offer : string;
  a_notes : option string;
  a_isMultiSeller : bool;
  a_createdAt : string;
  a_status : OrderStatus;
  a_assignedSellerId : option string;
  a_assignedSellerDiscordId : option string;
  a_assignedAt : option string;
  a_closedAt : option string;
  a_closedBySellerId : option string;
  a_items : list AdminViewItem;
  a_sellerStates : option (list SellerOrderState)
}.

Definition buildAdminOrderView (order : StoredOrder) : AdminOrderView :=
  {| a_orderId := orderId order;
     a_buyerDiscordNick := buyerDiscordNick order;
     a_offer := offer order;
     a_notes := notes order;
     a_isMultiSeller := isMultiSeller order;
     a_createdAt := createdAt order;
     a_status := status order;
     a_assignedSellerId := assignedSellerId order;
     a_assignedSellerDiscordId := assignedSellerDiscordId order;
     a_assignedAt := assignedAt order;
     a_closedAt := closedAt order;
     a_closedBySellerId := closedBySellerId order;
     a_items :=
       map (fun claim =>
              {| ai_blueprintId := blueprintId claim;
                 ai_blueprintName := blueprintName claim;
                 ai_requestedQty := requestedQty claim;
                 ai_claimStatus := claimStatus claim;
                 ai_claimedBySellerId := claimedBySellerId claim;
                 ai_claimedBySellerDiscordId := claimedBySellerDiscordId claim;
                 ai_claimedQuantity := claimedQuantity claim;
                 ai_claimedAt := claimedAt claim;
                 ai_fulfilledAt := fulfilledAt claim |})
           (itemClaims order);
     a_sellerStates := sellerStates order |}.

Record SellerOrderStats : Set := mkStats {
  st_activeOrders : nat;
  st_claimedItems : nat;
  st_fulfilledItems : nat;
  st_archivedOrders : nat
}.

(** The two counting loops of [getSellerOrderStats]: one increment per
    item of a view that is the seller's and has the given status. *)
Definition countItems (st : ItemClaimStatus) (views : list SellerOrderView)
  : nat :=
  fold_left
    (fun n order =>
       fold_left
         (fun n item =>
            if vi_claimedByMe item && bool_decide (vi_claimStatus item = st)
            then S n else n)
         (v_items order) n)
    views 0%nat.

Section AdminListing.

Variable getTime : string → Z.

Definition countOrdersForSeller (w : World) (sellerId : string) : nat :=
  length (getOrdersForSeller getTime w sellerId).

Definition getSellerOrderStats (w : World) (sellerId : string)
  : SellerOrderStats :=
  let activeOrders := getOrdersForSeller getTime w sellerId in
  let archivedOrders := getArchivedOrdersForSeller getTime w sellerId in
  {| st_activeOrders := length activeOrders;
     st_claimedItems := countItems claimed activeOrders;
     st_fulfilledItems := countItems fulfilled archivedOrders;
     st_archivedOrders := length archivedOrders |}.

Definition getAllOrdersForAdmin (w : World) : list AdminOrderView :=
  map buildAdminOrderView (getAllOrders getTime w).

Definition getActiveOrdersForAdmin (w : World) : list AdminOrderView :=
  map buildAdminOrderView
    (List.filter
       (fun o => negb (bool_decide (status o = closed))
                 && negb (bool_decide (status o = cancelled)))
       (getAllOrders getTime w)).

Definition getArchivedOrdersForAdmin (w : World) : list AdminOrderView :=
  map buildAdminOrderView
    (List.filter
       (fun o => bool_decide (status o = closed)
                 || bool_decide (status o = cancelled))
       (getAllOrders getTime w)).

End AdminListing.

End Orders.
Export Orders.

(* ===================================================================== *)
(** * Vocabulary of the properties *)
(* ===================================================================== *)

(** Well-formed inventory: at most one entry per blueprint.  Registration
    creates the empty inventory and both writers keep the property. *)
Definition inventoryOk (inv : list SellerInventoryItem) : Prop :=
  NoDup (map inv_blueprintId inv).

(** Every seller record of the directory has a well-formed inventory. *)
Definition inventoriesOk (dir : SellerDir) : Prop :=
  map_Forall (fun _ seller => inventoryOk (seller_inventory seller)) dir.

(** The quantity a seller record holds of a blueprint. *)
Definition quantityOf (inv : list SellerInventoryItem) (b : string) : Z :=
  quantityOrZero (findInventoryItem inv b).

(** Every order file is named after the id of the order it holds.
    [saveOrder] establishes this and every operation keeps it. *)
Definition ordersOk (w : World) : Prop :=
  map_Forall (fun key order => getOrderFilePath (orderId order) = key)
             (ordersDir w).

(** The stock that an inventory holds of blueprint [b]: the quantity
    stored in its first entry for [b], and 0 when it has no entry for [b]. *)
Inductive stocks (inv : list SellerInventoryItem) (b : string) : Z → Prop :=
  | stocks_entry pre item post :
      inv = (pre ++ item :: post)%list →
      b ∉ map inv_blueprintId pre →
      inv_blueprintId item = b →
      stocks inv b (inv_quantity item)
  | stocks_none :
      b ∉ map inv_blueprintId inv →
      stocks inv b 0.

(** A seller covers an order when the seller's stock of every requested
    item reaches the requested quantity. *)
Definition covers (seller : SellerWithInventory) (items : list (string * Q))
  : Prop :=
  ∀ b q, (b, q) ∈ items →
    ∃ n, stocks (seller_inventory seller) b n ∧ (q <= inject_Z n)%Q.


(** Position by position, every claim stored as fulfilled in [w] is stored
    unchanged in [w']. *)
Definition keepsFulfilled (w w' : World) : Prop :=
  ∀ key order i c,
    ordersDir w !! key = Some order →
    itemClaims order !! i = Some c →
    claimStatus c = fulfilled →
    ∃ order', ordersDir w' !! key = Some order'
              ∧ itemClaims order' !! i = Some c.

(** Readers used to state what a scenario leaves in the store. *)
Definition claimStatusOf (w : World) (oid bid : string)
  : option ItemClaimStatus :=
  match getOrderById w oid with
  | Some order => claimStatus <$> findClaim (itemClaims order) bid
  | None => None
  end.

Definition statusOf (w : World) (oid : string) : option OrderStatus :=
  status <$> getOrderById w oid.

Definition stockOf (w : World) (sellerId bid : string) : Z :=
  getSellerBlueprintQuantity (sellersDir w) sellerId bid.

Definition claimOf (w : World) (oid bid : string) : option OrderItemClaim :=
  match getOrderById w oid with
  | Some order => findClaim (itemClaims order) bid
  | None => None
  end.

(* ===================================================================== *)
(** * Sample stores *)
(* ===================================================================== *)

Definition sellerWith (sid discord : string) (inv : list SellerInventoryItem)
  : SellerWithInventory :=
  mkSeller sid discord "hash" active None "t0" "t0" inv.

Definition demoSeller : SellerWithInventory :=
  sellerWith "S1" "alice" [mkInventoryItem "A" 5; mkInventoryItem "B" 2].

Definition demoSellers : SellerDir := <["S1" := demoSeller]> ∅.

Definition pendingSeller : SellerWithInventory :=
  mkSeller "S9" "carol" "hash" pending_verification None "t0" "t0"
    [mkInventoryItem "A" 5].

Definition demoClaim (bid name : string) (qty : Q) : OrderItemClaim :=
  {| blueprintId := bid; blueprintName := name; requestedQty := qty;
     claimStatus := unclaimed; claimedBySellerId := None;
     claimedBySellerDiscordId := None; claimedQuantity := None;
     claimedAt := None; fulfilledAt := None |}.

Definition demoOrder (claims : list OrderItemClaim) : StoredOrder :=
  {| orderId := "ORD-1"; buyerDiscordNick := "bob"; offer := "gold";
     originalOffer := "gold"; notes := None; sellerGroups := [];
     isMultiSeller := false; sellerCount := 1%nat; createdAt := "t1";
     sellerIds := ["S1"]; status := open; assignedSellerId := None;
     assignedSellerDiscordId := None; assignedAt := None;
     itemClaims := claims; sellerStates := None; closedAt := None;
     closedBySellerId := None |}.

(** A seller awaiting verification and an open order for three of A. *)
Definition pendingWorld : World :=
  {| sellersDir := <["S9" := pendingSeller]> ∅;
     ordersDir := <["ORD-1" := demoOrder [demoClaim "A" "Alpha" 3]]> ∅ |}.

(** Stand-ins for the runtime's [localeCompare] and [Date.getTime]. *)
Definition demoCompare (a b : string) : Z :=
  if String.leb a b then -1 else 1.

Definition demoTime (s : string) : Z := Z.of_nat (String.length s).

(** The two resolution examples of the specification: items A x2 and B x2. *)
Definition splitStock : SellerDir :=
  <["S1" := sellerWith "S1" "alice" [mkInventoryItem "A" 2]]>
  (<["S2" := sellerWith "S2" "bob" [mkInventoryItem "B" 2]]> ∅).

Definition fullStock : SellerDir :=
  <["S1" := sellerWith "S1" "alice"
              [mkInventoryItem "A" 5; mkInventoryItem "B" 5]]>
  (<["S2" := sellerWith "S2" "bob" [mkInventoryItem "A" 1]]> ∅).

(** Two sellers that each cover a request for three of A. *)
Definition sharedStock : SellerDir :=
  <["S1" := sellerWith "S1" "alice" [mkInventoryItem "A" 3]]>
  (<["S2" := sellerWith "S2" "bob" [mkInventoryItem "A" 4]]> ∅).

Definition twoItems : OrderRequest :=
  mkOrderRequest "buyer" "gold" None
    [mkOrderItem "A" "Alpha" 2; mkOrderItem "B" "Beta" 2].

Definition threeOfA : OrderRequest :=
  mkOrderRequest "buyer" "gold" None [mkOrderItem "A" "Alpha" 3].

(** The store after a buyer's request has been processed and saved. *)
Definition submitted (dir : SellerDir) (request : OrderRequest) : World :=
  (saveOrder {| sellersDir := dir; ordersDir := ∅ |}
     (processOrder demoCompare (fun s => s) (fun _ => None) dir request
        "ORD-1" "t1")).2.

(** One active seller with six of A (and a second one without stock); a
    buyer asks for three of A, the seller accepts and then fulfils. *)
Definition oneSeller : SellerDir :=
  <["S1" := sellerWith "S1" "alice" [mkInventoryItem "A" 6]]>
  (<["S2" := sellerWith "S2" "bob" []]> ∅).

Definition acceptedWorld : World :=
  (acceptOrderFull (submitted oneSeller threeOfA) "ORD-1" "S1" "t2").2.

Definition acceptedOrder : StoredOrder :=
  default (demoOrder []) (getOrderById acceptedWorld "ORD-1").

Definition acceptedClaim : OrderItemClaim :=
  default (demoClaim "" "" 0) (findClaim (itemClaims acceptedOrder) "A").

Definition fulfilledWorld : World :=
  (fulfillOrderItem acceptedWorld "ORD-1" "S1" "A" "t3").2.

(** An administrator closes, or cancels, the order while item A is claimed. *)
Definition closedWorld : World :=
  (closeOrder acceptedWorld "ORD-1" "admin" true "t3").2.

Definition cancelledWorld : World :=
  (cancelOrder acceptedWorld "ORD-1" "t3").2.

(** One active seller with five of A and of B; the buyer asks for two of
    each, and the seller accepts the whole order. *)
Definition twoStock : SellerDir :=
  <["S1" := sellerWith "S1" "alice"
              [mkInventoryItem "A" 5; mkInventoryItem "B" 5]]> ∅.

Definition bothClaimed : World :=
  (acceptOrderFull (submitted twoStock twoItems) "ORD-1" "S1" "t2").2.

(** A buyer asks for one and a half of A; the seller with five of A accepts
    the order. *)
Definition halfRequest : OrderRequest :=
  mkOrderRequest "buyer" "gold" None [mkOrderItem "A" "Alpha" (3 # 2)].

Definition halfAccepted : World :=
  (acceptOrderFull (submitted demoSellers halfRequest) "ORD-1" "S1" "t2").2.

(** The buyer asks for two of A and of B; the seller with five of each
    claims A alone and fulfils it. *)
Definition partFulfilled : World :=
  (fulfillOrderItem
     (claimOrderItems (submitted twoStock twoItems) "ORD-1" "S1" (Some ["A"])
        "t2").2
     "ORD-1" "S1" "A" "t3").2.

(** An inventory writer that reports failure for one blueprint (the seller
    record cannot be read at that call) and is the writer of sellers.ts
    otherwise. *)
Definition failingFor (bad : string) (dir : SellerDir)
  (sellerId bid : string) (quantity : Q) (now : string) : bool * SellerDir :=
  if String.eqb bid bad then (false, dir)
  else updateSellerInventoryItem dir sellerId bid quantity now.
(* ===================================================================== *)
(** ** lib/rate-limit.ts *)
(* ===================================================================== *)

Module RateLimit.

Record RateLimitEntry : Set := mkEntry {
  entry_count : Z;
  entry_resetAt : Z
}.

Record RateLimitConfig : Set := mkConfig {
  maxRequests : Z;
  windowMs : Z
}.

Record RateLimitResult : Set := mkResult {
  allowed : bool;
  remaining : Z;
  resetAt : Z;
  retryAfter : Z
}.

(** The module state: the in-memory [rateLimitStore] and [lastCleanup]. *)
Record Limiter : Set := mkLimiter {
  rateLimitStore : gmap string RateLimitEntry;
  lastCleanup : Z
}.

Definition CLEANUP_INTERVAL : Z := 60 * 1000.

(** The default of the [config] parameter: 3 requests per 5 minutes. *)
Definition DEFAULT_CONFIG : RateLimitConfig :=
  {| maxRequests := 3; windowMs := 5 * 60 * 1000 |}.

(** [Math.ceil(x / d)] on integers. *)
Definition ceilDiv (x d : Z) : Z := - ((- x) / d).

(** [cleanupOldEntries]; [now] is its reading of the clock. *)
Definition cleanupOldEntries (st : Limiter) (now : Z) : Limiter :=
  if now - lastCleanup st <? CLEANUP_INTERVAL then st
  else
    {| rateLimitStore :=
         filter (fun kv => ¬ (entry_resetAt kv.2 ≤ now)) (rateLimitStore st);
       lastCleanup := now |}.

(** [checkRateLimit]: the clock is read once by the cleanup
    ([nowCleanup]) and once by the check ([now]). *)
Definition checkRateLimit (st : Limiter) (key : string)
  (config : RateLimitConfig) (nowCleanup now : Z)
  : RateLimitResult * Limiter :=
  let st := cleanupOldEntries st nowCleanup in
  let newWindow :=
    let resetAt := now + windowMs config in
    ({| allowed := true;
        remaining := maxRequests config - 1;
        resetAt := resetAt;
        retryAfter := 0 |},
     {| rateLimitStore :=
          <[key := {| entry_count := 1; entry_resetAt := resetAt |}]>
            (rateLimitStore st);
        lastCleanup := lastCleanup st |}) in
  match rateLimitStore st !! key with
  | None => newWindow
  | Some entry =>
      if entry_resetAt entry <=? now then newWindow
      else if maxRequests config <=? entry_count entry then
        ({| allowed := false;
            remaining := 0;
            resetAt := entry_resetAt entry;
            retryAfter := ceilDiv (entry_resetAt entry - now) 1000 |},
         st)
      else
        let entry' := {| entry_count := entry_count entry + 1;
                         entry_resetAt := entry_resetAt entry |} in
        ({| allowed := true;
            remaining := maxRequests config - entry_count entry';
            resetAt := entry_resetAt entry';
            retryAfter := 0 |},
         {| rateLimitStore := <[key := entry']> (rateLimitStore st);
            lastCleanup := lastCleanup st |})
  end.

End RateLimit.
Export RateLimit.

(* ===================================================================== *)
(** * Vocabulary of the further properties *)
(* ===================================================================== *)

(** The line of the order that a claim tracks. *)
Definition lineOf (c : OrderItemClaim) : string * string * Q :=
  (blueprintId c, blueprintName c, requestedQty c).

(** What the buyer submitted and what the resolver derived from it. *)
Definition submissionOf (o : StoredOrder)
  : string * string * string * string * option string
    * list SellerOrderGroup * bool * nat * string * list string :=
  (orderId o, buyerDiscordNick o, offer o, originalOffer o, notes o,
   sellerGroups o, isMultiSeller o, sellerCount o, createdAt o, sellerIds o).

(** [w'] holds the same order files as [w], each with the same submission
    and the same lines in the same order. *)
Definition keepsLines (w w' : World) : Prop :=
  ∀ key,
    match ordersDir w !! key, ordersDir w' !! key with
    | Some order, Some order' =>
        submissionOf order' = submissionOf order
        ∧ map lineOf (itemClaims order') = map lineOf (itemClaims order)
    | None, None => True
    | _, _ => False
    end.

(** Position by position, every claim of [w] that satisfies [P] is stored
    unchanged in [w']. *)
Definition keepsClaimsWhere (P : OrderItemClaim → Prop) (w w' : World) : Prop :=
  ∀ key order i c,
    ordersDir w !! key = Some order →
    itemClaims order !! i = Some c →
    P c →
    ∃ order', ordersDir w' !! key = Some order'
              ∧ itemClaims order' !! i = Some c.

(** A claim that some party other than [sellerId] holds. *)
Definition heldByOther (sellerId : string) (c : OrderItemClaim) : Prop :=
  claimStatus c ≠ unclaimed ∧ claimedBySellerId c ≠ Some sellerId.

(** What [acceptOrderFull] requires of every item. *)
Definition acceptable (dir : SellerDir) (sellerId : string)
  (c : OrderItemClaim) : Prop :=
  (claimStatus c = unclaimed ∨ claimedBySellerId c = Some sellerId)
  ∧ (requestedQty c
     <= inject_Z (getSellerBlueprintQuantity dir sellerId (blueprintId c)))%Q.

(** The claims of an order name pairwise different blueprints, as the
    claims that [saveOrder] creates do. *)
Definition claimIdsOk (claims : list OrderItemClaim) : Prop :=
  NoDup (map blueprintId claims).


(** The stock left of [stock] when the quantity [q] is taken from it: the
    difference, rounded down, and 0 if that is negative. *)
Definition debited (stock : Z) (q : Q) : Z :=
  Z.max 0 (Number.floor (Number.sub (inject_Z stock) q)).

(** The ids that [claimOrderItems] works through. *)
Definition itemsToClaim (blueprintIds : option (list string))
  (claims : list OrderItemClaim) : list string :=
  match blueprintIds with
  | Some ids => ids
  | None =>
      map blueprintId
        (List.filter (fun c => bool_decide (claimStatus c = unclaimed)) claims)
  end.

(** The outcome of the tests that the loop of [claimOrderItems] makes for an
    id: the first claim with this blueprint exists, is not held by another
    party, and is requested in a quantity the seller stocks. *)
Definition eligible (dir : SellerDir) (sellerId : string)
  (claims : list OrderItemClaim) (bid : string) : bool :=
  match findClaim claims bid with
  | Some claim =>
      negb (negb (bool_decide (claimStatus claim = unclaimed))
            && negb (isSeller (claimedBySellerId claim) sellerId))
      && negb (Number.ltb
                 (inject_Z (getSellerBlueprintQuantity dir sellerId
                              (blueprintId claim)))
                 (requestedQty claim))
  | None => false
  end.

(** A claim as [markClaimed] leaves it for [sellerId]. *)
Definition claimedBy (sellerId : string) (c : OrderItemClaim) : Prop :=
  claimStatus c = claimed
  ∧ claimedBySellerId c = Some sellerId
  ∧ claimedQuantity c = Some (requestedQty c).

(** An unclaimed claim without any trace of a claim, as [saveOrder] creates
    it and [releaseOrderItem] leaves it. *)
Definition pristine (c : OrderItemClaim) : Prop :=
  claimStatus c = unclaimed
  ∧ claimedBySellerId c = None
  ∧ claimedBySellerDiscordId c = None
  ∧ claimedQuantity c = None
  ∧ claimedAt c = None.

(** What the loop of [saveOrder] has built after the lines [seen]. *)
Definition claimsFor (seen : list SellerGroupItem)
  (claims : list OrderItemClaim) : Prop :=
  NoDup (map blueprintId claims)
  ∧ (∀ b, b ∈ map blueprintId claims ↔ b ∈ map gi_blueprintId seen)
  ∧ (∀ c, c ∈ claims →
       pristine c ∧ fulfilledAt c = None
       ∧ ∃ item,
           List.find (fun it => String.eqb (gi_blueprintId it) (blueprintId c))
                     seen = Some item
           ∧ blueprintName c = gi_blueprintName item
           ∧ requestedQty c = gi_requestedQty item).


(** The row that [resolveOrderToSellers] writes for an item and a seller
    that stocks it. *)
Definition rowOf (item : RequestedItem) (seller : SellerWithInventory)
  : SellerGroupItem :=
  let availableQty :=
    quantityOf (seller_inventory seller) (ri_blueprintId item) in
  {| gi_blueprintId := ri_blueprintId item;
     gi_blueprintName := ri_blueprintName item;
     gi_requestedQty := ri_quantity item;
     gi_available := Number.geb (inject_Z availableQty) (ri_quantity item);
     gi_availableQty := availableQty |}.

(** The rows due to the seller id [sid]: item by item, one row for every
    seller of the list that carries this id and stocks the item. *)
Definition rowsFor (sellers : list SellerWithInventory)
  (items : list RequestedItem) (sid : string) : list SellerGroupItem :=
  flat_map
    (fun item =>
       flat_map
         (fun seller =>
            if String.eqb (seller_id seller) sid
               && (0 <? quantityOf (seller_inventory seller)
                                   (ri_blueprintId item))
            then [rowOf item seller] else [])
         sellers)
    items.

(** The rows that a list of groups holds under the seller id [sid]. *)
Definition groupRows (groups : list SellerOrderGroup) (sid : string)
  : list SellerGroupItem :=
  flat_map (fun g => if String.eqb (sg_sellerId g) sid then sg_items g else [])
           groups.

(** Groups as [resolveOrderToSellers] builds them: one group per seller id,
    none without rows, each with the contact data of a seller of the list. *)
Definition groupsOk (sellers : list SellerWithInventory)
  (groups : list SellerOrderGroup) : Prop :=
  NoDup (map sg_sellerId groups)
  ∧ (∀ g, g ∈ groups → sg_items g ≠ [])
  ∧ (∀ g, g ∈ groups →
       ∃ seller, seller ∈ sellers
                 ∧ seller_id seller = sg_sellerId g
                 ∧ seller_discordId seller = sg_sellerDiscordId g
                 ∧ seller_telegramChatId seller = sg_sellerTelegramChatId g).



(** An item that the seller could claim: unclaimed and in the seller's
    stock. *)
Definition claimable (dir : SellerDir) (sellerId : string)
  (c : OrderItemClaim) : bool :=
  bool_decide (claimStatus c = unclaimed)
  && (0 <? getSellerBlueprintQuantity dir sellerId (blueprintId c)).

(** The number of items of an order that the seller holds with the given
    claim status. *)
Definition heldWith (st : ItemClaimStatus) (sellerId : string)
  (o : StoredOrder) : nat :=
  length (List.filter
            (fun c => isSeller (claimedBySellerId c) sellerId
                      && bool_decide (claimStatus c = st))
            (itemClaims o)).

(** The orders that the active list of a seller draws from: not closed or
    cancelled, not closed by the seller, not assigned to another seller. *)
Definition activeFor (sellerId : string) (o : StoredOrder) : bool :=
  negb (isClosedOrCancelled (status o))
  && negb (isOrderClosedBySeller o sellerId)
  && negb (assignedToOther o sellerId).

(** The orders that the archive of a seller draws from: closed by the
    seller, or closed or cancelled as a whole after the seller claimed an
    item or was assigned. *)
Definition archivedFor (sellerId : string) (o : StoredOrder) : bool :=
  (isClosedOrCancelled (status o) || isOrderClosedBySeller o sellerId)
  && (negb (isClosedOrCancelled (status o))
      || existsb (fun c => isSeller (claimedBySellerId c) sellerId)
                 (itemClaims o)
      || isSeller (assignedSellerId o) sellerId).

(** [aggregated.get(blueprintId)] on the result of
    [getAggregatedInventory]. *)
Definition aggregatedFor (aggregated : list AggregatedEntry) (b : string)
  : option AggregatedEntry :=
  List.find (fun e => String.eqb (ag_blueprintId e) b) aggregated.

(** The stock of blueprint [b] in a list of sellers: one pair of seller id
    and quantity for every inventory entry of the blueprint with a quantity
    above zero, seller by seller. *)
Definition stockRows (sellers : list SellerWithInventory) (b : string)
  : list (string * Z) :=
  flat_map
    (fun seller =>
       flat_map
         (fun item =>
            if String.eqb (inv_blueprintId item) b && (0 <? inv_quantity item)
            then [(seller_id seller, inv_quantity item)] else [])
         (seller_inventory seller))
    sellers.


(** The total that [totalQty += quantity] gives when the quantities of a
    list are added to [t] one after the other, and the total of an entry
    that is created with the first quantity of a list. *)
Definition addAll (t : Q) (l : list Z) : Q :=
  fold_left (fun t q => Number.add t (inject_Z q)) l t.

Definition totalOf (l : list Z) : Q :=
  match l with
  | [] => 0%Q
  | q :: rest => addAll (inject_Z q) rest
  end.

(** The pairs of blueprint [b] among the triples that the loops work
    through. *)
Definition rowsOf (b : string) (triples : list (string * (string * Z)))
  : list (string * Z) :=
  flat_map (fun t => if String.eqb t.1 b then [t.2] else []) triples.

Definition addTriple (agg : list AggregatedEntry)
  (t : string * (string * Z)) : list AggregatedEntry :=
  addToAggregated agg t.1 t.2.2 t.2.1.

Definition triplesOf (seller : SellerWithInventory)
  : list (string * (string * Z)) :=
  flat_map (fun item => if 0 <? inv_quantity item
                        then [(inv_blueprintId item,
                               (seller_id seller, inv_quantity item))]
                        else [])
           (seller_inventory seller).

(** Every seller file is named after the id of the seller it holds, as
    the files that [registerSeller] and [createSeller] write are. *)
Definition sellersOk (dir : SellerDir) : Prop :=
  map_Forall (fun key seller => seller_id seller = key) dir.




(** A request as the routes make it, with its two readings of the clock. *)
Record Request : Set := mkRequest {
  rq_key : string;
  rq_config : RateLimitConfig;
  rq_nowCleanup : Z;
  rq_now : Z
}.

(** The requests of a list, one after the other; each is returned with
    its result. *)
Fixpoint serve (st : Limiter) (requests : list Request)
  : list (Request * RateLimitResult) * Limiter :=
  match requests with
  | [] => ([], st)
  | rq :: rest =>
      let '(result, st') :=
        checkRateLimit st (rq_key rq) (rq_config rq) (rq_nowCleanup rq)
          (rq_now rq) in
      let '(results, st'') := serve st' rest in
      ((rq, result) :: results, st'')
  end.

(** What the [i]-th further request of a window gets when [used] requests
    of the window are counted: it is allowed if it is at most the
    [maxRequests]-th, and is told how many remain. *)
Definition windowOutcome (config : RateLimitConfig) (used : Z) (i : nat)
  : bool * Z :=
  let nth := used + Z.of_nat i + 1 in
  if nth <=? maxRequests config then (true, maxRequests config - nth)
  else (false, 0).

(** The results for the requests of one key. *)
Definition resultsFor (key : string)
  (results : list (Request * RateLimitResult)) : list RateLimitResult :=
  map snd (List.filter (fun rr => String.eqb (rq_key rr.1) key) results).

(* ===================================================================== *)
(** * Further sample stores *)
(* ===================================================================== *)

Definition closedOrder : StoredOrder :=
  default (demoOrder []) (getOrderById closedWorld "ORD-1").

(** Two active sellers with 2^53 - 1 and 2 of A. *)
Definition bigStock : SellerDir :=
  <["S1" := sellerWith "S1" "alice" [mkInventoryItem "A" (2 ^ 53 - 1)]]>
  (<["S2" := sellerWith "S2" "bob" [mkInventoryItem "A" 2]]> ∅).

(** The view that seller S1 has of the submitted order in the active list. *)
Definition listedView : SellerOrderView :=
  default (mkView "" "" "" None false "" open false false [] false 0 0)
    (head (getOrdersForSeller demoTime (submitted oneSeller threeOfA) "S1")).

(* ===================================================================== *)
(** * Properties *)
(* ===================================================================== *)

(** ** Arithmetic *)

Section NumberFacts.

Implicit Types (a b x y : Q) (n m : Z).

Lemma ltb_lt a b : Number.ltb a b = true ↔ (a < b)%Q.
Proof.
  unfold Number.ltb. rewrite negb_true_iff, <- not_true_iff_false, Qle_bool_iff.
  split; [apply Qnot_le_lt | apply Qlt_not_le].
Qed.

Lemma ltb_ge a b : Number.ltb a b = false ↔ (b <= a)%Q.
Proof. unfold Number.ltb. rewrite negb_false_iff. apply Qle_bool_iff. Qed.

Lemma geb_ge a b : Number.geb a b = true ↔ (b <= a)%Q.
Proof. apply Qle_bool_iff. Qed.

Lemma geb_ltb a b : Number.geb a b = negb (Number.ltb a b).
Proof. unfold Number.ltb, Number.geb. by rewrite negb_involutive. Qed.

Lemma isZero_true a : Number.isZero a = true ↔ (a == 0)%Q.
Proof. apply Qeq_bool_iff. Qed.

Lemma floor_integer n : Number.floor (inject_Z n) = n.
Proof. apply Qfloor_Z. Qed.

Lemma floor_comp x y : (x == y)%Q → Number.floor x = Number.floor y.
Proof. apply Qfloor_comp. Qed.

(** A stock is above zero exactly when it reaches some quantity above
    zero. *)
Lemma inject_Z_pos n : (0 < inject_Z n)%Q ↔ 0 < n.
Proof. change 0%Q with (inject_Z 0). by rewrite <- Zlt_Qlt. Qed.

Lemma roundHalfEven_integer x m :
  (x == inject_Z m)%Q → Number.roundHalfEven x = m.
Proof.
  intros Hx. unfold Number.roundHalfEven.
  rewrite (Qfloor_comp _ _ Hx), Qfloor_Z.
  assert (Hc : Qcompare (x - inject_Z m) (1 # 2) = Lt).
  { rewrite <- Qlt_alt. rewrite Hx.
    unfold Qlt, Qminus, Qplus, Qopp, inject_Z; simpl. lia. }
  by rewrite Hc.
Qed.

(** Integers of up to 53 bits are binary64 values. *)
Lemma roundPositive_integer n :
  0 < n ≤ 2 ^ 53 → (Number.roundPositive (inject_Z n) == inject_Z n)%Q.
Proof.
  intros [Hpos Hle].
  assert (Hk : 0 ≤ Z.log2 n) by apply Z.log2_nonneg.
  assert (Hspec := Z.log2_spec n Hpos).
  assert (Hk53 : Z.log2 n ≤ 53).
  { destruct (decide (Z.log2 n ≤ 53)) as [|Hgt]; [done|].
    assert (2 ^ 54 ≤ 2 ^ Z.log2 n) by (apply Z.pow_le_mono_r; lia). lia. }
  assert (Hfl : Number.floorLog2 (inject_Z n) = Z.log2 n).
  { unfold Number.floorLog2. cbn [Qnum Qden inject_Z].
    change (Z.log2 1) with 0. rewrite Z.sub_0_r.
    assert (Hb : Qle_bool (2 ^ Z.log2 n) (inject_Z n) = true).
    { apply Qle_bool_iff. change 2%Q with (inject_Z 2).
      rewrite <- Zpower_Qpower by done. rewrite <- Zle_Qle. lia. }
    by rewrite Hb. }
  unfold Number.roundPositive. rewrite Hfl.
  rewrite Z.max_l by lia.
  destruct (decide (Z.log2 n = 53)) as [H53|Hne].
  - assert (n = 2 ^ 53) as ->.
    { rewrite H53 in Hspec. lia. }
    vm_compute. done.
  - set (j := 52 - Z.log2 n).
    assert (Hj : 0 ≤ j) by (unfold j; lia).
    assert (He : Z.log2 n - 52 = - j) by (unfold j; lia).
    rewrite He.
    assert (Hp : (2 ^ (- j) == / inject_Z (2 ^ j))%Q).
    { rewrite Qpower_opp. change 2%Q with (inject_Z 2).
      by rewrite <- Zpower_Qpower. }
    assert (Hpj : 0 < 2 ^ j) by (apply Z.pow_pos_nonneg; lia).
    assert (Hnz : ¬ (inject_Z (2 ^ j) == 0)%Q).
    { unfold Qeq, inject_Z; simpl. lia. }
    rewrite (roundHalfEven_integer _ (n * 2 ^ j)).
    + rewrite Hp, inject_Z_mult. field. done.
    + rewrite Hp, inject_Z_mult. field. done.
Qed.

Lemma roundDouble_comp x y :
  (x == y)%Q → Number.roundDouble x = Number.roundDouble y.
Proof.
  intros H. unfold Number.roundDouble. by rewrite (Qred_complete _ _ H).
Qed.

Lemma Qred_integer n : Qred (inject_Z n) = inject_Z n.
Proof.
  unfold Qred, inject_Z.
  pose proof (Z.ggcd_gcd n 1) as Hg.
  pose proof (Z.ggcd_correct_divisors n 1) as Hd.
  destruct (Z.ggcd n 1) as [g [aa bb]]. cbn in Hg.
  rewrite Z.gcd_1_r in Hg. subst g. destruct Hd as [Ha Hb].
  cbn. destruct aa, bb; try lia; f_equal; lia.
Qed.

Lemma roundDouble_integer n :
  - 2 ^ 53 ≤ n ≤ 2 ^ 53 → (Number.roundDouble (inject_Z n) == inject_Z n)%Q.
Proof.
  intros Hn. unfold Number.roundDouble. rewrite Qred_integer. cbv zeta.
  destruct (Qcompare (inject_Z n) 0) eqn:Hc.
  - apply Qeq_alt in Hc. by rewrite Hc.
  - apply Qlt_alt in Hc. change 0%Q with (inject_Z 0) in Hc.
    rewrite <- Zlt_Qlt in Hc.
    rewrite <- inject_Z_opp, roundPositive_integer by lia.
    rewrite inject_Z_opp. ring.
  - apply Qgt_alt in Hc. change 0%Q with (inject_Z 0) in Hc.
    rewrite <- Zlt_Qlt in Hc.
    apply roundPositive_integer. lia.
Qed.

(** The difference and the sum of integers are exact as long as they have
    at most 53 bits. *)
Lemma sub_integer x y n m :
  (x == inject_Z n)%Q → (y == inject_Z m)%Q →
  - 2 ^ 53 ≤ n - m ≤ 2 ^ 53 →
  (Number.sub x y == inject_Z (n - m))%Q.
Proof.
  intros Hx Hy H. unfold Number.sub.
  assert (Heq : (x - y == inject_Z (n - m))%Q).
  { rewrite Hx, Hy. unfold Z.sub. rewrite inject_Z_plus, inject_Z_opp. ring. }
  rewrite (roundDouble_comp _ _ Heq). by apply roundDouble_integer.
Qed.


(** Taking an integer from a stock of at most 53 bits that covers it. *)
Lemma debited_integer stock q n :
  (q == inject_Z n)%Q → 0 ≤ n ≤ stock → stock ≤ 2 ^ 53 →
  debited stock q = stock - n.
Proof.
  intros Hq Hn Hs. unfold debited, Number.floor.
  rewrite (Qfloor_comp _ _ (sub_integer _ _ stock n (Qeq_refl _) Hq
                              ltac:(lia))).
  rewrite Qfloor_Z. lia.
Qed.

End NumberFacts.

(** ** Inventory store *)

Section InventoryFacts.

Implicit Types (inv : list SellerInventoryItem) (b : string) (q : Q).

Lemma eqb_refl_true b : String.eqb b b = true.
Proof. apply String.eqb_refl. Qed.

Lemma findInventoryItem_None inv b :
  findInventoryItem inv b = None ↔ b ∉ map inv_blueprintId inv.
Proof.
  unfold findInventoryItem. induction inv as [|i inv IH]; simpl.
  - split; [intros _; apply not_elem_of_nil | done].
  - destruct (String.eqb_spec (inv_blueprintId i) b) as [->|Hne].
    + split; [done | intros H; exfalso; apply H; left].
    + rewrite IH, not_elem_of_cons.
      split; [intros ?; split; [congruence | done] | by intros [_ ?]].
Qed.

Lemma findIndex_None inv b :
  findIndex inv b = None ↔ findInventoryItem inv b = None.
Proof.
  unfold findInventoryItem. induction inv as [|i inv IH]; simpl; [done|].
  destruct (String.eqb (inv_blueprintId i) b); [done|].
  destruct (findIndex inv b); simpl; [|done].
  split; [done|]. intros H. by apply IH in H.
Qed.

(** Entries of other blueprints are the same entries, in the same order. *)
Lemma applyInventoryUpdate_others inv b q :
  List.filter (fun i => negb (String.eqb (inv_blueprintId i) b))
    (applyInventoryUpdate inv b q)
  = List.filter (fun i => negb (String.eqb (inv_blueprintId i) b)) inv.
Proof.
  unfold applyInventoryUpdate.
  destruct (Z.max 0 (Number.floor q) =? 0).
  - induction inv as [|i inv IH]; simpl; [done|].
    destruct (String.eqb (inv_blueprintId i) b) eqn:E; simpl.
    + done.
    + destruct (findIndex inv b); simpl in *; rewrite ?E; simpl; [by f_equal|done].
  - induction inv as [|i inv IH]; simpl.
    + by rewrite eqb_refl_true.
    + destruct (String.eqb (inv_blueprintId i) b) eqn:E; simpl.
      * by rewrite E.
      * destruct (findIndex inv b); simpl in *; rewrite ?E; simpl; by f_equal.
Qed.

Lemma findInventoryItem_filter inv b b' :
  b' ≠ b →
  findInventoryItem
    (List.filter (fun i => negb (String.eqb (inv_blueprintId i) b)) inv) b'
  = findInventoryItem inv b'.
Proof.
  intros Hne. unfold findInventoryItem.
  induction inv as [|i inv IH]; simpl; [done|].
  destruct (String.eqb_spec (inv_blueprintId i) b) as [->|Hb]; simpl.
  - destruct (String.eqb_spec b b'); [congruence | done].
  - by rewrite IH.
Qed.

Lemma applyInventoryUpdate_find_other inv b b' q :
  b' ≠ b →
  findInventoryItem (applyInventoryUpdate inv b q) b'
  = findInventoryItem inv b'.
Proof.
  intros Hne.
  rewrite <- (findInventoryItem_filter (applyInventoryUpdate inv b q) b b' Hne).
  rewrite applyInventoryUpdate_others.
  by apply findInventoryItem_filter.
Qed.

(** A positive quantity is stored under the blueprint. *)
Lemma applyInventoryUpdate_find_pos inv b q :
  0 < Number.floor q →
  findInventoryItem (applyInventoryUpdate inv b q) b
  = Some (mkInventoryItem b (Number.floor q)).
Proof.
  intros Hq. unfold applyInventoryUpdate.
  replace (Z.max 0 (Number.floor q)) with (Number.floor q) by lia.
  destruct (Number.floor q =? 0) eqn:E; [lia|]. clear E.
  unfold findInventoryItem.
  induction inv as [|i inv IH]; simpl.
  - by rewrite eqb_refl_true.
  - destruct (String.eqb_spec (inv_blueprintId i) b) as [Hb|Hb]; simpl.
    + rewrite Hb, eqb_refl_true. unfold setQuantityAt. by rewrite Hb.
    + destruct (findIndex inv b); simpl in *;
        (destruct (String.eqb_spec (inv_blueprintId i) b); [done|]); apply IH.
Qed.

(** A quantity that normalises to zero removes the entry. *)
Lemma applyInventoryUpdate_find_zero inv b q :
  inventoryOk inv → Number.floor q ≤ 0 →
  findInventoryItem (applyInventoryUpdate inv b q) b = None.
Proof.
  intros Hok Hq. unfold applyInventoryUpdate.
  replace (Z.max 0 (Number.floor q)) with 0 by lia. simpl.
  unfold inventoryOk in Hok.
  induction inv as [|i inv IH]; simpl; [done|].
  simpl in Hok. apply NoDup_cons in Hok as [Hi Hok].
  destruct (String.eqb_spec (inv_blueprintId i) b) as [Hb|Hb]; simpl.
  - apply findInventoryItem_None. by rewrite <- Hb.
  - destruct (findIndex inv b) eqn:E; simpl.
    + unfold findInventoryItem in *. simpl.
      destruct (String.eqb_spec (inv_blueprintId i) b); [done|]. by apply IH.
    + unfold findInventoryItem in *. simpl.
      destruct (String.eqb_spec (inv_blueprintId i) b); [done|].
      by apply findIndex_None.
Qed.

Lemma applyInventoryUpdate_ids_subseteq inv b q x :
  x ∈ map inv_blueprintId (applyInventoryUpdate inv b q) →
  x = b ∨ x ∈ map inv_blueprintId inv.
Proof.
  destruct (decide (x = b)) as [|Hne]; [by left|]. intros Hx. right.
  apply dec_stable. intros Hn.
  apply findInventoryItem_None in Hn.
  rewrite <- (applyInventoryUpdate_find_other inv b x q Hne) in Hn.
  by apply findInventoryItem_None in Hn.
Qed.

(** The writers keep inventories well formed. *)
Lemma applyInventoryUpdate_ok inv b q :
  inventoryOk inv → inventoryOk (applyInventoryUpdate inv b q).
Proof.
  unfold inventoryOk, applyInventoryUpdate. intros Hok.
  destruct (Z.max 0 (Number.floor q) =? 0).
  - destruct (findIndex inv b) as [idx|]; [|done].
    eapply sublist_NoDup; [exact Hok|].
    change (map inv_blueprintId) with (fmap (M:=list) inv_blueprintId).
    apply fmap_sublist, sublist_delete.
  - destruct (findIndex inv b) as [idx|] eqn:E.
    + assert (map inv_blueprintId
                (alter (fun item => setQuantityAt item
                                      (Z.max 0 (Number.floor q))) idx inv)
              = map inv_blueprintId inv) as ->; [|done].
      clear. revert idx. induction inv as [|i inv IH]; intros [|idx]; simpl; try done.
      f_equal. apply IH.
    + rewrite map_app. simpl. apply NoDup_app. split; [done|]. split.
      * intros x Hx Hx1. apply list_elem_of_singleton in Hx1 as ->.
        apply findIndex_None in E. by apply findInventoryItem_None in E.
      * apply NoDup_singleton.
Qed.

End InventoryFacts.

Section InventoryStore.

Implicit Types (dir : SellerDir) (sellerId itemId : string) (qty : Q).

Lemma getQuantity_absent_seller dir sellerId itemId :
  getSellerById dir sellerId = None →
  getSellerBlueprintQuantity dir sellerId itemId = 0.
Proof. unfold getSellerBlueprintQuantity. by intros ->. Qed.

Lemma getQuantity_absent_entry dir sellerId itemId seller :
  getSellerById dir sellerId = Some seller →
  findInventoryItem (seller_inventory seller) itemId = None →
  getSellerBlueprintQuantity dir sellerId itemId = 0.
Proof. unfold getSellerBlueprintQuantity. by intros -> ->. Qed.

Lemma updateSellerInventoryItem_absent dir sellerId itemId qty now :
  getSellerById dir sellerId = None →
  updateSellerInventoryItem dir sellerId itemId qty now = (false, dir).
Proof. unfold updateSellerInventoryItem. by intros ->. Qed.

Lemma updateSellerInventoryItem_false dir sellerId itemId qty now dir' :
  updateSellerInventoryItem dir sellerId itemId qty now = (false, dir') →
  dir' = dir.
Proof.
  unfold updateSellerInventoryItem.
  destruct (getSellerById dir sellerId); by inversion 1.
Qed.

Lemma updateSellerInventoryItem_present dir sellerId itemId qty now seller :
  getSellerById dir sellerId = Some seller →
  updateSellerInventoryItem dir sellerId itemId qty now
  = (true,
     <[sellerId :=
         withInventory seller
           (applyInventoryUpdate (seller_inventory seller) itemId qty) now]> dir).
Proof. unfold updateSellerInventoryItem. by intros ->. Qed.

(** Reading back the quantity that was written. *)
Lemma getQuantity_after_update dir sellerId itemId qty now seller :
  getSellerById dir sellerId = Some seller →
  inventoryOk (seller_inventory seller) →
  getSellerBlueprintQuantity
    (updateSellerInventoryItem dir sellerId itemId qty now).2 sellerId itemId
  = Z.max 0 (Number.floor qty).
Proof.
  intros Hs Hok. rewrite (updateSellerInventoryItem_present _ _ _ _ _ _ Hs).
  unfold getSellerBlueprintQuantity, getSellerById. simpl.
  rewrite lookup_insert_eq. simpl.
  destruct (Z_le_gt_dec (Number.floor qty) 0) as [Hq|Hq].
  - rewrite applyInventoryUpdate_find_zero by done. simpl. lia.
  - rewrite applyInventoryUpdate_find_pos by lia. simpl.
    destruct (Number.floor qty =? 0) eqn:E; lia.
Qed.

Lemma getQuantity_after_update_other dir sellerId itemId qty now s b :
  (s ≠ sellerId ∨ b ≠ itemId) →
  getSellerBlueprintQuantity
    (updateSellerInventoryItem dir sellerId itemId qty now).2 s b
  = getSellerBlueprintQuantity dir s b.
Proof.
  intros Hne. unfold updateSellerInventoryItem.
  destruct (getSellerById dir sellerId) as [seller|] eqn:Hs; [|done].
  unfold getSellerBlueprintQuantity, getSellerById in *. simpl.
  destruct (decide (s = sellerId)) as [->|Hs'].
  - rewrite lookup_insert_eq, Hs. simpl.
    destruct Hne as [|Hb]; [done|].
    by rewrite applyInventoryUpdate_find_other.
  - by rewrite lookup_insert_ne.
Qed.

(** Both writers keep every inventory of the directory well formed. *)
Lemma updateSellerInventoryItem_ok dir sellerId itemId qty now :
  inventoriesOk dir →
  inventoriesOk (updateSellerInventoryItem dir sellerId itemId qty now).2.
Proof.
  intros Hok. unfold updateSellerInventoryItem.
  destruct (getSellerById dir sellerId) as [seller|] eqn:Hs; [|done].
  apply map_Forall_insert_2; [|done].
  apply applyInventoryUpdate_ok. by apply (Hok sellerId).
Qed.

Lemma updateSellerInventoryBulk_ok dir sellerId
  (updates : list (string * Q)) now :
  inventoriesOk dir →
  inventoriesOk (updateSellerInventoryBulk dir sellerId updates now).2.
Proof.
  intros Hok. unfold updateSellerInventoryBulk.
  destruct (getSellerById dir sellerId) as [seller|] eqn:Hs; [|done].
  apply map_Forall_insert_2; [|done]. cbn [seller_inventory withInventory].
  assert (Hinv : inventoryOk (seller_inventory seller)) by by apply (Hok sellerId).
  revert Hinv. generalize (seller_inventory seller).
  induction updates as [|u rest IH]; intros inv Hinv; [done|].
  cbn [fold_left]. apply IH. by apply applyInventoryUpdate_ok.
Qed.

End InventoryStore.

(** The quantity is rounded down before it is stored: a quantity below 1
    normalises to 0. *)
Lemma floor_nonpos (q : Q) : Number.floor q ≤ 0 ↔ (q < 1)%Q.
Proof.
  unfold Number.floor. split; intros H.
  - eapply Qlt_le_trans; [apply Qlt_floor|].
    change 1%Q with (inject_Z 1). rewrite <- Zle_Qle. lia.
  - assert (Hlt : (inject_Z (Qfloor q) < inject_Z 1)%Q).
    { eapply Qle_lt_trans; [apply Qfloor_le | exact H]. }
    rewrite <- Zlt_Qlt in Hlt. lia.
Qed.

(** C9.  For an existing seller with a well-formed inventory, writing a
    quantity [qty] for an item succeeds and stores the quantity rounded
    down: if the floor of [qty] is 0 or less (that is, [qty < 1], and so in
    particular if [qty <= 0]) the entry of the item is removed and the
    quantity read back is 0; if the floor of [qty] is above 0 the entry
    holds the floor and the quantity read back is the floor, which is [qty]
    itself when [qty] is an integer; the entries and quantities of every
    other item are unchanged; and the quantity read is 0 whenever the
    seller or the entry is absent. *)
Theorem setQuantity_then_getQuantity
  (dir : SellerDir) (sellerId itemId : string) (qty : Q) (now : string)
  (seller : SellerWithInventory) :
  getSellerById dir sellerId = Some seller →
  inventoryOk (seller_inventory seller) →
  ∃ dir' seller',
    updateSellerInventoryItem dir sellerId itemId qty now = (true, dir')
    ∧ getSellerById dir' sellerId = Some seller'
    ∧ (Number.floor qty ≤ 0 ↔ (qty < 1)%Q)
    ∧ (Number.floor qty ≤ 0 →
       findInventoryItem (seller_inventory seller') itemId = None
       ∧ getSellerBlueprintQuantity dir' sellerId itemId = 0)
    ∧ ((qty <= 0)%Q →
       findInventoryItem (seller_inventory seller') itemId = None
       ∧ getSellerBlueprintQuantity dir' sellerId itemId = 0)
    ∧ (0 < Number.floor qty →
       findInventoryItem (seller_inventory seller') itemId
       = Some (mkInventoryItem itemId (Number.floor qty))
       ∧ getSellerBlueprintQuantity dir' sellerId itemId = Number.floor qty)
    ∧ (∀ n : Z, (qty == inject_Z n)%Q → 0 < n →
       findInventoryItem (seller_inventory seller') itemId
       = Some (mkInventoryItem itemId n)
       ∧ getSellerBlueprintQuantity dir' sellerId itemId = n)
    ∧ List.filter (fun i => negb (String.eqb (inv_blueprintId i) itemId))
        (seller_inventory seller')
      = List.filter (fun i => negb (String.eqb (inv_blueprintId i) itemId))
          (seller_inventory seller)
    ∧ (∀ other, other ≠ itemId →
       getSellerBlueprintQuantity dir' sellerId other
       = getSellerBlueprintQuantity dir sellerId other)
    ∧ (∀ d s i, getSellerById d s = None →
       getSellerBlueprintQuantity d s i = 0)
    ∧ (∀ d s i r, getSellerById d s = Some r →
       findInventoryItem (seller_inventory r) i = None →
       getSellerBlueprintQuantity d s i = 0).
Proof.
  intros Hs Hok.
  pose proof (updateSellerInventoryItem_present dir sellerId itemId qty now
                seller Hs) as Hupd.
  eexists _, _. split; [exact Hupd|].
  split; [unfold getSellerById; apply lookup_insert_eq|].
  pose proof (getQuantity_after_update dir sellerId itemId qty now seller Hs Hok)
    as Hget.
  rewrite Hupd in Hget. simpl in Hget.
  split; [apply floor_nonpos|].
  assert (Hzero : Number.floor qty ≤ 0 →
            findInventoryItem
              (seller_inventory
                 (withInventory seller
                    (applyInventoryUpdate (seller_inventory seller) itemId qty)
                    now)) itemId = None
            ∧ getSellerBlueprintQuantity
                (<[sellerId :=
                     withInventory seller
                       (applyInventoryUpdate (seller_inventory seller) itemId
                          qty) now]> dir) sellerId itemId = 0).
  { intros Hq. split.
    - simpl. by apply applyInventoryUpdate_find_zero.
    - rewrite Hget. lia. }
  assert (Hpos : 0 < Number.floor qty →
            findInventoryItem
              (seller_inventory
                 (withInventory seller
                    (applyInventoryUpdate (seller_inventory seller) itemId qty)
                    now)) itemId
            = Some (mkInventoryItem itemId (Number.floor qty))
            ∧ getSellerBlueprintQuantity
                (<[sellerId :=
                     withInventory seller
                       (applyInventoryUpdate (seller_inventory seller) itemId
                          qty) now]> dir) sellerId itemId = Number.floor qty).
  { intros Hq. split.
    - simpl. by apply applyInventoryUpdate_find_pos.
    - rewrite Hget. lia. }
  split; [exact Hzero|].
  split.
  { intros Hq. apply Hzero, floor_nonpos.
    eapply Qle_lt_trans; [exact Hq | done]. }
  split; [exact Hpos|].
  split.
  { intros n Hn Hpn.
    assert (Hfl : Number.floor qty = n)
      by (rewrite (floor_comp _ _ Hn); apply floor_integer).
    rewrite <- Hfl in Hpn |- *. by apply Hpos. }
  split; [simpl; apply applyInventoryUpdate_others|].
  split.
  { intros other Hne.
    pose proof (getQuantity_after_update_other dir sellerId itemId qty now
                  sellerId other (or_intror Hne)) as Ho.
    by rewrite Hupd in Ho. }
  split; [apply getQuantity_absent_seller | apply getQuantity_absent_entry].
Qed.

Lemma setQuantity_then_getQuantity_witness :
  getSellerById demoSellers "S1" = Some demoSeller
  ∧ inventoryOk (seller_inventory demoSeller)
  ∧ ∃ dir' seller',
      updateSellerInventoryItem demoSellers "S1" "A" (7 # 2) "t1" = (true, dir')
      ∧ getSellerById dir' "S1" = Some seller'
      ∧ findInventoryItem (seller_inventory seller') "A"
        = Some (mkInventoryItem "A" 3)
      ∧ getSellerBlueprintQuantity dir' "S1" "A" = 3
      ∧ getSellerBlueprintQuantity dir' "S1" "B" = 2.
Proof.
  assert (H1 : getSellerById demoSellers "S1" = Some demoSeller)
    by (vm_compute; reflexivity).
  assert (H2 : inventoryOk (seller_inventory demoSeller))
    by (apply (bool_decide_unpack _); vm_compute; exact I).
  split; [exact H1|]. split; [exact H2|].
  destruct (setQuantity_then_getQuantity demoSellers "S1" "A" (7 # 2) "t1"
              demoSeller H1 H2)
    as (dir' & seller' & Hu & Hg & _ & _ & _ & Hp & _ & _ & Ho & _).
  exists dir', seller'.
  destruct (Hp ltac:(vm_compute; reflexivity)) as [Hf Hq].
  repeat split; try assumption.
  rewrite Ho by discriminate. vm_compute. reflexivity.
Defined.

(** C9, as the claim states it, fails for a quantity that is not an
    integer: writing 7/2 reads back 3, and writing 1/2, which is above 0,
    removes the entry. *)
Lemma setQuantity_fraction_rounded_down :
  let dir' := (updateSellerInventoryItem demoSellers "S1" "A" (7 # 2) "t1").2 in
  let dir'' := (updateSellerInventoryItem demoSellers "S1" "A" (1 # 2) "t1").2 in
  getSellerById demoSellers "S1" = Some demoSeller
  ∧ (0 < 7 # 2)%Q
  ∧ getSellerBlueprintQuantity dir' "S1" "A" = 3
  ∧ ¬ (inject_Z (getSellerBlueprintQuantity dir' "S1" "A") == 7 # 2)%Q
  ∧ (0 < 1 # 2)%Q
  ∧ findInventoryItem (getSellerInventory dir'' "S1") "A" = None
  ∧ getSellerBlueprintQuantity dir'' "S1" "A" = 0.
Proof.
  cbv zeta. split; [vm_compute; reflexivity|].
  split; [reflexivity|]. split; [vm_compute; reflexivity|].
  split; [vm_compute; discriminate|].
  split; [reflexivity|]. split; vm_compute; reflexivity.
Qed.

(** ** Order store *)

Section OrderStore.

Implicit Types (w : World) (order : StoredOrder).

Lemma getOrderById_key w oid order :
  ordersOk w → getOrderById w oid = Some order →
  getOrderFilePath (orderId order) = getOrderFilePath oid.
Proof. intros Hok Hget. by apply Hok. Qed.

Lemma getOrderById_updateOrder w oid order order' :
  ordersOk w → getOrderById w oid = Some order →
  orderId order' = orderId order →
  getOrderById (updateOrder w order') oid = Some order'.
Proof.
  intros Hok Hget Hid. unfold getOrderById, updateOrder. simpl.
  rewrite Hid, (getOrderById_key _ _ _ Hok Hget). apply lookup_insert_eq.
Qed.

Lemma updateOrder_other w oid order order' key :
  ordersOk w → getOrderById w oid = Some order →
  orderId order' = orderId order →
  key ≠ getOrderFilePath oid →
  ordersDir (updateOrder w order') !! key = ordersDir w !! key.
Proof.
  intros Hok Hget Hid Hne. unfold updateOrder. simpl.
  rewrite Hid, (getOrderById_key _ _ _ Hok Hget). by apply lookup_insert_ne.
Qed.

Lemma updateOrder_ok w oid order order' :
  ordersOk w → getOrderById w oid = Some order →
  orderId order' = orderId order →
  ordersOk (updateOrder w order').
Proof.
  intros Hok Hget Hid key o. unfold updateOrder. simpl.
  rewrite Hid, (getOrderById_key _ _ _ Hok Hget).
  rewrite lookup_insert. case_decide as Hk.
  - intros [= <-]. rewrite Hid, <- Hk. by apply Hok.
  - apply Hok.
Qed.

Lemma withSellers_same w : withSellers w (sellersDir w) = w.
Proof. by destruct w. Qed.

Lemma isClosedOrCancelled_true st :
  isClosedOrCancelled st = true ↔ st = closed ∨ st = cancelled.
Proof. destruct st; vm_compute; intuition congruence. Qed.

Lemma isSeller_true field sellerId :
  isSeller field sellerId = true ↔ field = Some sellerId.
Proof.
  destruct field as [s|]; simpl; [|done].
  rewrite String.eqb_eq. split; congruence.
Qed.

Lemma isSeller_false field sellerId :
  isSeller field sellerId = false ↔ field ≠ Some sellerId.
Proof.
  rewrite <- isSeller_true. destruct (isSeller field sellerId); split; congruence.
Qed.

Lemma canSellerReceiveOrders_true seller :
  canSellerReceiveOrders seller = true ↔ seller_status seller = active.
Proof. unfold canSellerReceiveOrders. apply bool_decide_eq_true. Qed.

End OrderStore.

(** The sample stores are well formed. *)
Lemma acceptedWorld_ok : ordersOk acceptedWorld.
Proof. apply (bool_decide_unpack _). vm_compute. exact I. Qed.

Lemma submitted_ok : ordersOk (submitted oneSeller threeOfA).
Proof. apply (bool_decide_unpack _). vm_compute. exact I. Qed.

(** ** Sellers that may not receive orders *)

(** C10.  When the seller id names no seller, or a seller whose status is not
    active, [acceptOrderFull] and [claimOrderItems] fail with an error and the
    world (hence the stored order) is unchanged. *)
Theorem inactive_seller_cannot_claim
  (w : World) (orderId sellerId now : string)
  (blueprintIds : option (list string)) :
  (getSellerById (sellersDir w) sellerId = None
   ∨ ∃ seller, getSellerById (sellersDir w) sellerId = Some seller
               ∧ seller_status seller ≠ active) →
  (∃ e, acceptOrderFull w orderId sellerId now = (failure e, w))
  ∧ (∃ e, claimOrderItems w orderId sellerId blueprintIds now = (failure e, w)).
Proof.
  intros Hseller.
  assert (Hno : match getSellerById (sellersDir w) sellerId with
                | Some seller => canSellerReceiveOrders seller = false
                | None => True
                end).
  { destruct Hseller as [->|(seller & -> & Hst)]; [done|].
    destruct (canSellerReceiveOrders seller) eqn:E; [|done].
    by apply canSellerReceiveOrders_true in E. }
  unfold acceptOrderFull, claimOrderItems.
  destruct (getOrderById w orderId) as [order|]; [|by split; eexists].
  destruct (isClosedOrCancelled (status order)); [by split; eexists|].
  destruct (assignedToOther order sellerId); [by split; eexists|].
  destruct (getSellerById (sellersDir w) sellerId) as [seller|];
    [|by split; eexists].
  rewrite Hno. simpl. by split; eexists.
Qed.

Lemma inactive_seller_cannot_claim_witness :
  (∃ e, acceptOrderFull pendingWorld "ORD-1" "S9" "t2" = (failure e, pendingWorld))
  ∧ (∃ e, claimOrderItems pendingWorld "ORD-1" "S9" None "t2"
          = (failure e, pendingWorld)).
Proof.
  apply (inactive_seller_cannot_claim pendingWorld "ORD-1" "S9" "t2" None).
  right. exists pendingSeller. split; [vm_compute; reflexivity | discriminate].
Defined.

(** ** Accepting a whole order *)

Section AcceptFull.

Implicit Types (w : World) (dir : SellerDir) (claims : list OrderItemClaim).

(** What the first loop of [acceptOrderFull] establishes when it passes. *)
Lemma acceptCheck_passes dir sellerId claims ids :
  acceptCheck dir sellerId claims = inr ids →
  ids = map blueprintId claims
  ∧ ∀ c, c ∈ claims →
      (claimStatus c = unclaimed ∨ claimedBySellerId c = Some sellerId)
      ∧ (requestedQty c
         <= inject_Z (getSellerBlueprintQuantity dir sellerId
                        (blueprintId c)))%Q.
Proof.
  revert ids. induction claims as [|claim rest IH]; intros ids; simpl.
  - intros [= <-]. split; [done|]. intros c Hc. by apply elem_of_nil in Hc.
  - destruct (bool_decide (claimStatus claim = unclaimed)) eqn:Hu;
    destruct (isSeller (claimedBySellerId claim) sellerId) eqn:Hs; simpl;
      try discriminate;
    (destruct (Number.ltb _ (requestedQty claim)) eqn:Hq; [discriminate|]);
    (destruct (acceptCheck dir sellerId rest) as [e|ids'] eqn:Hrest;
       [discriminate|]);
    intros [= <-]; destruct (IH ids' eq_refl) as [-> IHc];
    (split; [done|]); intros c [->|Hc]%elem_of_cons; try (by apply IHc);
    (split; [|by apply ltb_ge]).
    + left. by apply bool_decide_eq_true in Hu.
    + left. by apply bool_decide_eq_true in Hu.
    + right. by apply isSeller_true.
Qed.

Lemma acceptCheck_blocked dir sellerId claims c :
  c ∈ claims →
  (claimStatus c ≠ unclaimed ∧ claimedBySellerId c ≠ Some sellerId)
  ∨ (inject_Z (getSellerBlueprintQuantity dir sellerId (blueprintId c))
     < requestedQty c)%Q →
  ∃ e, acceptCheck dir sellerId claims = inl e.
Proof.
  intros Hc Hblock.
  destruct (acceptCheck dir sellerId claims) as [e|ids] eqn:E; [by eexists|].
  apply acceptCheck_passes in E as [_ E]. destruct (E c Hc) as [Hst Hq].
  destruct Hblock as [[Hn1 Hn2]|Hlt]; [|by apply Qlt_not_le in Hlt].
  by destruct Hst.
Qed.

Lemma assignedToOther_true order sellerId :
  assignedToOther order sellerId = true ↔
  ∃ other, assignedSellerId order = Some other ∧ other ≠ "" ∧ other ≠ sellerId.
Proof.
  unfold assignedToOther. destruct (assignedSellerId order) as [s|].
  - destruct (String.eqb_spec s ""), (String.eqb_spec s sellerId); simpl;
      split; try discriminate; try (intros (o & [= <-] & ? & ?); congruence).
    intros _. by exists s.
  - split; [discriminate | by intros (o & ? & _)].
Qed.

End AcceptFull.

(** [acceptOrderFull] has no partial effect.  Either it fails, reports an
    error and leaves the world unchanged, or it succeeds and the stored order
    then has the seller as assignee with the assignment time, every item
    claimed by the seller with the claimed quantity equal to the requested
    quantity, and status in_progress, inventories and other orders being
    untouched.  It fails whenever the order is closed or cancelled, is
    assigned to a different seller, holds an item that is not unclaimed and
    does not carry this seller's id, or asks of some item more than the
    seller stocks. *)
Lemma acceptOrderFull_atomic
  (w : World) (oid sellerId now : string) :
  ordersOk w →
  let r := (acceptOrderFull w oid sellerId now).1 in
  let w' := (acceptOrderFull w oid sellerId now).2 in
  ((success r = false ∧ is_Some (error r) ∧ w' = w)
   ∨ (success r = true ∧ error r = None
      ∧ sellersDir w' = sellersDir w
      ∧ (∀ key, key ≠ getOrderFilePath oid →
                ordersDir w' !! key = ordersDir w !! key)
      ∧ ∃ order order' seller,
          getOrderById w oid = Some order
          ∧ getSellerById (sellersDir w) sellerId = Some seller
          ∧ getOrderById w' oid = Some order'
          ∧ assignedSellerId order' = Some sellerId
          ∧ assignedAt order' = Some now
          ∧ status order' = in_progress
          ∧ itemClaims order'
            = map (markClaimed sellerId (seller_discordId seller) now)
                  (itemClaims order)
          ∧ Forall (fun c => claimStatus c = claimed
                             ∧ claimedQuantity c = Some (requestedQty c)
                             ∧ claimedBySellerId c = Some sellerId)
                   (itemClaims order')
          ∧ claimedItems r = Some (map blueprintId (itemClaims order))))
  ∧ (∀ order, getOrderById w oid = Some order →
       (status order = closed ∨ status order = cancelled
        ∨ (∃ other, assignedSellerId order = Some other
                    ∧ other ≠ "" ∧ other ≠ sellerId)
        ∨ (∃ c, c ∈ itemClaims order ∧ claimStatus c ≠ unclaimed
                ∧ claimedBySellerId c ≠ Some sellerId)
        ∨ (∃ c, c ∈ itemClaims order
                ∧ (inject_Z (getSellerBlueprintQuantity (sellersDir w) sellerId
                               (blueprintId c)) < requestedQty c)%Q)) →
       success r = false ∧ is_Some (error r) ∧ w' = w).
Proof.
  intros Hok. cbn zeta. unfold acceptOrderFull.
  destruct (getOrderById w oid) as [order|] eqn:Hget;
    [|split; [left; by eauto | intros ? [=]]].
  destruct (isClosedOrCancelled (status order)) eqn:Hst;
    [split; [left; by eauto | by eauto]|].
  destruct (assignedToOther order sellerId) eqn:Hao;
    [split; [left; by eauto | by eauto]|].
  destruct (getSellerById (sellersDir w) sellerId) as [seller|] eqn:Hs;
    [|split; [left; by eauto | by eauto]].
  destruct (canSellerReceiveOrders seller) eqn:Hact; cbn [negb];
    [|split; [left; by eauto | by eauto]].
  destruct (acceptCheck (sellersDir w) sellerId (itemClaims order))
    as [e|ids] eqn:Hchk; cbn [fst snd];
    [split; [left; by eauto | by eauto]|].
  apply acceptCheck_passes in Hchk as [-> Hchk].
  split.
  - right. split; [done|]. split; [done|]. split; [done|]. split.
    + intros key Hkey. by apply (updateOrder_other w oid order).
    + eexists order, _, seller. split; [done|]. split; [done|].
      split; [by apply (getOrderById_updateOrder w oid order)|]. cbn.
      repeat split; try done.
      apply Forall_forall. intros c Hc.
      apply list_elem_of_In, in_map_iff in Hc as (c0 & <- & _). done.
  - intros ? [= <-] Hcond. exfalso.
    destruct Hcond as [Hc|[Hc|[Hc|[(c & Hc & Hn1 & Hn2)|(c & Hc & Hlt)]]]].
    + assert (isClosedOrCancelled (status order) = true)
        by (apply isClosedOrCancelled_true; by left). congruence.
    + assert (isClosedOrCancelled (status order) = true)
        by (apply isClosedOrCancelled_true; by right). congruence.
    + apply assignedToOther_true in Hc. congruence.
    + destruct (Hchk c Hc) as [[?|?] _]; done.
    + destruct (Hchk c Hc) as [_ ?]. by apply Qlt_not_le in Hlt.
Qed.

Example acceptOrderFull_atomic_example :
  ordersOk (submitted oneSeller threeOfA)
  ∧ success (acceptOrderFull (submitted oneSeller threeOfA)
               "ORD-1" "S1" "t2").1 = true
  ∧ ∃ order',
      getOrderById acceptedWorld "ORD-1" = Some order'
      ∧ assignedSellerId order' = Some "S1"
      ∧ assignedAt order' = Some "t2"
      ∧ status order' = in_progress
      ∧ Forall (fun c => claimStatus c = claimed
                         ∧ claimedQuantity c = Some (requestedQty c)
                         ∧ claimedBySellerId c = Some "S1")
               (itemClaims order').
Proof.
  split; [exact submitted_ok|].
  assert (Hsucc : success (acceptOrderFull (submitted oneSeller threeOfA)
                             "ORD-1" "S1" "t2").1 = true)
    by (vm_compute; reflexivity).
  split; [exact Hsucc|].
  destruct (acceptOrderFull_atomic (submitted oneSeller threeOfA)
              "ORD-1" "S1" "t2" submitted_ok) as [[Hfail|Hdone] _].
  - destruct Hfail as [Hfail _]. rewrite Hsucc in Hfail. discriminate.
  - destruct Hdone
      as (_ & _ & _ & _ & order & order' & seller
          & _ & _ & Hget & Ha & Hat & Hst & _ & Hall & _).
    exists order'. repeat split; assumption.
Qed.

(** C5 (fails on the code).  [acceptOrderFull] does not fail when the order
    holds an item that is neither unclaimed nor claimed.  A seller has
    claimed and fulfilled item A of an order for A and B: the order is in
    progress and unassigned, item A is fulfilled, item B unclaimed, and the
    stock covers both.  [acceptOrderFull] by the same seller then succeeds
    and changes the order: item A is stored as claimed again, item B is
    claimed and the order is assigned to the seller; a further
    [fulfillOrderItem] debits the stock of A a second time. *)
Theorem accept_takes_fulfilled_item :
  let accepted := acceptOrderFull partFulfilled "ORD-1" "S1" "t4" in
  let refulfilled := fulfillOrderItem accepted.2 "ORD-1" "S1" "A" "t5" in
  statusOf partFulfilled "ORD-1" = Some in_progress
  ∧ assignedSellerId <$> getOrderById partFulfilled "ORD-1" = Some None
  ∧ claimStatusOf partFulfilled "ORD-1" "A" = Some fulfilled
  ∧ claimedBySellerId <$> claimOf partFulfilled "ORD-1" "A"
    = Some (Some "S1")
  ∧ claimStatusOf partFulfilled "ORD-1" "B" = Some unclaimed
  ∧ stockOf partFulfilled "S1" "A" = 3
  ∧ accepted.1 = succeeded (Some ["A"; "B"])
  ∧ accepted.2 ≠ partFulfilled
  ∧ claimStatusOf accepted.2 "ORD-1" "A" = Some claimed
  ∧ claimStatusOf accepted.2 "ORD-1" "B" = Some claimed
  ∧ assignedSellerId <$> getOrderById accepted.2 "ORD-1" = Some (Some "S1")
  ∧ success refulfilled.1 = true
  ∧ stockOf refulfilled.2 "S1" "A" = 1.
Proof.
  cbv zeta.
  split; [vm_compute; reflexivity|]. split; [vm_compute; reflexivity|].
  split; [vm_compute; reflexivity|]. split; [vm_compute; reflexivity|].
  split; [vm_compute; reflexivity|]. split; [vm_compute; reflexivity|].
  split; [vm_compute; reflexivity|].
  split.
  { intros H.
    apply (f_equal (fun w => claimStatusOf w "ORD-1" "A")) in H.
    vm_compute in H. discriminate. }
  split; [vm_compute; reflexivity|]. split; [vm_compute; reflexivity|].
  split; [vm_compute; reflexivity|]. split; vm_compute; reflexivity.
Qed.

(** ** Mutating the claim that [find] returned *)

Section FoundClaim.

Implicit Types (claims : list OrderItemClaim) (bid : string)
  (f : OrderItemClaim → OrderItemClaim).

Lemma findClaim_Some claims bid c :
  findClaim claims bid = Some c → c ∈ claims ∧ blueprintId c = bid.
Proof.
  unfold findClaim. intros H. apply find_some in H as [Hin Heq].
  split; [by apply list_elem_of_In | by apply String.eqb_eq].
Qed.

Lemma updateFoundClaim_length claims bid f :
  length (updateFoundClaim bid f claims) = length claims.
Proof.
  induction claims as [|c rest IH]; simpl; [done|].
  destruct (String.eqb (blueprintId c) bid); simpl; by rewrite ?IH.
Qed.

Lemma updateFoundClaim_find claims bid f c :
  (∀ x, blueprintId (f x) = blueprintId x) →
  findClaim claims bid = Some c →
  findClaim (updateFoundClaim bid f claims) bid = Some (f c).
Proof.
  intros Hf. unfold findClaim.
  induction claims as [|x rest IH]; simpl; [done|].
  destruct (String.eqb (blueprintId x) bid) eqn:E; simpl.
  - rewrite Hf, E. by intros [= ->].
  - by rewrite E.
Qed.

Lemma updateFoundClaim_find_other claims bid f b :
  (∀ x, blueprintId (f x) = blueprintId x) → b ≠ bid →
  findClaim (updateFoundClaim bid f claims) b = findClaim claims b.
Proof.
  intros Hf Hne. unfold findClaim.
  induction claims as [|x rest IH]; simpl; [done|].
  destruct (String.eqb_spec (blueprintId x) bid) as [Hx|Hx]; simpl.
  - rewrite Hf. destruct (String.eqb_spec (blueprintId x) b); [congruence|done].
  - by rewrite IH.
Qed.

Lemma updateFoundClaim_keeps claims bid f c :
  c ∈ claims → blueprintId c ≠ bid → c ∈ updateFoundClaim bid f claims.
Proof.
  intros Hc Hne. induction claims as [|x rest IH]; simpl; [done|].
  apply elem_of_cons in Hc as [<-|Hc].
  - destruct (String.eqb_spec (blueprintId c) bid); [done | left].
  - destruct (String.eqb (blueprintId x) bid); right; [done | by apply IH].
Qed.

Lemma updateFoundClaim_elem claims bid f c' :
  c' ∈ updateFoundClaim bid f claims →
  c' ∈ claims ∨ ∃ c, findClaim claims bid = Some c ∧ c' = f c.
Proof.
  unfold findClaim. induction claims as [|x rest IH]; simpl; [by left|].
  destruct (String.eqb (blueprintId x) bid) eqn:E.
  - intros [->|H]%elem_of_cons; [right; by eexists | left; by right].
  - intros [->|H]%elem_of_cons; [left; by left|].
    destruct (IH H) as [?|?]; [left; by right | by right].
Qed.

(** Position by position: the found claim is transformed, the rest stay. *)
Lemma updateFoundClaim_lookup claims bid f i c :
  claims !! i = Some c →
  updateFoundClaim bid f claims !! i = Some c
  ∨ (findClaim claims bid = Some c ∧ updateFoundClaim bid f claims !! i = Some (f c)).
Proof.
  unfold findClaim. revert i. induction claims as [|x rest IH]; intros i; simpl; [done|].
  destruct (String.eqb (blueprintId x) bid) eqn:E.
  - destruct i as [|i]; simpl; [intros [= ->]; by right | by left].
  - destruct i as [|i]; simpl; [by left | apply IH].
Qed.

Lemma existsb_false {A} (p : A → bool) (l : list A) :
  existsb p l = false ↔ ∀ x, x ∈ l → p x = false.
Proof.
  induction l as [|a l IH]; simpl.
  - split; [intros _ x Hx; by apply elem_of_nil in Hx | done].
  - rewrite orb_false_iff, IH. split.
    + intros [Ha Hl] x [->|Hx]%elem_of_cons; auto.
    + intros H. split; [apply H; left | intros x Hx; apply H; by right].
Qed.

End FoundClaim.

(** ** Releasing a claim *)

(** C7.  On an order that is neither closed nor cancelled, releasing an item
    that the calling seller holds and has not fulfilled succeeds: the item
    becomes unclaimed with no claiming seller, claimed quantity or claim time,
    every other item is kept; if the seller was the whole-order assignee and
    holds no other item that is not unclaimed, the assignee and the assignment
    time are cleared (otherwise they are kept); and if no item is left that is
    not unclaimed, the status becomes open (otherwise it is kept). *)
Theorem releaseOrderItem_effect
  (w : World) (oid sellerId bid : string)
  (order : StoredOrder) (claim : OrderItemClaim) :
  ordersOk w →
  getOrderById w oid = Some order →
  status order ≠ closed → status order ≠ cancelled →
  findClaim (itemClaims order) bid = Some claim →
  claimedBySellerId claim = Some sellerId →
  claimStatus claim ≠ fulfilled →
  ∃ order' claim',
    releaseOrderItem w oid sellerId bid
    = (succeeded (Some [bid]), updateOrder w order')
    ∧ getOrderById (updateOrder w order') oid = Some order'
    ∧ sellersDir (updateOrder w order') = sellersDir w
    ∧ itemClaims order' = updateFoundClaim bid markReleased (itemClaims order)
    ∧ findClaim (itemClaims order') bid = Some claim'
    ∧ claimStatus claim' = unclaimed
    ∧ claimedBySellerId claim' = None
    ∧ claimedQuantity claim' = None
    ∧ claimedAt claim' = None
    ∧ blueprintId claim' = blueprintId claim
    ∧ requestedQty claim' = requestedQty claim
    ∧ (∀ c, c ∈ itemClaims order → blueprintId c ≠ bid →
            c ∈ itemClaims order')
    ∧ (let lastOfAssignee :=
         assignedSellerId order = Some sellerId
         ∧ ∀ c, c ∈ itemClaims order' →
                claimedBySellerId c = Some sellerId →
                claimStatus c = unclaimed in
       (lastOfAssignee →
        assignedSellerId order' = None ∧ assignedAt order' = None)
       ∧ (¬ lastOfAssignee →
          assignedSellerId order' = assignedSellerId order
          ∧ assignedAt order' = assignedAt order))
    ∧ (let noneLeft :=
         ∀ c, c ∈ itemClaims order' → claimStatus c = unclaimed in
       (noneLeft → status order' = open)
       ∧ (¬ noneLeft → status order' = status order)).
Proof.
  intros Hok Hget Hnc Hnx Hfind Hmine Hnf.
  unfold releaseOrderItem. rewrite Hget.
  assert (isClosedOrCancelled (status order) = false) as ->.
  { destruct (isClosedOrCancelled (status order)) eqn:E; [|done].
    apply isClosedOrCancelled_true in E as [?|?]; done. }
  rewrite Hfind.
  assert (isSeller (claimedBySellerId claim) sellerId = true) as ->
    by by apply isSeller_true.
  rewrite bool_decide_eq_false_2 by done. cbn [negb].
  set (claims := updateFoundClaim bid markReleased (itemClaims order)).
  set (still :=
         existsb (fun c => isSeller (claimedBySellerId c) sellerId
                           && negb (bool_decide (claimStatus c = unclaimed)))
                 claims).
  set (any :=
         existsb (fun c => negb (bool_decide (claimStatus c = unclaimed)))
                 claims).
  eexists _, (markReleased claim).
  split; [reflexivity|].
  split; [by apply (getOrderById_updateOrder w oid order)|].
  split; [done|]. split; [done|].
  split; [by apply updateFoundClaim_find|].
  do 6 (split; [done|]).
  split; [intros c Hc Hne; by apply updateFoundClaim_keeps|].
  cbn [itemClaims assignedSellerId assignedAt status setClaimState].
  fold claims. cbn zeta. split.
  - destruct (isSeller (assignedSellerId order) sellerId) eqn:Has.
    + destruct still eqn:Hstill; cbn [negb andb].
      * split; [|done]. intros [_ Hall]. exfalso.
        subst still. apply existsb_exists in Hstill as (c & Hc & Hcs).
        apply list_elem_of_In in Hc.
        apply andb_true_iff in Hcs as [Hcm Hcu].
        apply isSeller_true in Hcm.
        rewrite (Hall c Hc Hcm) in Hcu. by vm_compute in Hcu.
      * split; [done|]. intros Hn. exfalso. apply Hn.
        split; [by apply isSeller_true|].
        intros c Hc Hcm. subst still.
        pose proof (proj1 (existsb_false _ _) Hstill c Hc) as Hf.
        cbn beta in Hf. apply isSeller_true in Hcm. rewrite Hcm in Hf.
        cbn [andb] in Hf. apply negb_false_iff, bool_decide_eq_true in Hf. done.
    + cbn [andb]. split; [|done]. intros [Ha _].
      apply isSeller_true in Ha. congruence.
  - destruct any eqn:Hany.
    + split; [|done]. intros Hall. exfalso.
      subst any. apply existsb_exists in Hany as (c & Hc & Hcu).
      apply list_elem_of_In in Hc. rewrite (Hall c Hc) in Hcu.
      by vm_compute in Hcu.
    + split; [done|]. intros Hn. exfalso. apply Hn. intros c Hc. subst any.
      pose proof (proj1 (existsb_false _ _) Hany c Hc) as Hf.
      cbn beta in Hf. by apply negb_false_iff, bool_decide_eq_true in Hf.
Qed.

Lemma releaseOrderItem_effect_witness :
  ordersOk acceptedWorld
  ∧ getOrderById acceptedWorld "ORD-1" = Some acceptedOrder
  ∧ status acceptedOrder = in_progress
  ∧ findClaim (itemClaims acceptedOrder) "A" = Some acceptedClaim
  ∧ claimedBySellerId acceptedClaim = Some "S1"
  ∧ claimStatus acceptedClaim = claimed
  ∧ ∃ order' claim',
      releaseOrderItem acceptedWorld "ORD-1" "S1" "A"
      = (succeeded (Some ["A"]), updateOrder acceptedWorld order')
      ∧ findClaim (itemClaims order') "A" = Some claim'
      ∧ claimStatus claim' = unclaimed
      ∧ claimedBySellerId claim' = None
      ∧ claimedQuantity claim' = None
      ∧ claimedAt claim' = None
      ∧ assignedSellerId order' = None
      ∧ assignedAt order' = None
      ∧ status order' = open.
Proof.
  assert (H1 : getOrderById acceptedWorld "ORD-1" = Some acceptedOrder)
    by (vm_compute; reflexivity).
  assert (H2 : status acceptedOrder = in_progress) by (vm_compute; reflexivity).
  assert (H3 : findClaim (itemClaims acceptedOrder) "A" = Some acceptedClaim)
    by (vm_compute; reflexivity).
  assert (H4 : claimedBySellerId acceptedClaim = Some "S1")
    by (vm_compute; reflexivity).
  assert (H5 : claimStatus acceptedClaim = claimed) by (vm_compute; reflexivity).
  split; [exact acceptedWorld_ok|]. do 5 (split; [assumption|]).
  destruct (releaseOrderItem_effect acceptedWorld "ORD-1" "S1" "A"
              acceptedOrder acceptedClaim acceptedWorld_ok H1)
    as (order' & claim' & Hrel & _ & _ & Hclaims & Hfind & Hu & Hby & Hq & Hat
        & _ & _ & _ & Hassign & Hstatus);
    [rewrite H2; discriminate | rewrite H2; discriminate | exact H3 | exact H4
    | rewrite H5; discriminate |].
  exists order', claim'.
  assert (Hall : ∀ c, c ∈ itemClaims order' → claimStatus c = unclaimed).
  { rewrite Hclaims. intros c Hc. vm_compute in Hc.
    apply list_elem_of_singleton in Hc. by subst c. }
  destruct Hassign as [Hclear _]. destruct Hstatus as [Hopen _].
  destruct Hclear as [Hcl1 Hcl2].
  { split; [vm_compute; reflexivity | intros c Hc _; by apply Hall]. }
  repeat split; try assumption. by apply Hopen.
Defined.

(** ** Fulfilling an item *)

Section FulfillItem.

Implicit Types (w : World).

(** The successful path of [fulfillOrderItem], spelled out. *)
Lemma fulfillOrderItem_success w oid sellerId bid now :
  success (fulfillOrderItem w oid sellerId bid now).1 = true →
  ∃ order claim seller,
    getOrderById w oid = Some order
    ∧ findClaim (itemClaims order) bid = Some claim
    ∧ claimedBySellerId claim = Some sellerId
    ∧ claimStatus claim ≠ fulfilled
    ∧ getSellerById (sellersDir w) sellerId = Some seller
    ∧ (quantityToFulfill claim
       <= inject_Z (getSellerBlueprintQuantity (sellersDir w) sellerId bid))%Q
    ∧ fulfillOrderItem w oid sellerId bid now
      = (succeeded (Some [bid]),
         updateOrder
           (withSellers w
              (updateSellerInventoryItem (sellersDir w) sellerId bid
                 (Number.sub
                    (inject_Z
                       (getSellerBlueprintQuantity (sellersDir w) sellerId bid))
                    (quantityToFulfill claim)) now).2)
           (let claims := updateFoundClaim bid (markFulfilled now)
                            (itemClaims order) in
            setClaimState order
              (if allFulfilled claims then completed else status order)
              (assignedSellerId order) (assignedSellerDiscordId order)
              (assignedAt order) claims)).
Proof.
  unfold fulfillOrderItem.
  destruct (getOrderById w oid) as [order|]; [|discriminate].
  destruct (findClaim (itemClaims order) bid) as [claim|] eqn:Hfind;
    [|discriminate].
  destruct (isSeller (claimedBySellerId claim) sellerId) eqn:Hm;
    [|discriminate]. cbn [negb].
  destruct (bool_decide (claimStatus claim = fulfilled)) eqn:Hf;
    [discriminate|].
  destruct (Number.ltb _ (quantityToFulfill claim)) eqn:Hq; [discriminate|].
  unfold updateSellerInventoryItem.
  destruct (getSellerById (sellersDir w) sellerId) as [seller|] eqn:Hs;
    [|discriminate].
  cbn [negb fst snd]. intros _. exists order, claim, seller.
  apply isSeller_true in Hm. apply bool_decide_eq_false in Hf.
  apply ltb_ge in Hq. repeat split; done.
Qed.

(** A failed call changes nothing. *)
Lemma fulfillOrderItem_failure w oid sellerId bid now :
  success (fulfillOrderItem w oid sellerId bid now).1 = false →
  (fulfillOrderItem w oid sellerId bid now).2 = w.
Proof.
  unfold fulfillOrderItem.
  destruct (getOrderById w oid) as [order|]; [|done].
  destruct (findClaim (itemClaims order) bid) as [claim|]; [|done].
  destruct (isSeller (claimedBySellerId claim) sellerId); [|done]. cbn [negb].
  destruct (bool_decide (claimStatus claim = fulfilled)); [done|].
  destruct (Number.ltb _ _); [done|].
  unfold updateSellerInventoryItem.
  destruct (getSellerById (sellersDir w) sellerId); [discriminate|].
  intros _. apply withSellers_same.
Qed.

(** Whether the call succeeds does not depend on the time of the call. *)
Lemma fulfillOrderItem_success_time w oid sellerId bid now now' :
  success (fulfillOrderItem w oid sellerId bid now).1
  = success (fulfillOrderItem w oid sellerId bid now').1.
Proof.
  unfold fulfillOrderItem.
  destruct (getOrderById w oid) as [order|]; [|done].
  destruct (findClaim (itemClaims order) bid) as [claim|]; [|done].
  destruct (isSeller (claimedBySellerId claim) sellerId); [|done]. cbn [negb].
  destruct (bool_decide (claimStatus claim = fulfilled)); [done|].
  destruct (Number.ltb _ _); [done|].
  unfold updateSellerInventoryItem.
  by destruct (getSellerById (sellersDir w) sellerId).
Qed.

Lemma quantityToFulfill_claimed (c : OrderItemClaim) (q : Q) :
  claimedQuantity c = Some q → ¬ (q == 0)%Q → quantityToFulfill c = q.
Proof.
  unfold quantityToFulfill. intros -> Hq.
  destruct (Number.isZero q) eqn:E; [|done]. by apply isZero_true in E.
Qed.

End FulfillItem.

(** C4.  Two calls of [fulfillOrderItem] in a row for the same item debit
    the seller's inventory at most once.  If the first call succeeds, the
    stock of the item covered the claimed quantity and is now the difference
    of the two, rounded down (the stock less the claimed quantity when that
    is an integer and the stock has at most 53 bits), the item is stored as
    fulfilled, and the second call fails with the error "item already
    fulfilled" and changes nothing.  If the first call fails, nothing has
    changed and the second call fails as well. *)
Theorem fulfillOrderItem_twice
  (w : World) (oid sellerId bid now1 now2 : string) :
  ordersOk w →
  (∀ seller, getSellerById (sellersDir w) sellerId = Some seller →
             inventoryOk (seller_inventory seller)) →
  let r1 := (fulfillOrderItem w oid sellerId bid now1).1 in
  let w1 := (fulfillOrderItem w oid sellerId bid now1).2 in
  let r2 := (fulfillOrderItem w1 oid sellerId bid now2).1 in
  let w2 := (fulfillOrderItem w1 oid sellerId bid now2).2 in
  (success r1 = true →
   ∃ order claim order1 claim1,
     getOrderById w oid = Some order
     ∧ findClaim (itemClaims order) bid = Some claim
     ∧ (quantityToFulfill claim
        <= inject_Z (getSellerBlueprintQuantity (sellersDir w) sellerId bid))%Q
     ∧ getSellerBlueprintQuantity (sellersDir w1) sellerId bid
       = debited (getSellerBlueprintQuantity (sellersDir w) sellerId bid)
           (quantityToFulfill claim)
     ∧ (∀ n : Z,
          (quantityToFulfill claim == inject_Z n)%Q → 0 ≤ n →
          getSellerBlueprintQuantity (sellersDir w) sellerId bid ≤ 2 ^ 53 →
          getSellerBlueprintQuantity (sellersDir w1) sellerId bid
          = getSellerBlueprintQuantity (sellersDir w) sellerId bid - n)
     ∧ (∀ q, claimedQuantity claim = Some q → ¬ (q == 0)%Q →
             quantityToFulfill claim = q)
     ∧ getOrderById w1 oid = Some order1
     ∧ findClaim (itemClaims order1) bid = Some claim1
     ∧ claimStatus claim1 = fulfilled
     ∧ r2 = failure ItemAlreadyFulfilled
     ∧ w2 = w1)
  ∧ (success r1 = false → w1 = w ∧ success r2 = false ∧ w2 = w).
Proof.
  intros Hok Hinv. cbn zeta. split.
  - intros Hsucc.
    destruct (fulfillOrderItem_success _ _ _ _ _ Hsucc)
      as (order & claim & seller & Hget & Hfind & Hmine & Hnf & Hs & Hq & Heq).
    rewrite Heq. cbn [fst snd].
    set (dir' := (updateSellerInventoryItem _ _ _ _ _).2).
    set (order1 := setClaimState _ _ _ _ _ _).
    assert (Hget1 : getOrderById (updateOrder (withSellers w dir') order1) oid
                    = Some order1)
      by by apply (getOrderById_updateOrder (withSellers w dir') oid order).
    assert (Hfind1 : findClaim (itemClaims order1) bid
                     = Some (markFulfilled now1 claim))
      by by apply updateFoundClaim_find.
    assert (Hstock : getSellerBlueprintQuantity dir' sellerId bid
                     = debited
                         (getSellerBlueprintQuantity (sellersDir w) sellerId bid)
                         (quantityToFulfill claim)).
    { subst dir'.
      by rewrite (getQuantity_after_update _ _ _ _ _ seller Hs (Hinv _ Hs)). }
    exists order, claim, order1, (markFulfilled now1 claim).
    split; [done|]. split; [done|]. split; [done|].
    split; [exact Hstock|].
    split.
    { intros n Hn Hpos Hbound. cbn [sellersDir updateOrder withSellers].
      rewrite Hstock. apply debited_integer; [done| |done].
      split; [done|]. rewrite Hn in Hq. by rewrite Zle_Qle. }
    split; [apply quantityToFulfill_claimed|].
    split; [done|]. split; [done|]. split; [done|].
    unfold fulfillOrderItem at 1 2. rewrite Hget1, Hfind1.
    cbn [claimedBySellerId claimStatus markFulfilled].
    assert (isSeller (claimedBySellerId claim) sellerId = true) as ->
      by by apply isSeller_true.
    done.
  - intros Hfail. pose proof (fulfillOrderItem_failure _ _ _ _ _ Hfail) as Hw.
    rewrite Hw. split; [done|].
    rewrite (fulfillOrderItem_success_time w oid sellerId bid now2 now1).
    split; [done|]. apply fulfillOrderItem_failure.
    by rewrite (fulfillOrderItem_success_time w oid sellerId bid now2 now1).
Qed.

Lemma fulfillOrderItem_twice_witness :
  ordersOk acceptedWorld
  ∧ (∀ seller, getSellerById (sellersDir acceptedWorld) "S1" = Some seller →
               inventoryOk (seller_inventory seller))
  ∧ let w1 := (fulfillOrderItem acceptedWorld "ORD-1" "S1" "A" "t3").2 in
    success (fulfillOrderItem acceptedWorld "ORD-1" "S1" "A" "t3").1 = true
    ∧ stockOf acceptedWorld "S1" "A" = 6
    ∧ stockOf w1 "S1" "A" = 3
    ∧ fulfillOrderItem w1 "ORD-1" "S1" "A" "t4"
      = (failure ItemAlreadyFulfilled, w1).
Proof.
  assert (Hinv : ∀ seller,
            getSellerById (sellersDir acceptedWorld) "S1" = Some seller →
            inventoryOk (seller_inventory seller)).
  { intros seller H. vm_compute in H. injection H as <-.
    apply (bool_decide_unpack _). vm_compute. exact I. }
  split; [exact acceptedWorld_ok|]. split; [exact Hinv|]. cbn zeta.
  assert (Hsucc : success (fulfillOrderItem acceptedWorld "ORD-1" "S1" "A"
                             "t3").1 = true) by (vm_compute; reflexivity).
  destruct (fulfillOrderItem_twice acceptedWorld "ORD-1" "S1" "A" "t3" "t4"
              acceptedWorld_ok Hinv) as [Hfirst _].
  destruct (Hfirst Hsucc)
    as (order & claim & order1 & claim1
        & _ & _ & _ & _ & _ & _ & _ & _ & _ & Hr & Hw).
  split; [exact Hsucc|]. split; [vm_compute; reflexivity|].
  split; [vm_compute; reflexivity|].
  rewrite (surjective_pairing (fulfillOrderItem _ "ORD-1" "S1" "A" "t4")).
  rewrite Hr, Hw. reflexivity.
Defined.

(** C4, as the claim states it, fails for a claimed quantity that is not an
    integer.  A request for one and a half of A passes the quantity test of
    [validateOrder]; the seller with five of A accepts it and fulfils the
    item, and the stock left is 3, not 5 less 3/2. *)
Lemma fulfil_fraction_rounds_stock_down :
  let r := fulfillOrderItem halfAccepted "ORD-1" "S1" "A" "t3" in
  quantityOutOfRange (3 # 2) = false
  ∧ claimedQuantity <$> claimOf halfAccepted "ORD-1" "A" = Some (Some (3 # 2))
  ∧ stockOf halfAccepted "S1" "A" = 5
  ∧ success r.1 = true
  ∧ claimStatusOf r.2 "ORD-1" "A" = Some fulfilled
  ∧ stockOf r.2 "S1" "A" = 3
  ∧ ¬ (inject_Z (stockOf r.2 "S1" "A")
       == inject_Z (stockOf halfAccepted "S1" "A") - (3 # 2))%Q.
Proof.
  cbv zeta. split; [vm_compute; reflexivity|].
  split; [vm_compute; reflexivity|]. split; [vm_compute; reflexivity|].
  split; [vm_compute; reflexivity|]. split; [vm_compute; reflexivity|].
  split; [vm_compute; reflexivity|]. vm_compute. discriminate.
Qed.

(** ** Seller views *)

Section SellerView.

Implicit Types (w : World) (dir : SellerDir) (claims : list OrderItemClaim).

Lemma viewLoop_items dir sellerId assignee claims :
  (viewLoop dir sellerId assignee claims).1.1.1
  = map (viewItem dir sellerId)
        (List.filter (canSee dir sellerId assignee) claims).
Proof.
  induction claims as [|claim rest IH]; [done|].
  cbn [viewLoop List.filter].
  destruct (viewLoop dir sellerId assignee rest) as [[[items n] m] b].
  cbn [fst] in IH.
  destruct (canSee dir sellerId assignee claim); cbn [negb fst map];
    by rewrite IH.
Qed.



Lemma buildSellerOrderView_items w order sellerId sellerDiscordId :
  let visible :=
    List.filter (canSee (sellersDir w) sellerId
                   (isSeller (assignedSellerId order) sellerId))
                (itemClaims order) in
  match buildSellerOrderView w order sellerId sellerDiscordId with
  | Some v => v_items v = map (viewItem (sellersDir w) sellerId) visible
              ∧ v_items v ≠ []
  | None => visible = []
  end.
Proof.
  cbn zeta. unfold buildSellerOrderView.
  pose proof (viewLoop_items (sellersDir w) sellerId
                (isSeller (assignedSellerId order) sellerId)
                (itemClaims order)) as Hitems.
  destruct (viewLoop _ _ _ _) as [[[items n] m] b]. cbn [fst] in Hitems.
  destruct items as [|i items].
  - symmetry in Hitems. by apply map_eq_nil in Hitems.
  - cbn [v_items]. by split.
Qed.

Lemma buildSellerOrderView_nonempty w order sellerId sellerDiscordId v :
  buildSellerOrderView w order sellerId sellerDiscordId = Some v →
  v_items v ≠ [].
Proof.
  intros H.
  pose proof (buildSellerOrderView_items w order sellerId sellerDiscordId) as Hv.
  cbn zeta in Hv. rewrite H in Hv. by destruct Hv.
Qed.

(** The listing holds the records of the order files that carry an id. *)
Lemma elem_of_getAllOrders (getTime : string → Z) w order :
  order ∈ getAllOrders getTime w ↔
  (∃ key, ordersDir w !! key = Some order) ∧ orderId order ≠ "".
Proof.
  unfold getAllOrders.
  rewrite merge_sort_Permutation, list_elem_of_filter, list_elem_of_fmap.
  split.
  - intros (Hid & ([key o] & -> & Hin)).
    apply elem_of_map_to_list in Hin. split; [by exists key | done].
  - intros ([key Hkey] & Hid). split; [done|].
    exists (key, order). split; [done|]. by apply elem_of_map_to_list.
Qed.

End SellerView.


(** ** Order resolution *)

Section Resolution.

Variable localeCompare : string → string → Z.

(** [item?.quantity || 0] is the stock of the blueprint. *)
Lemma stocks_quantityOf inv b n :
  stocks inv b n ↔ quantityOf inv b = n.
Proof.
  assert (Hor : ∀ item, quantityOrZero (Some item) = inv_quantity item).
  { intros item. cbn. destruct (inv_quantity item =? 0) eqn:E; [lia|done]. }
  unfold quantityOf. split.
  - intros [pre item post -> Hpre Hid | Hnone].
    + assert (findInventoryItem (pre ++ item :: post) b = Some item) as ->;
        [|apply Hor].
      unfold findInventoryItem.
      induction pre as [|i pre IH]; cbn [app List.find map] in *.
      * by rewrite Hid, eqb_refl_true.
      * apply not_elem_of_cons in Hpre as [Hi Hpre].
        destruct (String.eqb_spec (inv_blueprintId i) b); [congruence|].
        by apply IH.
    + apply findInventoryItem_None in Hnone. by rewrite Hnone.
  - revert n. induction inv as [|i inv IH]; intros n.
    + intros <-. apply stocks_none, not_elem_of_nil.
    + unfold findInventoryItem. cbn [List.find].
      destruct (String.eqb_spec (inv_blueprintId i) b) as [Hb|Hb].
      * rewrite Hor. intros <-.
        by apply (stocks_entry (i :: inv) b [] i inv);
          [|apply not_elem_of_nil|].
      * intros Hn. destruct (IH n Hn) as [pre item post -> Hpre Hid | Hnone].
        -- apply (stocks_entry _ b (i :: pre) item post); [done| |done].
           cbn [map]. by apply not_elem_of_cons.
        -- apply stocks_none. cbn [map]. by apply not_elem_of_cons.
Qed.

(** In a well-formed inventory every entry is the first, and so the only
    one, of its blueprint. *)
Lemma stocks_elem_of inv item :
  inventoryOk inv → item ∈ inv →
  stocks inv (inv_blueprintId item) (inv_quantity item).
Proof.
  unfold inventoryOk. intros Hok Hin.
  apply list_elem_of_split in Hin as (pre & post & ->).
  apply (stocks_entry _ _ pre item post); [done| |done].
  rewrite map_app in Hok. cbn [map] in Hok.
  apply NoDup_app in Hok as (_ & Hdisj & _).
  intros Hpre. apply (Hdisj _ Hpre). left.
Qed.

Lemma canFulfillAll_covers seller items :
  canFulfillAll seller items = true ↔ covers seller items.
Proof.
  unfold covers. induction items as [|[b q] rest IH]; simpl.
  - split; [intros _ b q H; by apply elem_of_nil in H | done].
  - fold (quantityOf (seller_inventory seller) b).
    destruct (Number.ltb (inject_Z (quantityOf (seller_inventory seller) b)) q)
      eqn:E.
    + apply ltb_lt in E. split; [done|]. intros H.
      destruct (H b q ltac:(left)) as (n & Hn & Hq).
      apply stocks_quantityOf in Hn. subst n. by apply Qlt_not_le in E.
    + apply ltb_ge in E. rewrite IH. split.
      * intros H b' q' [[= -> ->]|Hin]%elem_of_cons; [|by apply H].
        eexists. split; [by apply stocks_quantityOf | done].
      * intros H b' q' Hin. apply H. by right.
Qed.

Lemma requiresMultipleSellersLoop_true sellers items :
  requiresMultipleSellersLoop sellers items = true ↔
  ¬ ∃ seller, seller ∈ sellers ∧ covers seller items.
Proof.
  induction sellers as [|s rest IH]; simpl.
  - split; [|done]. intros _ (s & Hs & _). by apply elem_of_nil in Hs.
  - destruct (canFulfillAll s items) eqn:E.
    + split; [done|]. intros H. exfalso. apply H. exists s.
      split; [left | by apply canFulfillAll_covers].
    + rewrite IH. split.
      * intros H (s' & [->|Hs']%elem_of_cons & Hc).
        -- apply canFulfillAll_covers in Hc. congruence.
        -- apply H. by exists s'.
      * intros H (s' & Hs' & Hc). apply H. exists s'. split; [by right | done].
Qed.

(** The active sellers are the records of the directory that carry an id
    and a Discord id and whose status is active. *)
Lemma elem_of_getActiveSellers dir seller :
  seller ∈ getActiveSellers localeCompare dir ↔
  (∃ key, dir !! key = Some seller)
  ∧ seller_id seller ≠ "" ∧ seller_discordId seller ≠ ""
  ∧ seller_status seller = active.
Proof.
  unfold getActiveSellers, getAllSellers.
  rewrite list_elem_of_filter, merge_sort_Permutation, list_elem_of_filter,
    list_elem_of_fmap.
  split.
  - intros (Hact & [Hid Hdid] & ([key s] & -> & Hin)).
    apply elem_of_map_to_list in Hin. split; [by exists key | done].
  - intros ([key Hkey] & Hid & Hdid & Hact). split; [done|]. split; [done|].
    exists (key, seller). split; [done|]. by apply elem_of_map_to_list.
Qed.

End Resolution.

(** C6.  [requiresMultipleSellers] answers true exactly when no active seller
    covers every requested item at its requested quantity, the stock of an
    item being the quantity stored in the seller's inventory entry for it;
    in particular a single item of which an active seller stores enough
    yields false, however many sellers stock it.  [processOrder] records
    the answer, shows the fixed disclosure as the offer when the answer is
    true and the buyer's trimmed offer otherwise, and always keeps the
    buyer's trimmed offer as the original offer. *)
Theorem multi_seller_resolution
  (localeCompare : string → string → Z) (trim : string → string)
  (catalogName : string → option string) (dir : SellerDir) :
  (∀ items,
     requiresMultipleSellers localeCompare dir items = true ↔
     ¬ ∃ seller, seller ∈ getActiveSellers localeCompare dir
                 ∧ covers seller items)
  ∧ (∀ seller item q,
       seller ∈ getActiveSellers localeCompare dir →
       inventoryOk (seller_inventory seller) →
       item ∈ seller_inventory seller →
       (q <= inject_Z (inv_quantity item))%Q →
       requiresMultipleSellers localeCompare dir [(inv_blueprintId item, q)]
       = false)
  ∧ (∀ seller,
       seller ∈ getActiveSellers localeCompare dir ↔
       (∃ key, dir !! key = Some seller)
       ∧ seller_id seller ≠ "" ∧ seller_discordId seller ≠ ""
       ∧ seller_status seller = active)
  ∧ (∀ order oid createdAt,
       let p := processOrder localeCompare trim catalogName dir order
                  oid createdAt in
       let multi :=
         requiresMultipleSellers localeCompare dir
           (map (fun item => (oi_id item, oi_quantity item))
                (req_items order)) in
       po_isMultiSeller p = multi
       ∧ po_originalOffer p = trim (req_offer order)
       ∧ po_offer p = (if multi then MULTI_SELLER_OFFER_MESSAGE
                       else po_originalOffer p)).
Proof.
  split; [|split; [|split]].
  - intros items. apply requiresMultipleSellersLoop_true.
  - intros seller item q Hact Hok Hin Hq.
    apply not_true_is_false. intros Hmulti.
    apply requiresMultipleSellersLoop_true in Hmulti. apply Hmulti.
    exists seller. split; [done|].
    intros b q' [= -> ->]%list_elem_of_singleton.
    exists (inv_quantity item). split; [by apply stocks_elem_of | done].
  - apply elem_of_getActiveSellers.
  - intros order oid createdAt. cbn zeta. by unfold processOrder.
Qed.

(** Two sellers store three and four of A: a request for three of A needs
    one seller only.  Two sellers store two of A and two of B: a request
    for two of each needs both. *)
Lemma multi_seller_resolution_witness :
  requiresMultipleSellers demoCompare sharedStock [("A", 3%Q)] = false
  ∧ requiresMultipleSellers demoCompare splitStock [("A", 2%Q); ("B", 2%Q)]
    = true.
Proof.
  destruct (multi_seller_resolution demoCompare (fun s => s) (fun _ => None)
              sharedStock) as (_ & Hone & Hact & _).
  destruct (multi_seller_resolution demoCompare (fun s => s) (fun _ => None)
              splitStock) as (Hiff & _ & Hact' & _).
  split.
  - apply (Hone (sellerWith "S1" "alice" [mkInventoryItem "A" 3])
             (mkInventoryItem "A" 3) 3%Q).
    + apply Hact. split; [exists "S1"; vm_compute; reflexivity|].
      split; [discriminate|]. split; [discriminate | reflexivity].
    + apply (bool_decide_unpack _). vm_compute. exact I.
    + left.
    + vm_compute. discriminate.
  - apply Hiff. intros (seller & Hin & Hcov).
    apply Hact' in Hin as ([key Hkey] & _).
    destruct (Hcov "A" 2%Q ltac:(left)) as (na & Hna & Hqa).
    destruct (Hcov "B" 2%Q ltac:(right; left)) as (nb & Hnb & Hqb).
    apply stocks_quantityOf in Hna, Hnb. subst na nb.
    unfold splitStock in Hkey.
    apply lookup_insert_Some in Hkey as [[_ <-]|[_ Hkey]].
    + vm_compute in Hqb. by apply Hqb.
    + apply lookup_insert_Some in Hkey as [[_ <-]|[_ Hkey]].
      * vm_compute in Hqa. by apply Hqa.
      * by rewrite lookup_empty in Hkey.
Defined.

(** ** What the claim engine keeps *)

Section EngineInvariants.

Implicit Types (w : World).

Variable updateInventory :
  SellerDir → string → string → Q → string → bool * SellerDir.














End EngineInvariants.

(** *** Fulfilled items under the other operations *)

Section Fulfilled.

Implicit Types (w : World) (claims : list OrderItemClaim).

Variable updateInventory :
  SellerDir → string → string → Q → string → bool * SellerDir.

Lemma keepsFulfilled_same w w' :
  ordersDir w' = ordersDir w → keepsFulfilled w w'.
Proof. intros Heq key order i c Hk Hi _. rewrite Heq. by exists order. Qed.

Lemma keepsFulfilled_update w dir oid order order' :
  ordersOk w → getOrderById w oid = Some order →
  orderId order' = orderId order →
  (∀ i c, itemClaims order !! i = Some c → claimStatus c = fulfilled →
          itemClaims order' !! i = Some c) →
  keepsFulfilled w (updateOrder (withSellers w dir) order').
Proof.
  intros Hok Hget Hid Hkeep key o i c Hk Hi Hf.
  cbn [updateOrder withSellers ordersDir].
  rewrite Hid, (getOrderById_key _ _ _ Hok Hget).
  destruct (decide (key = getOrderFilePath oid)) as [->|Hne].
  - rewrite lookup_insert_eq. exists order'. split; [done|].
    unfold getOrderById in Hget. rewrite Hget in Hk. injection Hk as <-.
    by apply Hkeep.
  - rewrite lookup_insert_ne by done. by exists o.
Qed.

Lemma updateFoundClaim_keeps_fulfilled claims bid f found i c :
  findClaim claims bid = Some found → claimStatus found ≠ fulfilled →
  claims !! i = Some c → claimStatus c = fulfilled →
  updateFoundClaim bid f claims !! i = Some c.
Proof.
  intros Hfound Hnf Hi Hf.
  destruct (updateFoundClaim_lookup claims bid f i c Hi) as [H|[H _]]; [done|].
  congruence.
Qed.

(** The second pass of fulfil-all, when it runs to the end, fulfils the
    seller's claimed items and keeps every other claim. *)
Lemma fulfillPass_claims dir sellerId now claims dir' claims' ids :
  fulfillPass updateInventory dir sellerId now claims
  = (None, dir', claims', ids) →
  claims' = map (fun c => if toFulfill sellerId c then markFulfilled now c
                          else c) claims.
Proof.
  revert dir dir' claims' ids.
  induction claims as [|claim rest IH]; intros dir dir' claims' ids;
    cbn [fulfillPass map].
  - by intros [= _ <- _].
  - destruct (toFulfill sellerId claim).
    + destruct (updateInventory dir sellerId (blueprintId claim) _ now)
        as [[] dir1]; cbn [negb]; [|discriminate].
      destruct (fulfillPass updateInventory dir1 sellerId now rest)
        as [[[err dir2] rest'] ids'] eqn:E.
      intros [= -> <- <- <-]. f_equal. by eapply IH.
    + destruct (fulfillPass updateInventory dir sellerId now rest)
        as [[[err dir2] rest'] ids'] eqn:E.
      intros [= -> <- <- <-]. f_equal. by eapply IH.
Qed.

Lemma toFulfill_fulfilled sellerId c :
  claimStatus c = fulfilled → toFulfill sellerId c = false.
Proof.
  unfold toFulfill. intros ->. rewrite bool_decide_eq_false_2 by done.
  apply andb_false_r.
Qed.

Lemma fulfillOrderItem_keepsFulfilled w oid sellerId bid now :
  ordersOk w →
  keepsFulfilled w (fulfillOrderItem w oid sellerId bid now).2.
Proof.
  intros Hok.
  destruct (success (fulfillOrderItem w oid sellerId bid now).1) eqn:Hs.
  - destruct (fulfillOrderItem_success _ _ _ _ _ Hs)
      as (order & claim & seller & Hget & Hfind & _ & Hnf & _ & _ & ->).
    cbn [snd]. apply (keepsFulfilled_update w _ oid order); try done.
    intros i c Hi Hf. cbn [itemClaims setClaimState].
    by apply (updateFoundClaim_keeps_fulfilled _ _ _ claim).
  - rewrite (fulfillOrderItem_failure _ _ _ _ _ Hs).
    by apply keepsFulfilled_same.
Qed.

Lemma fulfillAllClaimedItemsWith_keepsFulfilled w oid sellerId now :
  ordersOk w →
  keepsFulfilled w
    (fulfillAllClaimedItemsWith updateInventory w oid sellerId now).2.
Proof.
  intros Hok. unfold fulfillAllClaimedItemsWith.
  destruct (getOrderById w oid) as [order|] eqn:Hget;
    [|by apply keepsFulfilled_same].
  destruct (List.filter _ _); [by apply keepsFulfilled_same|].
  destruct (fulfillCheck _ _ _); [by apply keepsFulfilled_same|].
  destruct (fulfillPass updateInventory (sellersDir w) sellerId now
              (itemClaims order)) as [[[err dir'] claims'] ids] eqn:Hpass.
  destruct err as [e|]; [by apply keepsFulfilled_same|].
  cbn [snd]. apply (keepsFulfilled_update w _ oid order); try done.
  intros i c Hi Hf. cbn [itemClaims setClaimState].
  rewrite (fulfillPass_claims _ _ _ _ _ _ _ Hpass).
  rewrite list_lookup_fmap, Hi. cbn. by rewrite toFulfill_fulfilled.
Qed.

Lemma releaseOrderItem_keepsFulfilled w oid sellerId bid :
  ordersOk w →
  keepsFulfilled w (releaseOrderItem w oid sellerId bid).2.
Proof.
  intros Hok. unfold releaseOrderItem.
  destruct (getOrderById w oid) as [order|] eqn:Hget;
    [|by apply keepsFulfilled_same].
  destruct (isClosedOrCancelled _); [by apply keepsFulfilled_same|].
  destruct (findClaim _ _) as [claim|] eqn:Hfind;
    [|by apply keepsFulfilled_same].
  destruct (isSeller _ _); cbn [negb]; [|by apply keepsFulfilled_same].
  destruct (bool_decide (claimStatus claim = fulfilled)) eqn:Hnf;
    [by apply keepsFulfilled_same|].
  apply bool_decide_eq_false in Hnf. cbn [snd].
  rewrite <- (withSellers_same w) at 2.
  apply (keepsFulfilled_update w _ oid order); try done.
  intros i c Hi Hf. cbn [itemClaims setClaimState].
  by apply (updateFoundClaim_keeps_fulfilled _ _ _ claim).
Qed.

Lemma closeOrder_keepsFulfilled w oid sellerId isAdmin now :
  ordersOk w →
  keepsFulfilled w (closeOrder w oid sellerId isAdmin now).2.
Proof.
  intros Hok. unfold closeOrder.
  destruct (getOrderById w oid) as [order|] eqn:Hget;
    [|by apply keepsFulfilled_same].
  destruct isAdmin.
  { cbn [snd]. rewrite <- (withSellers_same w) at 2.
    by apply (keepsFulfilled_update w _ oid order). }
  destruct (isClosedOrCancelled _); [by apply keepsFulfilled_same|].
  destruct (isOrderClosedBySeller _ _); [by apply keepsFulfilled_same|].
  destruct (_ && _); [by apply keepsFulfilled_same|].
  destruct (List.filter _ _); [|by apply keepsFulfilled_same].
  cbn [snd]. rewrite <- (withSellers_same w) at 2.
  apply (keepsFulfilled_update w _ oid order); try done;
    by destruct (allFulfilled (itemClaims order)).
Qed.

Lemma cancelOrder_keepsFulfilled w oid now :
  ordersOk w → keepsFulfilled w (cancelOrder w oid now).2.
Proof.
  intros Hok. unfold cancelOrder.
  destruct (getOrderById w oid) as [order|] eqn:Hget;
    [|by apply keepsFulfilled_same].
  destruct (isClosedOrCancelled _); [by apply keepsFulfilled_same|].
  cbn [snd]. rewrite <- (withSellers_same w) at 2.
  by apply (keepsFulfilled_update w _ oid order).
Qed.

End Fulfilled.

(** C1 (fails on the code).  A fulfilled item does not stay fulfilled: after
    the seller has fulfilled item A, a further [acceptOrderFull] by the same
    seller succeeds and stores the item as claimed again, and so does
    [claimOrderItems] with the item named; the item can then be fulfilled a
    second time, which takes the stock from 6 to 0 for a request of 3. *)
Theorem fulfilled_item_claimed_again :
  let reaccepted := acceptOrderFull fulfilledWorld "ORD-1" "S1" "t4" in
  let reclaimed :=
    claimOrderItems fulfilledWorld "ORD-1" "S1" (Some ["A"]) "t4" in
  let refulfilled := fulfillOrderItem reaccepted.2 "ORD-1" "S1" "A" "t5" in
  claimStatusOf fulfilledWorld "ORD-1" "A" = Some fulfilled
  ∧ stockOf fulfilledWorld "S1" "A" = 3
  ∧ success reaccepted.1 = true
  ∧ claimStatusOf reaccepted.2 "ORD-1" "A" = Some claimed
  ∧ success reclaimed.1 = true
  ∧ claimStatusOf reclaimed.2 "ORD-1" "A" = Some claimed
  ∧ success refulfilled.1 = true
  ∧ stockOf refulfilled.2 "S1" "A" = 0.
Proof. vm_compute. done. Qed.

(** *** Closed and cancelled orders *)

(** The four operations that do check the order status reject a closed or
    cancelled order and change nothing. *)
Lemma closed_order_rejected
  (w : World) (oid sellerId bid now : string)
  (ids : option (list string)) (order : StoredOrder) :
  getOrderById w oid = Some order →
  status order = closed ∨ status order = cancelled →
  acceptOrderFull w oid sellerId now = (failure OrderAlreadyClosed, w)
  ∧ claimOrderItems w oid sellerId ids now = (failure OrderAlreadyClosed, w)
  ∧ releaseOrderItem w oid sellerId bid = (failure OrderAlreadyClosed, w)
  ∧ closeOrder w oid sellerId false now = (failure OrderAlreadyClosed, w).
Proof.
  intros Hget Hst. apply isClosedOrCancelled_true in Hst.
  unfold acceptOrderFull, claimOrderItems, releaseOrderItem, closeOrder.
  by rewrite Hget, Hst.
Qed.

(** C2 (fails on the code).  On a closed order [fulfillOrderItem] is not
    rejected: it succeeds, takes three of A from the seller's stock, stores
    the item as fulfilled and moves the order from closed to completed.
    [fulfillAllClaimedItems] does the same on a cancelled order. *)
Theorem closed_order_still_fulfillable :
  let one := fulfillOrderItem closedWorld "ORD-1" "S1" "A" "t4" in
  let all := fulfillAllClaimedItems cancelledWorld "ORD-1" "S1" "t4" in
  statusOf closedWorld "ORD-1" = Some closed
  ∧ stockOf closedWorld "S1" "A" = 6
  ∧ success one.1 = true
  ∧ stockOf one.2 "S1" "A" = 3
  ∧ claimStatusOf one.2 "ORD-1" "A" = Some fulfilled
  ∧ statusOf one.2 "ORD-1" = Some completed
  ∧ statusOf cancelledWorld "ORD-1" = Some cancelled
  ∧ success all.1 = true
  ∧ stockOf all.2 "S1" "A" = 3
  ∧ claimStatusOf all.2 "ORD-1" "A" = Some fulfilled
  ∧ statusOf all.2 "ORD-1" = Some completed.
Proof. vm_compute. done. Qed.

(** *** Fulfil-all: the inventory check and the failure paths *)

Section FulfillAllFacts.

Implicit Types (w : World) (claims : list OrderItemClaim).

Variable updateInventory :
  SellerDir → string → string → Q → string → bool * SellerDir.

(** The first pass passes exactly when the stock covers every item. *)
Lemma fulfillCheck_None dir sellerId claims :
  fulfillCheck dir sellerId claims = None ↔
  ∀ c, c ∈ claims →
       (quantityToFulfill c
        <= inject_Z (getSellerBlueprintQuantity dir sellerId
                       (blueprintId c)))%Q.
Proof.
  induction claims as [|claim rest IH]; cbn [fulfillCheck].
  - split; [intros _ c Hc; by apply elem_of_nil in Hc | done].
  - destruct (Number.ltb _ _) eqn:E.
    + apply ltb_lt in E. split; [done|]. intros H.
      specialize (H claim ltac:(left)). by apply Qlt_not_le in E.
    + apply ltb_ge in E. rewrite IH. split.
      * intros H c [->|Hc]%elem_of_cons; [done | by apply H].
      * intros H c Hc. apply H. by right.
Qed.

(** A shortfall found by the first pass stops the call before any write. *)
Lemma fulfillAll_check_fails w oid sellerId now order c :
  getOrderById w oid = Some order →
  c ∈ itemClaims order → toFulfill sellerId c = true →
  (inject_Z (getSellerBlueprintQuantity (sellersDir w) sellerId
               (blueprintId c))
   < quantityToFulfill c)%Q →
  ∃ e, fulfillAllClaimedItemsWith updateInventory w oid sellerId now
       = (failure e, w).
Proof.
  intros Hget Hc Hto Hlt. unfold fulfillAllClaimedItemsWith. rewrite Hget.
  destruct (List.filter (toFulfill sellerId) (itemClaims order))
    as [|c0 cs] eqn:Hfilter; [by eexists|].
  destruct (fulfillCheck (sellersDir w) sellerId (c0 :: cs)) as [e|] eqn:Hchk;
    [by eexists|].
  exfalso. rewrite <- Hfilter in Hchk.
  pose proof (proj1 (fulfillCheck_None _ _ _) Hchk c) as Hle.
  assert (c ∈ List.filter (toFulfill sellerId) (itemClaims order)) as Hin.
  { apply list_elem_of_In, filter_In. split; [by apply list_elem_of_In|done]. }
  specialize (Hle Hin). by apply Qlt_not_le in Hlt.
Qed.

(** Whatever the writer does, a failed call leaves the order files as
    they were: nothing of the call is recorded in the stored order. *)
Lemma fulfillAll_failure_orders w oid sellerId now :
  success (fulfillAllClaimedItemsWith updateInventory w oid sellerId now).1
  = false →
  ordersDir (fulfillAllClaimedItemsWith updateInventory w oid sellerId now).2
  = ordersDir w.
Proof.
  unfold fulfillAllClaimedItemsWith.
  destruct (getOrderById w oid) as [order|]; [|done].
  destruct (List.filter _ _); [done|].
  destruct (fulfillCheck _ _ _); [done|].
  destruct (fulfillPass _ _ _ _ _) as [[[[e|] dir'] claims'] ids];
    [done | discriminate].
Qed.

End FulfillAllFacts.

(** With the writer of sellers.ts the second pass cannot fail after a
    successful write: the writer fails only when the seller record is
    absent, and then no earlier write can have succeeded. *)
Lemma fulfillPass_absent_seller dir sellerId now claims :
  getSellerById dir sellerId = None →
  (fulfillPass updateSellerInventoryItem dir sellerId now claims).1.1.2 = dir.
Proof.
  intros Hs. induction claims as [|claim rest IH]; cbn [fulfillPass]; [done|].
  destruct (toFulfill sellerId claim).
  - by rewrite updateSellerInventoryItem_absent.
  - by destruct (fulfillPass _ _ _ _ _) as [[[err dir2] rest'] ids'].
Qed.

Lemma fulfillPass_present_seller dir sellerId now claims seller :
  getSellerById dir sellerId = Some seller →
  (fulfillPass updateSellerInventoryItem dir sellerId now claims).1.1.1 = None.
Proof.
  revert dir seller.
  induction claims as [|claim rest IH]; intros dir seller Hs;
    cbn [fulfillPass]; [done|].
  destruct (toFulfill sellerId claim).
  - rewrite (updateSellerInventoryItem_present _ _ _ _ _ _ Hs). cbn [negb].
    specialize (IH (<[sellerId := withInventory seller
                       (applyInventoryUpdate (seller_inventory seller)
                          (blueprintId claim)
                          (Number.sub
                             (inject_Z (getSellerBlueprintQuantity dir sellerId
                                          (blueprintId claim)))
                             (quantityToFulfill claim)))
                       now]> dir) _ (lookup_insert_eq _ _ _)).
    by destruct (fulfillPass _ _ _ _ _) as [[[err dir2] rest'] ids'].
  - specialize (IH dir seller Hs).
    by destruct (fulfillPass _ _ _ _ _) as [[[err dir2] rest'] ids'].
Qed.

Lemma fulfillAllClaimedItems_failure_unchanged
  (w : World) (oid sellerId now : string) :
  success (fulfillAllClaimedItems w oid sellerId now).1 = false →
  (fulfillAllClaimedItems w oid sellerId now).2 = w.
Proof.
  unfold fulfillAllClaimedItems, fulfillAllClaimedItemsWith.
  destruct (getOrderById w oid) as [order|]; [|done].
  destruct (List.filter _ _); [done|].
  destruct (fulfillCheck _ _ _); [done|].
  destruct (getSellerById (sellersDir w) sellerId) as [seller|] eqn:Hs.
  - pose proof (fulfillPass_present_seller _ _ now (itemClaims order) _ Hs) as H.
    destruct (fulfillPass _ _ _ _ _) as [[[err dir'] claims'] ids].
    cbn [fst] in H. subst err. discriminate.
  - pose proof (fulfillPass_absent_seller _ _ now (itemClaims order) Hs) as H.
    destruct (fulfillPass _ _ _ _ _) as [[[[e|] dir'] claims'] ids];
      [|discriminate].
    cbn [fst snd] in H. subst dir'. intros _. apply withSellers_same.
Qed.

(** C3 (fails on the code).  When the inventory write of the second item
    fails after the write of the first one went through, the call reports
    the failure and the first decrement stays (5 to 3), but the order is not
    written back: item A is still stored as claimed, not fulfilled.  A later
    [fulfillAllClaimedItems] therefore decrements A once more (3 to 1). *)
Theorem partial_failure_not_recorded :
  let partial :=
    fulfillAllClaimedItemsWith (failingFor "B") bothClaimed "ORD-1" "S1" "t3" in
  let retry := fulfillAllClaimedItems partial.2 "ORD-1" "S1" "t4" in
  stockOf bothClaimed "S1" "A" = 5
  ∧ partial.1 = failure (InventoryUpdateFailedFor "Beta")
  ∧ stockOf partial.2 "S1" "A" = 3
  ∧ stockOf partial.2 "S1" "B" = 5
  ∧ ordersDir partial.2 = ordersDir bothClaimed
  ∧ claimStatusOf partial.2 "ORD-1" "A" = Some claimed
  ∧ success retry.1 = true
  ∧ stockOf retry.2 "S1" "A" = 1
  ∧ stockOf retry.2 "S1" "B" = 3.
Proof. vm_compute. done. Qed.

(* ===================================================================== *)
(** * The scenarios of the specification *)
(* ===================================================================== *)

(** Seller S1 stocks only A and seller S2 only B: no seller covers both. *)
Example multi_seller_required :
  let p := processOrder demoCompare (fun s => s) (fun _ => None) splitStock
             twoItems "ORD-1" "t1" in
  po_isMultiSeller p = true
  ∧ po_offer p = MULTI_SELLER_OFFER_MESSAGE
  ∧ po_originalOffer p = "gold"
  ∧ po_sellerCount p = 2%nat.
Proof. vm_compute. done. Qed.

(** One item that each of two sellers can cover: any one of them suffices. *)
Example single_item_many_sellers :
  requiresMultipleSellers demoCompare sharedStock [("A", 3%Q)] = false
  ∧ po_sellerCount
      (processOrder demoCompare (fun s => s) (fun _ => None) sharedStock
         threeOfA "ORD-1" "t1") = 2%nat.
Proof. vm_compute. done. Qed.

(** Seller S1 covers both items although S2 also stocks one of them. *)
Example single_seller_suffices :
  let p := processOrder demoCompare (fun s => s) (fun _ => None) fullStock
             twoItems "ORD-1" "t1" in
  po_isMultiSeller p = false
  ∧ po_offer p = "gold"
  ∧ po_sellerCount p = 2%nat.
Proof. vm_compute. done. Qed.

(** The life cycle of the specification up to fulfilment. *)
Example lifecycle_to_fulfilment :
  claimStatusOf (submitted oneSeller threeOfA) "ORD-1" "A" = Some unclaimed
  ∧ claimStatusOf acceptedWorld "ORD-1" "A" = Some claimed
  ∧ statusOf acceptedWorld "ORD-1" = Some in_progress
  ∧ claimStatusOf fulfilledWorld "ORD-1" "A" = Some fulfilled
  ∧ statusOf fulfilledWorld "ORD-1" = Some completed
  ∧ stockOf fulfilledWorld "S1" "A" = 3.
Proof. vm_compute. done. Qed.

(** The seller then closes the order for themselves, which closes it
    globally since every item is fulfilled. *)
Example lifecycle_close :
  let closing := closeOrder fulfilledWorld "ORD-1" "S1" false "t4" in
  success closing.1 = true
  ∧ statusOf closing.2 "ORD-1" = Some closed.
Proof. vm_compute. done. Qed.

(** Releasing the only claimed item reverts the order to open. *)
Example release_reverts_status :
  let released := releaseOrderItem acceptedWorld "ORD-1" "S1" "A" in
  statusOf acceptedWorld "ORD-1" = Some in_progress
  ∧ success released.1 = true
  ∧ claimStatusOf released.2 "ORD-1" "A" = Some unclaimed
  ∧ statusOf released.2 "ORD-1" = Some open.
Proof. vm_compute. done. Qed.

(** Seller S2 holds none of the only requested item: the order is absent
    from S2's listing, while S1 sees it with its one row. *)
Example view_hiding :
  getOrdersForSeller demoTime (submitted oneSeller threeOfA) "S2" = []
  ∧ getOrderForSeller (submitted oneSeller threeOfA) "ORD-1" "S2" = None
  ∧ map (fun v => length (v_items v))
        (getOrdersForSeller demoTime (submitted oneSeller threeOfA) "S1")
    = [1%nat].
Proof. vm_compute. done. Qed.

(** Claiming all items twice: the second call finds nothing unclaimed and
    reports that there is nothing to claim, changing nothing. *)
Example claim_all_twice :
  let first := claimOrderItems (submitted oneSeller threeOfA)
                 "ORD-1" "S1" None "t2" in
  let second := claimOrderItems first.2 "ORD-1" "S1" None "t3" in
  success first.1 = true
  ∧ claimStatusOf first.2 "ORD-1" "A" = Some claimed
  ∧ second = (failure NothingToClaim, first.2).
Proof. vm_compute. done. Qed.

(* ===================================================================== *)
(** * Further properties of the claim engine *)
(* ===================================================================== *)

(** ** Every line of every order is kept *)

Section Lines.

Implicit Types (w : World) (claims : list OrderItemClaim).

Variable updateInventory :
  SellerDir → string → string → Q → string → bool * SellerDir.

Lemma keepsLines_same w w' : ordersDir w' = ordersDir w → keepsLines w w'.
Proof. intros Heq key. rewrite Heq. by destruct (ordersDir w !! key). Qed.

Lemma keepsLines_update w dir oid order order' :
  ordersOk w → getOrderById w oid = Some order →
  submissionOf order' = submissionOf order →
  map lineOf (itemClaims order') = map lineOf (itemClaims order) →
  keepsLines w (updateOrder (withSellers w dir) order').
Proof.
  intros Hok Hget Hsub Hlines key.
  assert (Hid : orderId order' = orderId order) by by injection Hsub.
  cbn [updateOrder withSellers ordersDir].
  rewrite Hid, (getOrderById_key _ _ _ Hok Hget).
  destruct (decide (key = getOrderFilePath oid)) as [->|Hne].
  - rewrite lookup_insert_eq. unfold getOrderById in Hget. by rewrite Hget.
  - rewrite lookup_insert_ne by done. by destruct (ordersDir w !! key).
Qed.

Lemma keepsLines_update' w oid order order' :
  ordersOk w → getOrderById w oid = Some order →
  submissionOf order' = submissionOf order →
  map lineOf (itemClaims order') = map lineOf (itemClaims order) →
  keepsLines w (updateOrder w order').
Proof.
  intros. rewrite <- (withSellers_same w) at 2. by eapply keepsLines_update.
Qed.

Lemma lineOf_map (f : OrderItemClaim → OrderItemClaim) claims :
  (∀ c, lineOf (f c) = lineOf c) →
  map lineOf (map f claims) = map lineOf claims.
Proof.
  intros Hf. rewrite map_map. apply map_ext. intros c. apply Hf.
Qed.

Lemma lineOf_updateFoundClaim bid (f : OrderItemClaim → OrderItemClaim) claims :
  (∀ c, lineOf (f c) = lineOf c) →
  map lineOf (updateFoundClaim bid f claims) = map lineOf claims.
Proof.
  intros Hf. induction claims as [|c rest IH]; [done|]. cbn [updateFoundClaim].
  destruct (String.eqb (blueprintId c) bid); cbn [map]; by rewrite ?Hf, ?IH.
Qed.

Lemma lineOf_claimLoop dir sellerId discord now ids claims acc :
  map lineOf (claimLoop dir sellerId discord now ids claims acc).1
  = map lineOf claims.
Proof.
  revert claims acc. induction ids as [|bid rest IH]; intros claims acc;
    cbn [claimLoop]; [done|].
  destruct (findClaim claims bid) as [claim|]; [|apply IH].
  destruct (_ && _); [apply IH|].
  destruct (Number.ltb _ _); [apply IH|].
  rewrite IH. by apply lineOf_updateFoundClaim.
Qed.

Lemma acceptOrderFull_keepsLines w oid sellerId now :
  ordersOk w → keepsLines w (acceptOrderFull w oid sellerId now).2.
Proof.
  intros Hok. unfold acceptOrderFull.
  destruct (getOrderById w oid) as [order|] eqn:Hget;
    [|by apply keepsLines_same].
  destruct (isClosedOrCancelled _); [by apply keepsLines_same|].
  destruct (assignedToOther _ _); [by apply keepsLines_same|].
  destruct (getSellerById _ _) as [seller|]; [|by apply keepsLines_same].
  destruct (canSellerReceiveOrders seller); cbn [negb];
    [|by apply keepsLines_same].
  destruct (acceptCheck _ _ _); [by apply keepsLines_same|]. cbn [snd].
  apply (keepsLines_update' w oid order); try done.
  cbn [itemClaims setClaimState]. by apply lineOf_map.
Qed.

Lemma claimOrderItems_keepsLines w oid sellerId ids now :
  ordersOk w → keepsLines w (claimOrderItems w oid sellerId ids now).2.
Proof.
  intros Hok. unfold claimOrderItems.
  destruct (getOrderById w oid) as [order|] eqn:Hget;
    [|by apply keepsLines_same].
  destruct (isClosedOrCancelled _); [by apply keepsLines_same|].
  destruct (assignedToOther _ _); [by apply keepsLines_same|].
  destruct (getSellerById _ _) as [seller|]; [|by apply keepsLines_same].
  destruct (canSellerReceiveOrders seller); cbn [negb];
    [|by apply keepsLines_same].
  match goal with
  | |- context [claimLoop ?d ?s ?x ?n ?i ?c ?a] =>
      pose proof (lineOf_claimLoop d s x n i c a) as Hl;
      destruct (claimLoop d s x n i c a) as [claims' claimed]
  end.
  destruct claimed; [by apply keepsLines_same|]. cbn [snd].
  by apply (keepsLines_update' w oid order).
Qed.

Lemma fulfillOrderItem_keepsLines w oid sellerId bid now :
  ordersOk w → keepsLines w (fulfillOrderItem w oid sellerId bid now).2.
Proof.
  intros Hok.
  destruct (success (fulfillOrderItem w oid sellerId bid now).1) eqn:Hs.
  - destruct (fulfillOrderItem_success _ _ _ _ _ Hs)
      as (order & claim & seller & Hget & _ & _ & _ & _ & _ & ->).
    cbn [snd]. apply (keepsLines_update w _ oid order); try done.
    cbn [itemClaims setClaimState]. by apply lineOf_updateFoundClaim.
  - rewrite (fulfillOrderItem_failure _ _ _ _ _ Hs). by apply keepsLines_same.
Qed.

Lemma fulfillAllClaimedItemsWith_keepsLines w oid sellerId now :
  ordersOk w →
  keepsLines w
    (fulfillAllClaimedItemsWith updateInventory w oid sellerId now).2.
Proof.
  intros Hok. unfold fulfillAllClaimedItemsWith.
  destruct (getOrderById w oid) as [order|] eqn:Hget;
    [|by apply keepsLines_same].
  destruct (List.filter _ _); [by apply keepsLines_same|].
  destruct (fulfillCheck _ _ _); [by apply keepsLines_same|].
  destruct (fulfillPass updateInventory (sellersDir w) sellerId now
              (itemClaims order)) as [[[err dir'] claims'] ids] eqn:Hpass.
  destruct err as [e|]; [by apply keepsLines_same|]. cbn [snd].
  apply (keepsLines_update w _ oid order); try done.
  cbn [itemClaims setClaimState].
  rewrite (fulfillPass_claims _ _ _ _ _ _ _ _ Hpass).
  apply lineOf_map. intros c. by destruct (toFulfill sellerId c).
Qed.

Lemma releaseOrderItem_keepsLines w oid sellerId bid :
  ordersOk w → keepsLines w (releaseOrderItem w oid sellerId bid).2.
Proof.
  intros Hok. unfold releaseOrderItem.
  destruct (getOrderById w oid) as [order|] eqn:Hget;
    [|by apply keepsLines_same].
  destruct (isClosedOrCancelled _); [by apply keepsLines_same|].
  destruct (findClaim _ _) as [claim|]; [|by apply keepsLines_same].
  destruct (isSeller _ _); cbn [negb]; [|by apply keepsLines_same].
  destruct (bool_decide _); [by apply keepsLines_same|]. cbn [snd].
  apply (keepsLines_update' w oid order); try done.
  cbn [itemClaims setClaimState]. by apply lineOf_updateFoundClaim.
Qed.

Lemma closeOrder_keepsLines w oid sellerId isAdmin now :
  ordersOk w → keepsLines w (closeOrder w oid sellerId isAdmin now).2.
Proof.
  intros Hok. unfold closeOrder.
  destruct (getOrderById w oid) as [order|] eqn:Hget;
    [|by apply keepsLines_same].
  destruct isAdmin; [by apply (keepsLines_update' w oid order)|].
  destruct (isClosedOrCancelled _); [by apply keepsLines_same|].
  destruct (isOrderClosedBySeller _ _); [by apply keepsLines_same|].
  destruct (_ && _); [by apply keepsLines_same|].
  destruct (List.filter _ _); [|by apply keepsLines_same]. cbn [snd].
  apply (keepsLines_update' w oid order); try done;
    by destruct (allFulfilled (itemClaims order)).
Qed.

Lemma cancelOrder_keepsLines w oid now :
  ordersOk w → keepsLines w (cancelOrder w oid now).2.
Proof.
  intros Hok. unfold cancelOrder.
  destruct (getOrderById w oid) as [order|] eqn:Hget;
    [|by apply keepsLines_same].
  destruct (isClosedOrCancelled _); [by apply keepsLines_same|].
  by apply (keepsLines_update' w oid order).
Qed.

End Lines.

(** X1.  No operation of the claim engine creates or removes an order file,
    changes what the buyer submitted, or adds, removes, reorders or alters a
    line (blueprint id, name, requested quantity) of any order. *)
Theorem lines_never_change
  (updateInventory : SellerDir → string → string → Q → string
                     → bool * SellerDir)
  (w : World) (oid sellerId bid now : string)
  (ids : option (list string)) (isAdmin : bool) :
  ordersOk w →
  keepsLines w (acceptOrderFull w oid sellerId now).2
  ∧ keepsLines w (claimOrderItems w oid sellerId ids now).2
  ∧ keepsLines w (fulfillOrderItem w oid sellerId bid now).2
  ∧ keepsLines w
      (fulfillAllClaimedItemsWith updateInventory w oid sellerId now).2
  ∧ keepsLines w (releaseOrderItem w oid sellerId bid).2
  ∧ keepsLines w (closeOrder w oid sellerId isAdmin now).2
  ∧ keepsLines w (cancelOrder w oid now).2.
Proof.
  intros Hok. repeat split.
  - by apply acceptOrderFull_keepsLines.
  - by apply claimOrderItems_keepsLines.
  - by apply fulfillOrderItem_keepsLines.
  - by apply fulfillAllClaimedItemsWith_keepsLines.
  - by apply releaseOrderItem_keepsLines.
  - by apply closeOrder_keepsLines.
  - by apply cancelOrder_keepsLines.
Qed.

Lemma lines_never_change_witness :
  ordersOk acceptedWorld
  ∧ keepsLines acceptedWorld
      (fulfillOrderItem acceptedWorld "ORD-1" "S1" "A" "t3").2
  ∧ keepsLines acceptedWorld
      (releaseOrderItem acceptedWorld "ORD-1" "S1" "A").2.
Proof.
  split; [exact acceptedWorld_ok|].
  destruct (lines_never_change updateSellerInventoryItem acceptedWorld
              "ORD-1" "S1" "A" "t3" None false acceptedWorld_ok)
    as (_ & _ & Hf & _ & Hr & _).
  split; assumption.
Defined.

(** ** Claims that another party holds *)

Section Foreign.

Implicit Types (w : World) (claims : list OrderItemClaim).

Variable updateInventory :
  SellerDir → string → string → Q → string → bool * SellerDir.

Lemma keepsClaimsWhere_same P w w' :
  ordersDir w' = ordersDir w → keepsClaimsWhere P w w'.
Proof. intros Heq key order i c Hk Hi _. rewrite Heq. by exists order. Qed.

Lemma keepsClaimsWhere_update P w dir oid order order' :
  ordersOk w → getOrderById w oid = Some order →
  orderId order' = orderId order →
  (∀ i c, itemClaims order !! i = Some c → P c →
          itemClaims order' !! i = Some c) →
  keepsClaimsWhere P w (updateOrder (withSellers w dir) order').
Proof.
  intros Hok Hget Hid Hkeep key o i c Hk Hi Hf.
  cbn [updateOrder withSellers ordersDir].
  rewrite Hid, (getOrderById_key _ _ _ Hok Hget).
  destruct (decide (key = getOrderFilePath oid)) as [->|Hne].
  - rewrite lookup_insert_eq. exists order'. split; [done|].
    unfold getOrderById in Hget. rewrite Hget in Hk. injection Hk as <-.
    by apply Hkeep.
  - rewrite lookup_insert_ne by done. by exists o.
Qed.

Lemma keepsClaimsWhere_update' P w oid order order' :
  ordersOk w → getOrderById w oid = Some order →
  orderId order' = orderId order →
  (∀ i c, itemClaims order !! i = Some c → P c →
          itemClaims order' !! i = Some c) →
  keepsClaimsWhere P w (updateOrder w order').
Proof.
  intros. rewrite <- (withSellers_same w) at 2.
  by eapply keepsClaimsWhere_update.
Qed.

(** The guard shared by [acceptOrderFull] and [claimOrderItems] is exactly
    "held by another party". *)
Lemma guard_heldByOther sellerId c :
  negb (bool_decide (claimStatus c = unclaimed))
  && negb (isSeller (claimedBySellerId c) sellerId) = true
  ↔ heldByOther sellerId c.
Proof.
  unfold heldByOther.
  rewrite andb_true_iff, !negb_true_iff, bool_decide_eq_false, isSeller_false.
  done.
Qed.

Lemma heldByOther_not_mine sellerId c :
  heldByOther sellerId c → isSeller (claimedBySellerId c) sellerId = false.
Proof. intros [_ H]. by apply isSeller_false. Qed.

Lemma updateFoundClaim_keeps_other claims bid f found i c sellerId :
  findClaim claims bid = Some found → ¬ heldByOther sellerId found →
  claims !! i = Some c → heldByOther sellerId c →
  updateFoundClaim bid f claims !! i = Some c.
Proof.
  intros Hfound Hnf Hi Hf.
  destruct (updateFoundClaim_lookup claims bid f i c Hi) as [H|[H _]]; [done|].
  congruence.
Qed.

Lemma claimLoop_keeps_other dir sellerId discord now ids claims acc i c :
  claims !! i = Some c → heldByOther sellerId c →
  (claimLoop dir sellerId discord now ids claims acc).1 !! i = Some c.
Proof.
  revert claims acc. induction ids as [|bid rest IH]; intros claims acc Hi Hc;
    cbn [claimLoop]; [done|].
  destruct (findClaim claims bid) as [claim|] eqn:Hfind; [|by apply IH].
  destruct (_ && _) eqn:Hguard; [by apply IH|].
  destruct (Number.ltb _ _); [by apply IH|].
  apply IH; [|done].
  apply (updateFoundClaim_keeps_other _ _ _ claim _ _ sellerId); try done.
  intros Hh. apply guard_heldByOther in Hh. congruence.
Qed.

Lemma acceptOrderFull_keeps_other w oid sellerId now :
  ordersOk w →
  keepsClaimsWhere (heldByOther sellerId) w
    (acceptOrderFull w oid sellerId now).2.
Proof.
  intros Hok. unfold acceptOrderFull.
  destruct (getOrderById w oid) as [order|] eqn:Hget;
    [|by apply keepsClaimsWhere_same].
  destruct (isClosedOrCancelled _); [by apply keepsClaimsWhere_same|].
  destruct (assignedToOther _ _); [by apply keepsClaimsWhere_same|].
  destruct (getSellerById _ _) as [seller|]; [|by apply keepsClaimsWhere_same].
  destruct (canSellerReceiveOrders seller); cbn [negb];
    [|by apply keepsClaimsWhere_same].
  destruct (acceptCheck _ _ _) as [e|ids] eqn:Hchk;
    [by apply keepsClaimsWhere_same|]. cbn [snd].
  apply (keepsClaimsWhere_update' _ w oid order); try done.
  intros i c Hi [Hn1 Hn2]. exfalso.
  apply acceptCheck_passes in Hchk as [_ Hchk].
  destruct (Hchk c) as [[?|?] _]; [|done|done].
  apply list_elem_of_lookup. by exists i.
Qed.

Lemma claimOrderItems_keeps_other w oid sellerId ids now :
  ordersOk w →
  keepsClaimsWhere (heldByOther sellerId) w
    (claimOrderItems w oid sellerId ids now).2.
Proof.
  intros Hok. unfold claimOrderItems.
  destruct (getOrderById w oid) as [order|] eqn:Hget;
    [|by apply keepsClaimsWhere_same].
  destruct (isClosedOrCancelled _); [by apply keepsClaimsWhere_same|].
  destruct (assignedToOther _ _); [by apply keepsClaimsWhere_same|].
  destruct (getSellerById _ _) as [seller|]; [|by apply keepsClaimsWhere_same].
  destruct (canSellerReceiveOrders seller); cbn [negb];
    [|by apply keepsClaimsWhere_same].
  match goal with
  | |- context [claimLoop ?d ?s ?x ?n ?l ?c ?a] =>
      pose proof (fun i c' => claimLoop_keeps_other d s x n l c a i c') as Hl;
      destruct (claimLoop d s x n l c a) as [claims' claimed]
  end.
  destruct claimed; [by apply keepsClaimsWhere_same|]. cbn [snd].
  apply (keepsClaimsWhere_update' _ w oid order); try done.
Qed.

Lemma fulfillOrderItem_keeps_other w oid sellerId bid now :
  ordersOk w →
  keepsClaimsWhere (heldByOther sellerId) w
    (fulfillOrderItem w oid sellerId bid now).2.
Proof.
  intros Hok.
  destruct (success (fulfillOrderItem w oid sellerId bid now).1) eqn:Hs.
  - destruct (fulfillOrderItem_success _ _ _ _ _ Hs)
      as (order & claim & seller & Hget & Hfind & Hmine & _ & _ & _ & ->).
    cbn [snd]. apply (keepsClaimsWhere_update _ w _ oid order); try done.
    intros i c Hi Hc. cbn [itemClaims setClaimState].
    apply (updateFoundClaim_keeps_other _ _ _ claim _ _ sellerId); try done.
    by intros [_ ?].
  - rewrite (fulfillOrderItem_failure _ _ _ _ _ Hs).
    by apply keepsClaimsWhere_same.
Qed.

Lemma fulfillAllClaimedItemsWith_keeps_other w oid sellerId now :
  ordersOk w →
  keepsClaimsWhere (heldByOther sellerId) w
    (fulfillAllClaimedItemsWith updateInventory w oid sellerId now).2.
Proof.
  intros Hok. unfold fulfillAllClaimedItemsWith.
  destruct (getOrderById w oid) as [order|] eqn:Hget;
    [|by apply keepsClaimsWhere_same].
  destruct (List.filter _ _); [by apply keepsClaimsWhere_same|].
  destruct (fulfillCheck _ _ _); [by apply keepsClaimsWhere_same|].
  destruct (fulfillPass updateInventory (sellersDir w) sellerId now
              (itemClaims order)) as [[[err dir'] claims'] ids] eqn:Hpass.
  destruct err as [e|]; [by apply keepsClaimsWhere_same|]. cbn [snd].
  apply (keepsClaimsWhere_update _ w _ oid order); try done.
  intros i c Hi Hc. cbn [itemClaims setClaimState].
  rewrite (fulfillPass_claims _ _ _ _ _ _ _ _ Hpass).
  rewrite list_lookup_fmap, Hi. cbn. unfold toFulfill.
  by rewrite (heldByOther_not_mine _ _ Hc).
Qed.

Lemma releaseOrderItem_keeps_other w oid sellerId bid :
  ordersOk w →
  keepsClaimsWhere (heldByOther sellerId) w
    (releaseOrderItem w oid sellerId bid).2.
Proof.
  intros Hok. unfold releaseOrderItem.
  destruct (getOrderById w oid) as [order|] eqn:Hget;
    [|by apply keepsClaimsWhere_same].
  destruct (isClosedOrCancelled _); [by apply keepsClaimsWhere_same|].
  destruct (findClaim _ _) as [claim|] eqn:Hfind;
    [|by apply keepsClaimsWhere_same].
  destruct (isSeller _ _) eqn:Hmine; cbn [negb];
    [|by apply keepsClaimsWhere_same].
  destruct (bool_decide _); [by apply keepsClaimsWhere_same|]. cbn [snd].
  apply (keepsClaimsWhere_update' _ w oid order); try done.
  intros i c Hi Hc. cbn [itemClaims setClaimState].
  apply (updateFoundClaim_keeps_other _ _ _ claim _ _ sellerId); try done.
  intros [_ ?]. by apply isSeller_true in Hmine.
Qed.

Lemma closeOrder_keeps_all P w oid sellerId isAdmin now :
  ordersOk w →
  keepsClaimsWhere P w (closeOrder w oid sellerId isAdmin now).2.
Proof.
  intros Hok. unfold closeOrder.
  destruct (getOrderById w oid) as [order|] eqn:Hget;
    [|by apply keepsClaimsWhere_same].
  destruct isAdmin; [by apply (keepsClaimsWhere_update' _ w oid order)|].
  destruct (isClosedOrCancelled _); [by apply keepsClaimsWhere_same|].
  destruct (isOrderClosedBySeller _ _); [by apply keepsClaimsWhere_same|].
  destruct (_ && _); [by apply keepsClaimsWhere_same|].
  destruct (List.filter _ _); [|by apply keepsClaimsWhere_same]. cbn [snd].
  apply (keepsClaimsWhere_update' _ w oid order); try done;
    by destruct (allFulfilled (itemClaims order)).
Qed.

End Foreign.

(** X2.  Whatever a seller does, the claims that another party holds stay as
    they are: no operation called with [sellerId] changes a claim that is not
    unclaimed and whose claiming seller is not [sellerId], in any order. *)
Theorem other_sellers_claims_untouched
  (updateInventory : SellerDir → string → string → Q → string
                     → bool * SellerDir)
  (w : World) (oid sellerId bid now : string) (ids : option (list string)) :
  ordersOk w →
  let kept := keepsClaimsWhere (heldByOther sellerId) w in
  kept (acceptOrderFull w oid sellerId now).2
  ∧ kept (claimOrderItems w oid sellerId ids now).2
  ∧ kept (fulfillOrderItem w oid sellerId bid now).2
  ∧ kept (fulfillAllClaimedItemsWith updateInventory w oid sellerId now).2
  ∧ kept (releaseOrderItem w oid sellerId bid).2
  ∧ kept (closeOrder w oid sellerId false now).2.
Proof.
  intros Hok. cbn zeta. repeat split.
  - by apply acceptOrderFull_keeps_other.
  - by apply claimOrderItems_keeps_other.
  - by apply fulfillOrderItem_keeps_other.
  - by apply fulfillAllClaimedItemsWith_keeps_other.
  - by apply releaseOrderItem_keeps_other.
  - by apply closeOrder_keeps_all.
Qed.

Lemma other_sellers_claims_untouched_witness :
  ordersOk acceptedWorld
  ∧ keepsClaimsWhere (heldByOther "S2") acceptedWorld
      (acceptOrderFull acceptedWorld "ORD-1" "S2" "t3").2
  ∧ keepsClaimsWhere (heldByOther "S2") acceptedWorld
      (claimOrderItems acceptedWorld "ORD-1" "S2" (Some ["A"]) "t3").2.
Proof.
  split; [exact acceptedWorld_ok|].
  destruct (other_sellers_claims_untouched updateSellerInventoryItem
              acceptedWorld "ORD-1" "S2" "A" "t3" (Some ["A"])
              acceptedWorld_ok) as (Ha & Hc & _).
  split; assumption.
Defined.

(** X3.  A fulfilled item stays fulfilled, with all its fields, under
    [fulfillOrderItem], [fulfillAllClaimedItems], [releaseOrderItem],
    [closeOrder] (seller or administrator) and [cancelOrder]. *)
Theorem fulfilled_kept_by_five_operations
  (w : World) (oid sellerId bid now : string) (isAdmin : bool) :
  ordersOk w →
  keepsFulfilled w (fulfillOrderItem w oid sellerId bid now).2
  ∧ keepsFulfilled w (fulfillAllClaimedItems w oid sellerId now).2
  ∧ keepsFulfilled w (releaseOrderItem w oid sellerId bid).2
  ∧ keepsFulfilled w (closeOrder w oid sellerId isAdmin now).2
  ∧ keepsFulfilled w (cancelOrder w oid now).2.
Proof.
  intros Hok. repeat split.
  - by apply fulfillOrderItem_keepsFulfilled.
  - by apply fulfillAllClaimedItemsWith_keepsFulfilled.
  - by apply releaseOrderItem_keepsFulfilled.
  - by apply closeOrder_keepsFulfilled.
  - by apply cancelOrder_keepsFulfilled.
Qed.

Lemma fulfilledWorld_ok : ordersOk fulfilledWorld.
Proof. apply (bool_decide_unpack _). vm_compute. exact I. Qed.

Lemma fulfilled_kept_by_five_operations_witness :
  ordersOk fulfilledWorld
  ∧ claimStatusOf fulfilledWorld "ORD-1" "A" = Some fulfilled
  ∧ keepsFulfilled fulfilledWorld
      (releaseOrderItem fulfilledWorld "ORD-1" "S1" "A").2
  ∧ keepsFulfilled fulfilledWorld
      (closeOrder fulfilledWorld "ORD-1" "S1" false "t4").2.
Proof.
  split; [exact fulfilledWorld_ok|]. split; [vm_compute; reflexivity|].
  destruct (fulfilled_kept_by_five_operations fulfilledWorld "ORD-1" "S1" "A"
              "t4" false fulfilledWorld_ok) as (_ & _ & Hr & Hc & _).
  split; assumption.
Defined.

(** ** Rejections *)

(** X4.  On an order that is closed or cancelled, [acceptOrderFull],
    [claimOrderItems], [releaseOrderItem], the seller's [closeOrder] and
    [cancelOrder] all answer "order already closed" and change nothing. *)
Theorem closed_order_rejects_five_operations
  (w : World) (oid sellerId bid now : string)
  (ids : option (list string)) (order : StoredOrder) :
  getOrderById w oid = Some order →
  status order = closed ∨ status order = cancelled →
  acceptOrderFull w oid sellerId now = (failure OrderAlreadyClosed, w)
  ∧ claimOrderItems w oid sellerId ids now = (failure OrderAlreadyClosed, w)
  ∧ releaseOrderItem w oid sellerId bid = (failure OrderAlreadyClosed, w)
  ∧ closeOrder w oid sellerId false now = (failure OrderAlreadyClosed, w)
  ∧ cancelOrder w oid now = (failure OrderAlreadyClosed, w).
Proof.
  intros Hget Hst.
  destruct (closed_order_rejected w oid sellerId bid now ids order Hget Hst)
    as (Ha & Hc & Hr & Hcl).
  repeat split; try assumption.
  apply isClosedOrCancelled_true in Hst. unfold cancelOrder.
  by rewrite Hget, Hst.
Qed.

Lemma closed_order_rejects_five_operations_witness :
  getOrderById closedWorld "ORD-1" = Some closedOrder
  ∧ status closedOrder = closed
  ∧ acceptOrderFull closedWorld "ORD-1" "S1" "t4"
    = (failure OrderAlreadyClosed, closedWorld)
  ∧ cancelOrder closedWorld "ORD-1" "t4"
    = (failure OrderAlreadyClosed, closedWorld).
Proof.
  assert (H1 : getOrderById closedWorld "ORD-1" = Some closedOrder)
    by (vm_compute; reflexivity).
  assert (H2 : status closedOrder = closed) by (vm_compute; reflexivity).
  split; [exact H1|]. split; [exact H2|].
  destruct (closed_order_rejects_five_operations closedWorld "ORD-1" "S1" "A"
              "t4" None closedOrder H1 (or_introl H2))
    as (Ha & _ & _ & _ & Hc).
  split; assumption.
Defined.

(** X5.  An operation that reports failure has changed nothing: neither an
    order file nor a seller record.  For [fulfillAllClaimedItems], whose
    inventory writes are made one by one and can fail one by one, a reported
    failure has changed no order file, whatever the inventory writer did. *)
Theorem failed_operation_changes_nothing
  (w : World) (oid sellerId bid now : string)
  (ids : option (list string)) (isAdmin : bool) :
  (success (acceptOrderFull w oid sellerId now).1 = false →
   (acceptOrderFull w oid sellerId now).2 = w)
  ∧ (success (claimOrderItems w oid sellerId ids now).1 = false →
     (claimOrderItems w oid sellerId ids now).2 = w)
  ∧ (success (fulfillOrderItem w oid sellerId bid now).1 = false →
     (fulfillOrderItem w oid sellerId bid now).2 = w)
  ∧ (∀ updateInventory,
       success (fulfillAllClaimedItemsWith updateInventory w oid sellerId
                  now).1 = false →
       ordersDir (fulfillAllClaimedItemsWith updateInventory w oid sellerId
                    now).2 = ordersDir w)
  ∧ (success (releaseOrderItem w oid sellerId bid).1 = false →
     (releaseOrderItem w oid sellerId bid).2 = w)
  ∧ (success (closeOrder w oid sellerId isAdmin now).1 = false →
     (closeOrder w oid sellerId isAdmin now).2 = w)
  ∧ (success (cancelOrder w oid now).1 = false →
     (cancelOrder w oid now).2 = w).
Proof.
  split; [|split; [|split; [|split; [|split; [|split]]]]].
  - unfold acceptOrderFull.
    destruct (getOrderById w oid) as [order|]; [|done].
    destruct (isClosedOrCancelled _); [done|].
    destruct (assignedToOther _ _); [done|].
    destruct (getSellerById _ _) as [seller|]; [|done].
    destruct (canSellerReceiveOrders seller); cbn [negb]; [|done].
    by destruct (acceptCheck _ _ _).
  - unfold claimOrderItems.
    destruct (getOrderById w oid) as [order|]; [|done].
    destruct (isClosedOrCancelled _); [done|].
    destruct (assignedToOther _ _); [done|].
    destruct (getSellerById _ _) as [seller|]; [|done].
    destruct (canSellerReceiveOrders seller); cbn [negb]; [|done].
    destruct (claimLoop _ _ _ _ _ _ _) as [claims' claimed].
    by destruct claimed.
  - apply fulfillOrderItem_failure.
  - intros updateInventory. apply fulfillAll_failure_orders.
  - unfold releaseOrderItem.
    destruct (getOrderById w oid) as [order|]; [|done].
    destruct (isClosedOrCancelled _); [done|].
    destruct (findClaim _ _) as [claim|]; [|done].
    destruct (isSeller _ _); cbn [negb]; [|done].
    by destruct (bool_decide _).
  - unfold closeOrder.
    destruct (getOrderById w oid) as [order|]; [|done].
    destruct isAdmin; [done|].
    destruct (isClosedOrCancelled _); [done|].
    destruct (isOrderClosedBySeller _ _); [done|].
    destruct (_ && _); [done|].
    by destruct (List.filter _ _).
  - unfold cancelOrder.
    destruct (getOrderById w oid) as [order|]; [|done].
    by destruct (isClosedOrCancelled _).
Qed.

(** ** When the operations succeed *)

Lemma acceptCheck_acceptable dir sellerId (claims : list OrderItemClaim) :
  (∀ c, c ∈ claims → acceptable dir sellerId c) →
  acceptCheck dir sellerId claims = inr (map blueprintId claims).
Proof.
  intros Hall.
  destruct (acceptCheck dir sellerId claims) as [e|ids] eqn:E.
  - exfalso. revert E. induction claims as [|c rest IH]; cbn [acceptCheck];
      [discriminate|].
    destruct (Hall c ltac:(left)) as [Hst Hq].
    assert (negb (bool_decide (claimStatus c = unclaimed))
            && negb (isSeller (claimedBySellerId c) sellerId) = false) as ->.
    { destruct (_ && _) eqn:G; [|done].
      apply guard_heldByOther in G as [? ?]. by destruct Hst. }
    apply ltb_ge in Hq. rewrite Hq.
    destruct (acceptCheck dir sellerId rest) eqn:Er; [|discriminate].
    intros [= <-]. apply IH; [|done]. intros c' Hc'. apply Hall. by right.
  - by apply acceptCheck_passes in E as [-> _].
Qed.




(** ** Fulfilling all claimed items *)

Section FulfillAllEffect.

Implicit Types (dir : SellerDir) (claims : list OrderItemClaim).




End FulfillAllEffect.




(** ** Claiming items *)

Section ClaimItems.

Implicit Types (w : World) (dir : SellerDir) (claims : list OrderItemClaim).

Lemma markClaimed_idem sellerId discord now c :
  markClaimed sellerId discord now (markClaimed sellerId discord now c)
  = markClaimed sellerId discord now c.
Proof. done. Qed.

(** Marking the claim found for an eligible id changes the outcome of the
    tests for no id. *)
Lemma eligible_after_mark dir sellerId discord now claims bid b :
  eligible dir sellerId claims bid = true →
  eligible dir sellerId
    (updateFoundClaim bid (markClaimed sellerId discord now) claims) b
  = eligible dir sellerId claims b.
Proof.
  intros Hel. unfold eligible in *.
  destruct (findClaim claims bid) as [claim|] eqn:Hfind; [|done].
  destruct (String.eqb_spec b bid) as [->|Hne].
  - rewrite (updateFoundClaim_find _ _ _ claim) by done. rewrite Hfind, Hel.
    cbn [claimStatus claimedBySellerId markClaimed blueprintId requestedQty
         isSeller].
    rewrite String.eqb_refl. rewrite bool_decide_eq_false_2 by done.
    cbn [negb andb].
    apply andb_true_iff in Hel as [_ Hq]. exact Hq.
  - by rewrite updateFoundClaim_find_other.
Qed.

(** The loop of [claimOrderItems] claims the ids that pass the tests on the
    claims as they were, in the order of the request. *)
Lemma claimLoop_claimed dir sellerId discord now ids claims acc :
  (claimLoop dir sellerId discord now ids claims acc).2
  = (acc ++ List.filter (eligible dir sellerId claims) ids)%list.
Proof.
  revert claims acc. induction ids as [|bid rest IH]; intros claims acc;
    cbn [claimLoop List.filter]; [by rewrite app_nil_r|].
  unfold eligible at 1.
  destruct (findClaim claims bid) as [claim|] eqn:Hfind; [|apply IH].
  destruct (_ && _) eqn:Hguard; cbn [negb andb]; [apply IH|].
  destruct (Number.ltb _ _) eqn:Hq; cbn [negb]; [apply IH|].
  rewrite IH, <- app_assoc. cbn [app]. do 2 f_equal.
  apply filter_ext. intros b. apply eligible_after_mark.
  unfold eligible. by rewrite Hfind, Hguard, Hq.
Qed.

(** What passing the tests means for the claim found. *)
Lemma eligible_found dir sellerId claims c :
  findClaim claims (blueprintId c) = Some c →
  eligible dir sellerId claims (blueprintId c) = true →
  ¬ heldByOther sellerId c
  ∧ (requestedQty c
     <= inject_Z (getSellerBlueprintQuantity dir sellerId (blueprintId c)))%Q.
Proof.
  unfold eligible. intros -> [Hg Hq]%andb_true_iff.
  apply negb_true_iff in Hg, Hq. split; [|by apply ltb_ge].
  intros Hh. apply guard_heldByOther in Hh. congruence.
Qed.

(** Position by position, the loop leaves a claim as it was or marks it
    claimed for the seller; it marks only the first claim of a blueprint
    whose id is in the list and passes the tests. *)
Lemma claimLoop_lookup dir sellerId discord now ids claims acc i c :
  claims !! i = Some c →
  let claims' := (claimLoop dir sellerId discord now ids claims acc).1 in
  claims' !! i = Some c
  ∨ (claims' !! i = Some (markClaimed sellerId discord now c)
     ∧ blueprintId c ∈ ids
     ∧ findClaim claims (blueprintId c) = Some c
     ∧ eligible dir sellerId claims (blueprintId c) = true).
Proof.
  cbn zeta. revert claims acc c.
  induction ids as [|bid rest IH]; intros claims acc c Hi;
    cbn [claimLoop]; [by left|].
  assert (Hskip :
    (claimLoop dir sellerId discord now rest claims acc).1 !! i = Some c
    ∨ ((claimLoop dir sellerId discord now rest claims acc).1 !! i
       = Some (markClaimed sellerId discord now c)
       ∧ blueprintId c ∈ bid :: rest
       ∧ findClaim claims (blueprintId c) = Some c
       ∧ eligible dir sellerId claims (blueprintId c) = true)).
  { destruct (IH claims acc c Hi) as [H|(H & Hin & Hf & He)]; [by left|].
    right. split; [done|]. split; [by right | done]. }
  destruct (findClaim claims bid) as [claim|] eqn:Hfind; [|exact Hskip].
  destruct (_ && _) eqn:Hguard; [exact Hskip|].
  destruct (Number.ltb _ _) eqn:Hq; [exact Hskip|]. clear Hskip.
  assert (Hel : eligible dir sellerId claims bid = true).
  { unfold eligible. by rewrite Hfind, Hguard, Hq. }
  destruct (updateFoundClaim_lookup claims bid
              (markClaimed sellerId discord now) i c Hi) as [H|[Hc H]].
  - destruct (IH _ (acc ++ [bid])%list _ H) as [H'|(H' & Hin & Hf & He)];
      [by left|].
    destruct (decide (blueprintId c = bid)) as [Hb|Hb].
    + left. rewrite Hb in Hf.
      rewrite (updateFoundClaim_find _ _ _ claim) in Hf by done.
      injection Hf as Hf. by rewrite <- Hf, markClaimed_idem, Hf in H'.
    + right. split; [done|]. split; [by right|].
      rewrite updateFoundClaim_find_other in Hf by done. split; [done|].
      by rewrite eligible_after_mark in He.
  - assert (claim = c) as -> by congruence.
    apply findClaim_Some in Hfind as Hbid. destruct Hbid as [_ Hbid].
    right.
    assert (Hres : (claimLoop dir sellerId discord now rest
                      (updateFoundClaim bid (markClaimed sellerId discord now)
                         claims) (acc ++ [bid])%list).1 !! i
                   = Some (markClaimed sellerId discord now c)).
    { destruct (IH _ (acc ++ [bid])%list _ H) as [H'|(H' & _)]; [done|].
      by rewrite markClaimed_idem in H'. }
    split; [done|]. rewrite Hbid. split; [left | done].
Qed.

(** Once the first claim with a blueprint is claimed for the seller, it
    remains so through the loop. *)
Lemma claimLoop_keeps_mine dir sellerId discord now ids claims acc b :
  (∃ c, findClaim claims b = Some c ∧ claimedBy sellerId c) →
  ∃ c, findClaim (claimLoop dir sellerId discord now ids claims acc).1 b
       = Some c ∧ claimedBy sellerId c.
Proof.
  revert claims acc. induction ids as [|bid rest IH]; intros claims acc Hm;
    cbn [claimLoop]; [done|].
  destruct (findClaim claims bid) as [claim|] eqn:Hfind; [|by apply IH].
  destruct (_ && _); [by apply IH|].
  destruct (Number.ltb _ _); [by apply IH|].
  apply IH. destruct Hm as (c & Hc & Hmine).
  destruct (String.eqb_spec b bid) as [->|Hne].
  - exists (markClaimed sellerId discord now claim).
    split; [by apply updateFoundClaim_find | done].
  - exists c. by rewrite updateFoundClaim_find_other.
Qed.

Lemma claimLoop_claims_eligible dir sellerId discord now ids claims acc b :
  b ∈ ids → eligible dir sellerId claims b = true →
  ∃ c, findClaim (claimLoop dir sellerId discord now ids claims acc).1 b
       = Some c ∧ claimedBy sellerId c.
Proof.
  revert claims acc. induction ids as [|bid rest IH]; intros claims acc Hb Hel;
    [by apply elem_of_nil in Hb|].
  cbn [claimLoop].
  destruct (decide (b = bid)) as [->|Hne].
  - pose proof Hel as Hel'. unfold eligible in Hel'.
    destruct (findClaim claims bid) as [claim|] eqn:Hfind; [|done].
    apply andb_true_iff in Hel' as [Hg Hq].
    apply negb_true_iff in Hg. apply negb_true_iff in Hq. rewrite Hg, Hq.
    apply claimLoop_keeps_mine.
    exists (markClaimed sellerId discord now claim).
    split; [by apply updateFoundClaim_find | done].
  - apply elem_of_cons in Hb as [?|Hb]; [done|].
    destruct (findClaim claims bid) as [claim|] eqn:Hfind; [|by apply IH].
    destruct (_ && _) eqn:Hg; [by apply IH|].
    destruct (Number.ltb _ _) eqn:Hq; [by apply IH|].
    apply IH; [done|]. rewrite eligible_after_mark; [done|].
    unfold eligible. by rewrite Hfind, Hg, Hq.
Qed.

(** The successful path of [claimOrderItems], spelled out. *)
Lemma claimOrderItems_success w oid sellerId ids now :
  success (claimOrderItems w oid sellerId ids now).1 = true →
  ∃ order seller,
    getOrderById w oid = Some order
    ∧ isClosedOrCancelled (status order) = false
    ∧ assignedToOther order sellerId = false
    ∧ getSellerById (sellersDir w) sellerId = Some seller
    ∧ canSellerReceiveOrders seller = true
    ∧ let res := claimLoop (sellersDir w) sellerId (seller_discordId seller)
                   now (itemsToClaim ids (itemClaims order))
                   (itemClaims order) [] in
      res.2 ≠ []
      ∧ claimOrderItems w oid sellerId ids now
        = (succeeded (Some res.2),
           updateOrder w
             (setClaimState order
                (if bool_decide (status order = open) then in_progress
                 else status order)
                (assignedSellerId order) (assignedSellerDiscordId order)
                (assignedAt order) res.1)).
Proof.
  unfold claimOrderItems.
  destruct (getOrderById w oid) as [order|]; [|discriminate].
  destruct (isClosedOrCancelled _) eqn:Hst; [discriminate|].
  destruct (assignedToOther _ _) eqn:Hao; [discriminate|].
  destruct (getSellerById _ _) as [seller|]; [|discriminate].
  destruct (canSellerReceiveOrders seller) eqn:Hact; cbn [negb];
    [|discriminate].
  fold (itemsToClaim ids (itemClaims order)).
  destruct (claimLoop _ _ _ _ _ _ _) as [claims' claimed] eqn:Hloop.
  destruct claimed as [|b bs]; [discriminate|]. intros _.
  exists order, seller. cbn zeta. by rewrite Hloop.
Qed.

End ClaimItems.

(** X9.  [claimOrderItems] succeeds exactly when the order exists, is neither
    closed nor cancelled nor assigned to a different seller, the seller is
    active, and at least one requested id passes the tests (its first claim
    is not held by another party and the stock covers the requested
    quantity).  It then reports exactly the ids that pass, claims each of
    them for the seller with the requested quantity, changes no other claim
    (a claim that is changed is the first claim of a reported id), moves an
    open order to in_progress and touches no inventory. *)
Theorem claimOrderItems_effect
  (w : World) (oid sellerId : string) (ids : option (list string))
  (now : string) :
  ordersOk w →
  let r := (claimOrderItems w oid sellerId ids now).1 in
  let w' := (claimOrderItems w oid sellerId ids now).2 in
  (success r = true ↔
   ∃ order seller,
     getOrderById w oid = Some order
     ∧ status order ≠ closed ∧ status order ≠ cancelled
     ∧ assignedToOther order sellerId = false
     ∧ getSellerById (sellersDir w) sellerId = Some seller
     ∧ seller_status seller = active
     ∧ List.filter (eligible (sellersDir w) sellerId (itemClaims order))
         (itemsToClaim ids (itemClaims order)) ≠ [])
  ∧ (success r = true →
     ∃ order order' seller,
       getOrderById w oid = Some order
       ∧ getSellerById (sellersDir w) sellerId = Some seller
       ∧ getOrderById w' oid = Some order'
       ∧ sellersDir w' = sellersDir w
       ∧ claimedItems r
         = Some (List.filter
                   (eligible (sellersDir w) sellerId (itemClaims order))
                   (itemsToClaim ids (itemClaims order)))
       ∧ status order'
         = (if bool_decide (status order = open) then in_progress
            else status order)
       ∧ assignedSellerId order' = assignedSellerId order
       ∧ (∀ b, b ∈ default [] (claimedItems r) →
               ∃ c, findClaim (itemClaims order') b = Some c
                    ∧ claimedBy sellerId c)
       ∧ (∀ b, b ∈ default [] (claimedItems r) →
               b ∈ itemsToClaim ids (itemClaims order))
       ∧ length (itemClaims order') = length (itemClaims order)
       ∧ (∀ i c, itemClaims order !! i = Some c →
                 itemClaims order' !! i = Some c
                 ∨ (itemClaims order' !! i
                    = Some (markClaimed sellerId (seller_discordId seller)
                              now c)
                    ∧ blueprintId c ∈ default [] (claimedItems r)
                    ∧ findClaim (itemClaims order) (blueprintId c) = Some c
                    ∧ ¬ heldByOther sellerId c
                    ∧ (requestedQty c
                       <= inject_Z
                            (getSellerBlueprintQuantity (sellersDir w) sellerId
                               (blueprintId c)))%Q))).
Proof.
  intros Hok. cbn zeta. split; [split|].
  - intros Hs.
    destruct (claimOrderItems_success _ _ _ _ _ Hs)
      as (order & seller & Hget & Hst & Hao & Hsel & Hact & Hne & _).
    exists order, seller. rewrite claimLoop_claimed in Hne.
    apply canSellerReceiveOrders_true in Hact.
    assert (Hnclosed : ¬ (status order = closed ∨ status order = cancelled)).
    { intros H. apply isClosedOrCancelled_true in H. congruence. }
    repeat split; try done; tauto.
  - intros (order & seller & Hget & Hn1 & Hn2 & Hao & Hsel & Hact & Hne).
    unfold claimOrderItems. rewrite Hget.
    assert (isClosedOrCancelled (status order) = false) as ->.
    { destruct (isClosedOrCancelled _) eqn:E; [|done].
      apply isClosedOrCancelled_true in E as [?|?]; done. }
    rewrite Hao, Hsel.
    apply canSellerReceiveOrders_true in Hact. rewrite Hact. cbn [negb].
    fold (itemsToClaim ids (itemClaims order)).
    pose proof (claimLoop_claimed (sellersDir w) sellerId
                  (seller_discordId seller) now
                  (itemsToClaim ids (itemClaims order)) (itemClaims order) [])
      as Hc.
    destruct (claimLoop _ _ _ _ _ _ _) as [claims' claimed].
    cbn [snd app] in Hc. subst claimed.
    by destruct (List.filter _ _).
  - intros Hs.
    destruct (claimOrderItems_success _ _ _ _ _ Hs)
      as (order & seller & Hget & Hst & Hao & Hsel & Hact & Hne & ->).
    cbn [fst snd]. eexists order, _, seller.
    split; [done|]. split; [done|].
    split; [by apply (getOrderById_updateOrder w oid order)|].
    cbn [claimedItems succeeded itemClaims status assignedSellerId
         setClaimState sellersDir updateOrder default].
    rewrite claimLoop_claimed. cbn [app].
    split; [done|]. split; [done|]. split; [done|]. split; [done|].
    split.
    { intros b Hb. apply list_elem_of_In, filter_In in Hb as [Hb Hel].
      apply claimLoop_claims_eligible; [by apply list_elem_of_In | done]. }
    split.
    { intros b Hb. apply list_elem_of_In, filter_In in Hb as [Hb _].
      by apply list_elem_of_In. }
    split.
    { pose proof (lineOf_claimLoop (sellersDir w) sellerId
                    (seller_discordId seller) now
                    (itemsToClaim ids (itemClaims order)) (itemClaims order) [])
        as Hlines.
      apply (f_equal length) in Hlines. by rewrite !length_map in Hlines. }
    intros i c Hi.
    destruct (claimLoop_lookup (sellersDir w) sellerId
                (seller_discordId seller) now
                (itemsToClaim ids (itemClaims order)) (itemClaims order) []
                i c Hi) as [H|(H & Hin & Hf & He)]; [by left|].
    right. split; [done|].
    split.
    { apply list_elem_of_In, filter_In. split; [by apply list_elem_of_In|done]. }
    split; [done|].
    by apply (eligible_found (sellersDir w) sellerId (itemClaims order)).
Qed.

Lemma claimOrderItems_effect_witness :
  ordersOk (submitted oneSeller threeOfA)
  ∧ success (claimOrderItems (submitted oneSeller threeOfA)
               "ORD-1" "S1" None "t2").1 = true
  ∧ claimedItems (claimOrderItems (submitted oneSeller threeOfA)
                    "ORD-1" "S1" None "t2").1 = Some ["A"].
Proof.
  split; [exact submitted_ok|].
  destruct (claimOrderItems_effect (submitted oneSeller threeOfA)
              "ORD-1" "S1" None "t2" submitted_ok) as [_ Heff].
  assert (Hs : success (claimOrderItems (submitted oneSeller threeOfA)
                          "ORD-1" "S1" None "t2").1 = true)
    by (vm_compute; reflexivity).
  split; [exact Hs|].
  destruct (Heff Hs) as (order & order' & seller & Hget & _ & _ & _ & -> & _).
  vm_compute in Hget. injection Hget as <-. vm_compute. reflexivity.
Defined.

Section ClaimTwice.

Implicit Types (dir : SellerDir) (claims : list OrderItemClaim).

Lemma blueprintIds_of_lines claims claims' :
  map lineOf claims' = map lineOf claims →
  map blueprintId claims' = map blueprintId claims.
Proof.
  intros H. apply (f_equal (map (fun l : string * string * Q => l.1.1))) in H.
  by rewrite !map_map in H.
Qed.

Lemma findClaim_unique claims c :
  claimIdsOk claims → c ∈ claims → findClaim claims (blueprintId c) = Some c.
Proof.
  unfold claimIdsOk, findClaim. intros Hnd Hc.
  induction claims as [|x rest IH]; [by apply elem_of_nil in Hc|].
  cbn [map] in Hnd. apply NoDup_cons in Hnd as [Hx Hnd]. cbn [List.find].
  apply elem_of_cons in Hc as [->|Hc].
  - by rewrite String.eqb_refl.
  - destruct (String.eqb_spec (blueprintId x) (blueprintId c)) as [Heq|_];
      [|by apply IH].
    exfalso. apply Hx. rewrite Heq.
    apply list_elem_of_In, in_map. by apply list_elem_of_In.
Qed.

(** After the loop has gone through every unclaimed item, no item that is
    still unclaimed passes the tests. *)
Lemma claim_all_leaves_none_eligible dir sellerId discord now claims b :
  claimIdsOk claims →
  let claims' :=
    (claimLoop dir sellerId discord now (itemsToClaim None claims) claims []).1
  in
  b ∈ itemsToClaim None claims' →
  eligible dir sellerId claims' b = false.
Proof.
  intros Hnd claims' Hb.
  assert (Hlines : map blueprintId claims' = map blueprintId claims)
    by apply blueprintIds_of_lines, lineOf_claimLoop.
  assert (Hnd' : claimIdsOk claims') by (unfold claimIdsOk; by rewrite Hlines).
  cbn [itemsToClaim] in Hb.
  apply list_elem_of_In, in_map_iff in Hb as (c' & <- & Hc').
  apply filter_In in Hc' as [Hc' Hun]. apply list_elem_of_In in Hc'.
  apply bool_decide_eq_true in Hun.
  destruct (eligible dir sellerId claims' (blueprintId c')) eqn:Hel; [|done].
  exfalso.
  pose proof (findClaim_unique claims' c' Hnd' Hc') as Hfind'.
  apply list_elem_of_lookup in Hc' as [i Hi'].
  assert (Hlen : length claims' = length claims).
  { apply (f_equal length) in Hlines. by rewrite !length_map in Hlines. }
  assert (is_Some (claims !! i)) as [c0 Hi].
  { apply lookup_lt_is_Some_2. rewrite <- Hlen. by eapply lookup_lt_Some. }
  assert (c0 = c') as ->.
  { destruct (claimLoop_lookup dir sellerId discord now
                (itemsToClaim None claims) claims [] i c0 Hi) as [H|[H _]];
      fold claims' in H; rewrite Hi' in H; injection H as ->; [done|].
    discriminate. }
  assert (Hc0 : c' ∈ claims) by (apply list_elem_of_lookup; by exists i).
  pose proof (findClaim_unique claims c' Hnd Hc0) as Hfind.
  assert (Hel0 : eligible dir sellerId claims (blueprintId c') = true).
  { unfold eligible in *. by rewrite Hfind; rewrite Hfind' in Hel. }
  assert (Hin : blueprintId c' ∈ itemsToClaim None claims).
  { cbn [itemsToClaim]. apply list_elem_of_In, in_map, filter_In.
    split; [by apply list_elem_of_In | by apply bool_decide_eq_true]. }
  destruct (claimLoop_claims_eligible dir sellerId discord now
              (itemsToClaim None claims) claims [] (blueprintId c') Hin Hel0)
    as (c & Hc & Hmine & _).
  fold claims' in Hc. rewrite Hfind' in Hc. injection Hc as <-. congruence.
Qed.

Lemma updateFoundClaim_fixed bid (h : OrderItemClaim → OrderItemClaim) claims :
  (∀ c, c ∈ claims → h c = c) → updateFoundClaim bid h claims = claims.
Proof.
  intros Hh. induction claims as [|c rest IH]; [done|]. cbn [updateFoundClaim].
  destruct (String.eqb (blueprintId c) bid).
  - rewrite Hh; [done | left].
  - rewrite IH; [done|]. intros x Hx. apply Hh. by right.
Qed.

Lemma updateFoundClaim_twice bid (f g : OrderItemClaim → OrderItemClaim) claims :
  (∀ c, blueprintId (f c) = blueprintId c) →
  updateFoundClaim bid g (updateFoundClaim bid f claims)
  = updateFoundClaim bid (fun c => g (f c)) claims.
Proof.
  intros Hf. induction claims as [|c rest IH]; [done|]. cbn [updateFoundClaim].
  destruct (String.eqb (blueprintId c) bid) eqn:E; cbn [updateFoundClaim].
  - by rewrite Hf, E.
  - by rewrite E, IH.
Qed.

Lemma setClaimState_same (o : StoredOrder) :
  setClaimState o (status o) (assignedSellerId o) (assignedSellerDiscordId o)
    (assignedAt o) (itemClaims o) = o.
Proof. by destruct o. Qed.

Lemma filter_all_false {A} (f : A → bool) (l : list A) :
  (∀ x, x ∈ l → f x = false) → List.filter f l = [].
Proof.
  intros H. induction l as [|a l IH]; [done|]. cbn [List.filter].
  rewrite H by left. apply IH. intros x Hx. apply H. by right.
Qed.

End ClaimTwice.

(** X10.  Claiming all items is idempotent: right after a successful
    [claimOrderItems] without ids, on an order whose claims name different
    blueprints, the same call answers "nothing to claim" and changes
    nothing. *)
Theorem claim_all_again_claims_nothing
  (w : World) (oid sellerId now now' : string) (order : StoredOrder) :
  ordersOk w →
  getOrderById w oid = Some order →
  claimIdsOk (itemClaims order) →
  success (claimOrderItems w oid sellerId None now).1 = true →
  let w' := (claimOrderItems w oid sellerId None now).2 in
  claimOrderItems w' oid sellerId None now' = (failure NothingToClaim, w').
Proof.
  intros Hok Hget Hnd Hs. cbn zeta.
  destruct (claimOrderItems_success _ _ _ _ _ Hs)
    as (order0 & seller & Hget0 & Hst & Hao & Hsel & Hact & _ & Heq).
  assert (order0 = order) as -> by congruence.
  rewrite Heq. cbn [snd].
  set (claims' := (claimLoop _ _ _ _ _ _ _).1).
  set (order1 := setClaimState _ _ _ _ _ _).
  assert (Hget1 : getOrderById (updateOrder w order1) oid = Some order1)
    by by apply (getOrderById_updateOrder w oid order).
  unfold claimOrderItems at 1. rewrite Hget1.
  assert (isClosedOrCancelled (status order1) = false) as ->.
  { subst order1. cbn [status setClaimState].
    by destruct (bool_decide (status order = open)). }
  assert (assignedToOther order1 sellerId = false) as -> by exact Hao.
  cbn [sellersDir updateOrder]. rewrite Hsel, Hact. cbn [negb].
  fold (itemsToClaim None (itemClaims order1)).
  match goal with
  | |- context [claimLoop ?d ?s ?x ?n ?l ?c ?a] =>
      pose proof (claimLoop_claimed d s x n l c a) as Hc;
      destruct (claimLoop d s x n l c a) as [claims2 claimed2]
  end.
  cbn [snd app] in Hc.
  assert (claimed2 = []) as ->; [|done].
  rewrite Hc. apply filter_all_false. intros b Hb.
  by apply claim_all_leaves_none_eligible.
Qed.

Lemma claim_all_again_claims_nothing_witness :
  ordersOk (submitted oneSeller threeOfA)
  ∧ claimIdsOk (itemClaims (demoOrder [demoClaim "A" "Alpha" 3]))
  ∧ let w' := (claimOrderItems (submitted oneSeller threeOfA)
                 "ORD-1" "S1" None "t2").2 in
    claimOrderItems w' "ORD-1" "S1" None "t3" = (failure NothingToClaim, w').
Proof.
  split; [exact submitted_ok|].
  split; [apply (bool_decide_unpack _); vm_compute; exact I|].
  apply (claim_all_again_claims_nothing (submitted oneSeller threeOfA)
           "ORD-1" "S1" "t2" "t3"
           (default (demoOrder [])
              (getOrderById (submitted oneSeller threeOfA) "ORD-1"))).
  - exact submitted_ok.
  - vm_compute. reflexivity.
  - apply (bool_decide_unpack _). vm_compute. exact I.
  - vm_compute. reflexivity.
Defined.

(** X11.  Claiming one item of an untouched open order and releasing it
    again gives back the store exactly as it was. *)
Theorem claim_then_release_restores
  (w : World) (oid sellerId bid now : string)
  (order : StoredOrder) (seller : SellerWithInventory) (c : OrderItemClaim) :
  ordersOk w →
  getOrderById w oid = Some order →
  status order = open →
  assignedSellerId order = None →
  (∀ x, x ∈ itemClaims order → pristine x) →
  findClaim (itemClaims order) bid = Some c →
  getSellerById (sellersDir w) sellerId = Some seller →
  seller_status seller = active →
  (requestedQty c
   <= inject_Z (getSellerBlueprintQuantity (sellersDir w) sellerId bid))%Q →
  let claiming := claimOrderItems w oid sellerId (Some [bid]) now in
  claiming.1 = succeeded (Some [bid])
  ∧ claimStatusOf claiming.2 oid bid = Some claimed
  ∧ releaseOrderItem claiming.2 oid sellerId bid = (succeeded (Some [bid]), w).
Proof.
  intros Hok Hget Hst Hassign Hpr Hfind Hsel Hact Hq. cbn zeta.
  destruct (findClaim_Some _ _ _ Hfind) as [Hc Hbid].
  destruct (Hpr c Hc) as (Hun & _).
  unfold claimOrderItems. rewrite Hget, Hst.
  assert (assignedToOther order sellerId = false) as ->
    by (unfold assignedToOther; by rewrite Hassign).
  change (isClosedOrCancelled open) with false. cbn iota. rewrite Hsel.
  apply canSellerReceiveOrders_true in Hact. rewrite Hact.
  cbn [negb orb bool_decide decide_rel]. cbn [claimLoop]. rewrite Hfind, Hun.
  rewrite bool_decide_eq_true_2 by done. cbn [negb andb].
  rewrite Hbid. apply ltb_ge in Hq. rewrite Hq. cbn [app fst snd].
  rewrite (bool_decide_eq_true_2 (open = open)) by done.
  set (mark := markClaimed sellerId (seller_discordId seller) now).
  set (order1 := setClaimState order in_progress _ _ _ _).
  assert (Hget1 : getOrderById (updateOrder w order1) oid = Some order1)
    by by apply (getOrderById_updateOrder w oid order).
  assert (Hfind1 : findClaim (itemClaims order1) bid = Some (mark c))
    by by apply updateFoundClaim_find.
  split; [done|]. split.
  { unfold claimStatusOf. by rewrite Hget1, Hfind1. }
  unfold releaseOrderItem. rewrite Hget1, Hfind1.
  change (status order1) with in_progress.
  change (isClosedOrCancelled in_progress) with false.
  change (isSeller (claimedBySellerId (mark c)) sellerId)
    with (String.eqb sellerId sellerId).
  rewrite String.eqb_refl.
  change (claimStatus (mark c)) with claimed.
  rewrite (bool_decide_eq_false_2 (claimed = fulfilled)) by done.
  cbn [negb]. cbn iota.
  change (itemClaims order1) with (updateFoundClaim bid mark (itemClaims order)).
  change (assignedSellerId order1) with (assignedSellerId order).
  change (assignedSellerDiscordId order1) with (assignedSellerDiscordId order).
  change (assignedAt order1) with (assignedAt order).
  rewrite updateFoundClaim_twice by done.
  rewrite (updateFoundClaim_fixed bid _ (itemClaims order)).
  2:{ intros x Hx. destruct (Hpr x Hx) as (H1 & H2 & H3 & H4 & H5).
      destruct x. cbn in *. by subst. }
  assert (Hnone : ∀ p, (∀ x, p x = true → bool_decide (claimStatus x = unclaimed) = false) →
            existsb p (itemClaims order) = false).
  { intros p Hp. apply existsb_false. intros x Hx.
    destruct (p x) eqn:E; [|done]. apply Hp in E.
    destruct (Hpr x Hx) as (H1 & _). by rewrite bool_decide_eq_true_2 in E. }
  rewrite (Hnone (fun c0 => isSeller (claimedBySellerId c0) sellerId
                            && negb (bool_decide (claimStatus c0 = unclaimed)))).
  2:{ intros x Hx. apply andb_true_iff in Hx as [_ Hx].
      by apply negb_true_iff in Hx. }
  rewrite (Hnone (fun c0 => negb (bool_decide (claimStatus c0 = unclaimed)))).
  2:{ intros x Hx. by apply negb_true_iff in Hx. }
  rewrite Hassign. cbn [isSeller andb].
  f_equal. unfold updateOrder. cbn [sellersDir ordersDir orderId setClaimState].
  rewrite insert_insert_eq.
  change (orderId order1) with (orderId order).
  rewrite (getOrderById_key _ _ _ Hok Hget).
  unfold getOrderById in Hget.
  destruct w as [sd od]. cbn [sellersDir ordersDir] in *. f_equal.
  apply insert_id. rewrite Hget. f_equal.
  subst order1. clear -Hst Hassign. destruct order. cbn in *. by subst.
Qed.

Lemma claim_then_release_restores_witness :
  let w := submitted oneSeller threeOfA in
  let claiming := claimOrderItems w "ORD-1" "S1" (Some ["A"]) "t2" in
  claiming.1 = succeeded (Some ["A"])
  ∧ claimStatusOf claiming.2 "ORD-1" "A" = Some claimed
  ∧ releaseOrderItem claiming.2 "ORD-1" "S1" "A" = (succeeded (Some ["A"]), w).
Proof.
  apply (claim_then_release_restores (submitted oneSeller threeOfA)
           "ORD-1" "S1" "A" "t2"
           (default (demoOrder [])
              (getOrderById (submitted oneSeller threeOfA) "ORD-1"))
           (default pendingSeller (getSellerById oneSeller "S1"))
           (default (demoClaim "A" "Alpha" 3)
              (findClaim
                 (itemClaims
                    (default (demoOrder [])
                       (getOrderById (submitted oneSeller threeOfA) "ORD-1")))
                 "A"))).
  - exact submitted_ok.
  - vm_compute. reflexivity.
  - vm_compute. reflexivity.
  - vm_compute. reflexivity.
  - apply Forall_forall. vm_compute. repeat constructor.
  - vm_compute. reflexivity.
  - vm_compute. reflexivity.
  - vm_compute. reflexivity.
  - vm_compute. discriminate.
Defined.

(** ** The order that [saveOrder] stores *)

Section SaveOrder.

Lemma existsb_blueprintId claims b :
  existsb (fun c => String.eqb (blueprintId c) b) claims = true
  ↔ b ∈ map blueprintId claims.
Proof.
  induction claims as [|c rest IH]; cbn [existsb map].
  - split; [done | by intros ?%elem_of_nil].
  - rewrite orb_true_iff, elem_of_cons, IH.
    split; (intros [H|H]; [left|by right]).
    + by apply String.eqb_eq in H.
    + by apply String.eqb_eq.
Qed.

Lemma find_app_l {A} (p : A → bool) (l1 l2 : list A) x :
  List.find p l1 = Some x → List.find p (l1 ++ l2) = Some x.
Proof.
  induction l1 as [|a l1 IH]; [done|]. cbn [List.find app].
  destruct (p a); [done | exact IH].
Qed.

Lemma find_app_r {A} (p : A → bool) (l1 l2 : list A) :
  List.find p l1 = None → List.find p (l1 ++ l2) = List.find p l2.
Proof.
  induction l1 as [|a l1 IH]; [done|]. cbn [List.find app].
  destruct (p a); [done | exact IH].
Qed.

Lemma find_line_None (lines : list SellerGroupItem) b :
  List.find (fun it => String.eqb (gi_blueprintId it) b) lines = None
  ↔ b ∉ map gi_blueprintId lines.
Proof.
  induction lines as [|it rest IH]; cbn [List.find map].
  - split; [intros _; apply not_elem_of_nil | done].
  - rewrite not_elem_of_cons.
    destruct (String.eqb_spec (gi_blueprintId it) b) as [->|Hne].
    + split; [done | by intros [? _]].
    + rewrite IH. split; [by intros ?; split | by intros [_ ?]].
Qed.

Lemma addInitialClaim_claimsFor seen claims item :
  claimsFor seen claims →
  claimsFor (seen ++ [item]) (addInitialClaim claims item).
Proof.
  intros (Hnd & Hids & Hcl). unfold addInitialClaim.
  destruct (existsb _ claims) eqn:Hex.
  - apply existsb_blueprintId in Hex. split; [done|]. split.
    + intros b. rewrite map_app, elem_of_app, Hids. cbn [map].
      split; [by left|].
      intros [?| ->%list_elem_of_singleton]; [done | by apply Hids].
    + intros c Hc. destruct (Hcl c Hc) as (? & ? & it & Hf & ? & ?).
      split; [done|]. split; [done|]. exists it. split; [|done].
      by apply find_app_l.
  - assert (Hnew : gi_blueprintId item ∉ map blueprintId claims).
    { intros Hin. apply existsb_blueprintId in Hin. congruence. }
    split; [|split].
    + rewrite map_app. cbn [map blueprintId]. apply NoDup_app.
      split; [done|]. split; [|apply NoDup_singleton].
      intros b Hb ->%list_elem_of_singleton. done.
    + intros b. rewrite !map_app, !elem_of_app, Hids. done.
    + intros c [Hc| ->%list_elem_of_singleton]%elem_of_app.
      * destruct (Hcl c Hc) as (? & ? & it & Hf & ? & ?).
        split; [done|]. split; [done|]. exists it. split; [|done].
        by apply find_app_l.
      * split; [done|]. split; [done|]. exists item. cbn [blueprintId].
        split; [|done].
        rewrite find_app_r.
        { cbn [List.find]. by rewrite String.eqb_refl. }
        apply find_line_None. by rewrite <- Hids.
Qed.

Lemma fold_addInitialClaim_claimsFor lines seen claims :
  claimsFor seen claims →
  claimsFor (seen ++ lines) (fold_left addInitialClaim lines claims).
Proof.
  revert seen claims. induction lines as [|item rest IH]; intros seen claims H.
  - by rewrite app_nil_r.
  - cbn [fold_left]. rewrite (cons_middle item seen rest), (assoc_L (++)).
    apply IH. by apply addInitialClaim_claimsFor.
Qed.

Lemma initialClaims_claimsFor groups :
  claimsFor (flat_map sg_items groups) (initialClaims groups).
Proof.
  unfold initialClaims.
  enough (∀ seen claims, claimsFor seen claims →
            claimsFor (seen ++ flat_map sg_items groups)
              (fold_left (fun claims g =>
                            fold_left addInitialClaim (sg_items g) claims)
                         groups claims)) as H.
  { apply (H [] []). split; [constructor|]. split; [done|].
    by intros c ?%elem_of_nil. }
  induction groups as [|g rest IH]; intros seen claims H.
  - cbn. by rewrite app_nil_r.
  - cbn [fold_left flat_map]. rewrite (assoc_L (++)).
    apply IH. by apply fold_addInitialClaim_claimsFor.
Qed.

End SaveOrder.

(** X12.  [saveOrder] stores the order under its id as an open, unassigned
    order whose claims name each blueprint of the seller groups exactly
    once; every claim is unclaimed without any trace of a claim and carries
    the name and the quantity of the first line with its blueprint. *)
Theorem saveOrder_initial_state (w : World) (p : ProcessedOrder) :
  let stored := (saveOrder w p).1 in
  let lines := flat_map sg_items (po_sellerGroups p) in
  getOrderById (saveOrder w p).2 (po_orderId p) = Some stored
  ∧ orderId stored = po_orderId p
  ∧ status stored = open
  ∧ assignedSellerId stored = None
  ∧ sellerStates stored = None
  ∧ claimIdsOk (itemClaims stored)
  ∧ (∀ b, b ∈ map blueprintId (itemClaims stored)
          ↔ b ∈ map gi_blueprintId lines)
  ∧ (∀ c, c ∈ itemClaims stored →
       pristine c ∧ fulfilledAt c = None
       ∧ ∃ item,
           List.find (fun it => String.eqb (gi_blueprintId it) (blueprintId c))
                     lines = Some item
           ∧ blueprintName c = gi_blueprintName item
           ∧ requestedQty c = gi_requestedQty item).
Proof.
  cbn zeta. destruct (initialClaims_claimsFor (po_sellerGroups p))
    as (Hnd & Hids & Hcl).
  split.
  { unfold getOrderById, saveOrder. cbn [fst snd ordersDir].
    apply lookup_insert_eq. }
  repeat (split; [done|]). done.
Qed.

(** ** The seller groups of [resolveOrderToSellers] *)

Section Groups.

Implicit Types (groups : list SellerOrderGroup) (seller : SellerWithInventory)
  (row : SellerGroupItem) (sid : string).

Lemma pushToGroup_ids groups seller row :
  map sg_sellerId (pushToGroup groups seller row)
  = if bool_decide (seller_id seller ∈ map sg_sellerId groups)
    then map sg_sellerId groups
    else (map sg_sellerId groups ++ [seller_id seller])%list.
Proof.
  induction groups as [|g rest IH]; cbn [pushToGroup map].
  - by rewrite bool_decide_eq_false_2 by apply not_elem_of_nil.
  - destruct (String.eqb_spec (sg_sellerId g) (seller_id seller)) as [He|Hne].
    + rewrite bool_decide_eq_true_2 by (rewrite He; left). done.
    + cbn [map]. rewrite IH.
      destruct (decide (seller_id seller ∈ map sg_sellerId rest)) as [Hin|Hni].
      * rewrite !bool_decide_eq_true_2; [done| by right | done].
      * rewrite !bool_decide_eq_false_2; [done| |done].
        intros [?|?]%elem_of_cons; [congruence | done].
Qed.

Lemma groupRows_absent groups sid :
  sid ∉ map sg_sellerId groups → groupRows groups sid = [].
Proof.
  induction groups as [|g rest IH]; [done|]. cbn [map groupRows flat_map].
  intros [Hne Hni]%not_elem_of_cons.
  destruct (String.eqb_spec (sg_sellerId g) sid); [congruence|].
  by apply IH.
Qed.


Lemma pushToGroup_rows groups seller row sid :
  NoDup (map sg_sellerId groups) →
  groupRows (pushToGroup groups seller row) sid
  = (groupRows groups sid
     ++ (if String.eqb (seller_id seller) sid then [row] else []))%list.
Proof.
  induction groups as [|g rest IH]; cbn [pushToGroup map].
  - intros _. cbn [groupRows flat_map sg_sellerId sg_items].
    by destruct (String.eqb (seller_id seller) sid).
  - intros [Hni Hnd]%NoDup_cons.
    destruct (String.eqb_spec (sg_sellerId g) (seller_id seller)) as [He|Hne].
    + cbn [groupRows flat_map sg_sellerId sg_items].
      fold (groupRows rest sid). rewrite He.
      destruct (String.eqb_spec (seller_id seller) sid) as [Hs|Hs].
      * rewrite groupRows_absent by congruence.
        by rewrite !app_nil_r.
      * by rewrite app_nil_r.
    + cbn [groupRows flat_map]. fold (groupRows rest sid).
      fold (groupRows (pushToGroup rest seller row) sid).
      rewrite IH by done. by rewrite (assoc_L (++)).
Qed.

Lemma pushToGroup_ok sellers groups seller row :
  seller ∈ sellers → groupsOk sellers groups →
  groupsOk sellers (pushToGroup groups seller row).
Proof.
  intros Hs (Hnd & Hne & Hdata). split; [|split].
  - rewrite pushToGroup_ids. case_bool_decide as Hin; [done|].
    apply NoDup_app. split; [done|]. split; [|apply NoDup_singleton].
    intros x Hx ->%list_elem_of_singleton. done.
  - clear Hnd Hdata. induction groups as [|g rest IH]; cbn [pushToGroup].
    + intros g ->%list_elem_of_singleton. done.
    + destruct (String.eqb (sg_sellerId g) (seller_id seller)).
      * intros g' [->|Hin]%elem_of_cons.
        -- cbn. by destruct (sg_items g).
        -- apply Hne. by right.
      * intros g' [->|Hin]%elem_of_cons.
        -- apply Hne. by left.
        -- apply IH; [|done]. intros x Hx. apply Hne. by right.
  - clear Hnd Hne. induction groups as [|g rest IH]; cbn [pushToGroup].
    + intros g ->%list_elem_of_singleton. by exists seller.
    + destruct (String.eqb (sg_sellerId g) (seller_id seller)).
      * intros g' [->|Hin]%elem_of_cons.
        -- apply (Hdata g). by left.
        -- apply Hdata. by right.
      * intros g' [->|Hin]%elem_of_cons.
        -- apply Hdata. by left.
        -- apply IH; [|done]. intros x Hx. apply Hdata. by right.
Qed.

(** One item over a list of sellers. *)
Lemma resolveItem_spec sellers all groups item :
  (∀ s, s ∈ sellers → s ∈ all) →
  groupsOk all groups →
  groupsOk all (resolveItem sellers groups item)
  ∧ ∀ sid, groupRows (resolveItem sellers groups item) sid
           = (groupRows groups sid ++ rowsFor sellers [item] sid)%list.
Proof.
  unfold resolveItem, rowsFor. cbn [flat_map]. 
  revert groups. induction sellers as [|s rest IH]; intros groups Hall Hok.
  - split; [done|]. intros sid. cbn. by rewrite app_nil_r.
  - cbn [fold_left flat_map].
    fold (quantityOf (seller_inventory s) (ri_blueprintId item)).
    destruct (0 <? quantityOf (seller_inventory s) (ri_blueprintId item))
      eqn:Hq.
    + destruct (IH (pushToGroup groups s (rowOf item s))) as [Hok' Hrows].
      { intros x Hx. apply Hall. by right. }
      { apply pushToGroup_ok; [apply Hall; by left | done]. }
      split; [exact Hok'|]. intros sid. rewrite Hrows.
      rewrite pushToGroup_rows by apply Hok.
      rewrite !app_nil_r, andb_true_r.
      rewrite <- !(assoc_L (++)). do 2 f_equal.
    + destruct (IH groups) as [Hok' Hrows]; [|done|].
      { intros x Hx. apply Hall. by right. }
      split; [exact Hok'|]. intros sid. rewrite Hrows.
      rewrite andb_false_r. done.
Qed.

Lemma resolveItems_spec sellers groups items :
  groupsOk sellers groups →
  groupsOk sellers (fold_left (resolveItem sellers) items groups)
  ∧ ∀ sid, groupRows (fold_left (resolveItem sellers) items groups) sid
           = (groupRows groups sid ++ rowsFor sellers items sid)%list.
Proof.
  revert groups. induction items as [|item rest IH]; intros groups Hok.
  - split; [done|]. intros sid. cbn. by rewrite app_nil_r.
  - cbn [fold_left].
    destruct (resolveItem_spec sellers sellers groups item) as [Hok1 Hrows1];
      [done|done|].
    destruct (IH _ Hok1) as [Hok2 Hrows2]. split; [done|].
    intros sid. rewrite Hrows2, Hrows1.
    unfold rowsFor. cbn [flat_map]. rewrite app_nil_r.
    by rewrite (assoc_L (++)).
Qed.

Lemma groupRows_nonempty groups sid :
  (∀ g, g ∈ groups → sg_items g ≠ []) →
  sid ∈ map sg_sellerId groups ↔ groupRows groups sid ≠ [].
Proof.
  intros Hne. split.
  - induction groups as [|g rest IH]; [by intros ?%elem_of_nil|].
    cbn [map groupRows flat_map]. intros Hin.
    destruct (String.eqb_spec (sg_sellerId g) sid) as [He|Hn].
    + intros [H _]%app_eq_nil. revert H. apply Hne. by left.
    + apply elem_of_cons in Hin as [?|Hin]; [congruence|].
      apply IH; [|done]. intros x Hx. apply Hne. by right.
  - intros H. destruct (decide (sid ∈ map sg_sellerId groups)); [done|].
    by rewrite groupRows_absent in H.
Qed.

Lemma elem_of_flat_map {A B} (f : A → list B) (l : list A) (y : B) :
  y ∈ flat_map f l ↔ ∃ x, x ∈ l ∧ y ∈ f x.
Proof.
  rewrite list_elem_of_In, in_flat_map. split.
  - intros (x & Hx & Hy). exists x. by rewrite !list_elem_of_In.
  - intros (x & Hx & Hy). exists x. by rewrite <- !list_elem_of_In.
Qed.

Lemma elem_of_rowsFor sellers items sid row :
  row ∈ rowsFor sellers items sid ↔
  ∃ item seller,
    item ∈ items ∧ seller ∈ sellers ∧ seller_id seller = sid
    ∧ 0 < quantityOf (seller_inventory seller) (ri_blueprintId item)
    ∧ row = rowOf item seller.
Proof.
  unfold rowsFor. rewrite elem_of_flat_map. split.
  - intros (item & Hi & Hrow). apply elem_of_flat_map in Hrow
      as (seller & Hs & Hrow).
    destruct (String.eqb_spec (seller_id seller) sid) as [He|Hn];
      [|by apply elem_of_nil in Hrow].
    destruct (0 <? quantityOf _ _) eqn:Hq; cbn [andb] in Hrow;
      [|by apply elem_of_nil in Hrow].
    apply list_elem_of_singleton in Hrow. apply Z.ltb_lt in Hq.
    by exists item, seller.
  - intros (item & seller & Hi & Hs & Hid & Hq & ->). exists item.
    split; [done|]. apply elem_of_flat_map. exists seller. split; [done|].
    subst sid. rewrite String.eqb_refl.
    apply Z.ltb_lt in Hq. rewrite Hq. cbn [andb]. by left.
Qed.

Variable localeCompare : string → string → Z.


Lemma resolveOrderToSellers_ids dir items sid :
  let sellers := getActiveSellers localeCompare dir in
  let groups := resolveOrderToSellers localeCompare dir items in
  sid ∈ map sg_sellerId groups ↔
  ∃ item seller,
    item ∈ items ∧ seller ∈ sellers ∧ seller_id seller = sid
    ∧ 0 < quantityOf (seller_inventory seller) (ri_blueprintId item).
Proof.
  cbn zeta. unfold resolveOrderToSellers.
  set (sellers := getActiveSellers localeCompare dir).
  destruct (resolveItems_spec sellers [] items) as [(Hnd & Hne & _) Hrows].
  { split; [constructor|]. split; intros g Hg; by apply elem_of_nil in Hg. }
  rewrite (groupRows_nonempty _ sid Hne), Hrows.
  cbn [groupRows flat_map app]. split.
  - intros H. destruct (rowsFor sellers items sid) as [|row rest] eqn:E;
      [done|].
    assert (Hrow : row ∈ rowsFor sellers items sid) by (rewrite E; left).
    apply elem_of_rowsFor in Hrow as (item & seller & ? & ? & ? & ? & _).
    by exists item, seller.
  - intros (item & seller & Hi & Hs & Hid & Hq) E.
    assert (Hrow : rowOf item seller ∈ rowsFor sellers items sid).
    { apply elem_of_rowsFor. by exists item, seller. }
    rewrite E in Hrow. by apply elem_of_nil in Hrow.
Qed.

End Groups.


(** ** From the request to the stored order *)

Section Submission.

Variable localeCompare : string → string → Z.
Variable trim : string → string.
Variable catalogName : string → option string.


Lemma find_none_iff {A} (p : A → bool) (l : list A) :
  List.find p l = None ↔ ∀ x, x ∈ l → p x = false.
Proof.
  induction l as [|a l IH]; cbn [List.find].
  - split; [by intros _ x ?%elem_of_nil | done].
  - destruct (p a) eqn:E.
    + split; [done|]. intros H. specialize (H a (list_elem_of_here _ _)).
      congruence.
    + rewrite IH. split.
      * intros H x [->|Hx]%elem_of_cons; auto.
      * intros H x Hx. apply H. by right.
Qed.



End Submission.


(** ** Bulk updates of an inventory *)

Section Bulk.

Implicit Types (dir : SellerDir) (inv : list SellerInventoryItem).

Lemma withInventory_twice seller inv inv' now :
  withInventory (withInventory seller inv now) inv' now
  = withInventory seller inv' now.
Proof. done. Qed.

Lemma single_updates_present updates dir sellerId now seller :
  getSellerById dir sellerId = Some seller →
  updates ≠ [] →
  fold_left (fun d u => (updateSellerInventoryItem d sellerId u.1 u.2 now).2)
            updates dir
  = <[sellerId :=
        withInventory seller
          (fold_left (fun inv u => applyInventoryUpdate inv u.1 u.2)
                     updates (seller_inventory seller)) now]> dir.
Proof.
  revert dir seller. induction updates as [|u rest IH]; [done|].
  intros dir seller Hget _. cbn [fold_left].
  rewrite (updateSellerInventoryItem_present _ _ _ _ _ _ Hget). cbn [snd].
  destruct rest as [|u' rest']; [done|].
  rewrite (IH _ (withInventory seller
                   (applyInventoryUpdate (seller_inventory seller) u.1 u.2)
                   now)); [|apply lookup_insert_eq|done].
  by rewrite insert_insert_eq.
Qed.

Lemma single_updates_absent updates dir sellerId now :
  getSellerById dir sellerId = None →
  fold_left (fun d u => (updateSellerInventoryItem d sellerId u.1 u.2 now).2)
            updates dir = dir.
Proof.
  intros Hget. induction updates as [|u rest IH]; [done|]. cbn [fold_left].
  by rewrite (updateSellerInventoryItem_absent _ _ _ _ _ Hget).
Qed.




End Bulk.

(** X15.  A bulk update with at least one entry leaves the sellers
    directory as the single updates of its entries, made one after the other
    in the order of the list, leave it, and answers true exactly when the
    seller exists. *)
Theorem bulk_update_is_sequence
  (dir : SellerDir) (sellerId : string) (updates : list (string * Q))
  (now : string) :
  updates ≠ [] →
  updateSellerInventoryBulk dir sellerId updates now
  = (bool_decide (is_Some (getSellerById dir sellerId)),
     fold_left
       (fun d u => (updateSellerInventoryItem d sellerId u.1 u.2 now).2)
       updates dir).
Proof.
  intros Hne. unfold updateSellerInventoryBulk.
  destruct (getSellerById dir sellerId) as [seller|] eqn:Hget.
  - rewrite (single_updates_present updates dir sellerId now seller Hget Hne).
    by rewrite bool_decide_eq_true_2.
  - rewrite (single_updates_absent updates dir sellerId now Hget).
    rewrite bool_decide_eq_false_2; [done|]. by intros [? ?].
Qed.

Lemma bulk_update_is_sequence_witness :
  updateSellerInventoryBulk demoSellers "S1" [("A", 0%Q); ("C", 4%Q)] "t5"
  = (bool_decide (is_Some (getSellerById demoSellers "S1")),
     fold_left
       (fun d u => (updateSellerInventoryItem d "S1" u.1 u.2 "t5").2)
       [("A", 0%Q); ("C", 4%Q)] demoSellers).
Proof. apply (bulk_update_is_sequence demoSellers "S1"). discriminate. Defined.



(** ** The flags and counters of a seller's view *)

Section ViewFlags.

Implicit Types (dir : SellerDir) (claims : list OrderItemClaim).

Lemma viewLoop_spec dir sellerId assignee claims :
  viewLoop dir sellerId assignee claims
  = (map (viewItem dir sellerId)
         (List.filter (canSee dir sellerId assignee) claims),
     length (List.filter (claimable dir sellerId) claims),
     length (List.filter (fun c => isSeller (claimedBySellerId c) sellerId)
                         claims),
     forallb (fun c => negb (bool_decide (claimStatus c = unclaimed))
                       || (canSee dir sellerId assignee c
                           && Number.geb
                                (inject_Z (getSellerBlueprintQuantity dir
                                             sellerId (blueprintId c)))
                                (requestedQty c)))
             claims).
Proof.
  induction claims as [|c rest IH]; [done|].
  cbn [viewLoop List.filter forallb]. rewrite IH. clear IH.
  set (qty := getSellerBlueprintQuantity dir sellerId (blueprintId c)).
  assert (Hsee : canSee dir sellerId assignee c
                 = isSeller (claimedBySellerId c) sellerId
                   || bool_decide (claimStatus c = unclaimed) && (0 <? qty)
                   || assignee) by done.
  assert (Hcl : claimable dir sellerId c
                = bool_decide (claimStatus c = unclaimed) && (0 <? qty))
    by done.
  rewrite Hsee, Hcl, (geb_ltb (inject_Z qty) (requestedQty c)).
  clear Hsee Hcl.
  destruct (isSeller (claimedBySellerId c) sellerId),
    (bool_decide (claimStatus c = unclaimed)), (0 <? qty), assignee,
    (Number.ltb (inject_Z qty) (requestedQty c)); reflexivity.
Qed.

Lemma view_all_visible dir sellerId assignee claims :
  length (List.filter (canSee dir sellerId assignee) claims) = length claims →
  List.filter (canSee dir sellerId assignee) claims = claims.
Proof.
  induction claims as [|c rest IH]; [done|]. cbn [List.filter].
  destruct (canSee dir sellerId assignee c) eqn:E; cbn [length].
  - intros [= H]. f_equal. by apply IH.
  - intros H. pose proof (filter_length_le (canSee dir sellerId assignee) rest).
    lia.
Qed.

Lemma counters_le_visible dir sellerId assignee claims :
  (length (List.filter (claimable dir sellerId) claims)
   + length (List.filter (fun c => isSeller (claimedBySellerId c) sellerId)
                         claims)
   ≤ 2 * length (List.filter (canSee dir sellerId assignee) claims))%nat.
Proof.
  induction claims as [|c rest IH]; [done|]. cbn [List.filter].
  set (qty := getSellerBlueprintQuantity dir sellerId (blueprintId c)).
  assert (Hsee : canSee dir sellerId assignee c
                 = isSeller (claimedBySellerId c) sellerId
                   || bool_decide (claimStatus c = unclaimed) && (0 <? qty)
                   || assignee) by done.
  assert (Hcl : claimable dir sellerId c
                = bool_decide (claimStatus c = unclaimed) && (0 <? qty))
    by done.
  rewrite Hsee, Hcl. clear Hsee Hcl.
  destruct (isSeller (claimedBySellerId c) sellerId),
    (bool_decide (claimStatus c = unclaimed)), (0 <? qty), assignee;
    cbn [andb orb length]; lia.
Qed.

Lemma buildSellerOrderView_spec w order sellerId sellerDiscordId v :
  buildSellerOrderView w order sellerId sellerDiscordId = Some v →
  let dir := sellersDir w in
  let assignee := isSeller (assignedSellerId order) sellerId in
  v_orderId v = orderId order
  ∧ v_status v = status order
  ∧ v_isAssignedToMe v = assignee
  ∧ v_isClosedByMe v = isOrderClosedBySeller order sellerId
  ∧ v_items v = map (viewItem dir sellerId)
                    (List.filter (canSee dir sellerId assignee)
                                 (itemClaims order))
  ∧ v_claimableItemCount v
    = length (List.filter (claimable dir sellerId) (itemClaims order))
  ∧ v_myClaimedItemCount v
    = length (List.filter (fun c => isSeller (claimedBySellerId c) sellerId)
                          (itemClaims order))
  ∧ v_canAcceptFull v
    = forallb (fun c => negb (bool_decide (claimStatus c = unclaimed))
                        || (canSee dir sellerId assignee c
                            && Number.geb
                                 (inject_Z (getSellerBlueprintQuantity dir
                                              sellerId (blueprintId c)))
                                 (requestedQty c)))
              (itemClaims order)
      && forallb (fun c => bool_decide (claimStatus c = unclaimed))
                 (itemClaims order)
      && (length (List.filter (canSee dir sellerId assignee)
                              (itemClaims order))
          =? length (itemClaims order))%nat.
Proof.
  unfold buildSellerOrderView. rewrite viewLoop_spec. cbn zeta.
  remember (map (viewItem (sellersDir w) sellerId) _) as items eqn:E.
  assert (Hlen : length items
                 = length (List.filter
                             (canSee (sellersDir w) sellerId
                                (isSeller (assignedSellerId order) sellerId))
                             (itemClaims order)))
    by (rewrite E; apply length_map).
  destruct items as [|i items']; [done|]. intros [= <-].
  rewrite <- Hlen. repeat (split; [reflexivity|]). reflexivity.
Qed.

Lemma canAcceptFull_acceptable w order sellerId sellerDiscordId v :
  buildSellerOrderView w order sellerId sellerDiscordId = Some v →
  v_canAcceptFull v = true ↔
  ∀ c, c ∈ itemClaims order →
       claimStatus c = unclaimed
       ∧ (requestedQty c
          <= inject_Z (getSellerBlueprintQuantity (sellersDir w) sellerId
                         (blueprintId c)))%Q
       ∧ canSee (sellersDir w) sellerId
           (isSeller (assignedSellerId order) sellerId) c = true.
Proof.
  intros Hv. apply buildSellerOrderView_spec in Hv
    as (_ & _ & _ & _ & _ & _ & _ & ->).
  rewrite !andb_true_iff, !forallb_forall, Nat.eqb_eq. split.
  - intros [[Hacc Hun] Hlen] c Hc. apply list_elem_of_In in Hc.
    specialize (Hacc c Hc). specialize (Hun c Hc).
    apply bool_decide_eq_true in Hun.
    rewrite bool_decide_eq_true_2 in Hacc by done. cbn [negb orb] in Hacc.
    apply andb_true_iff in Hacc as [Hsee Hq]. apply geb_ge in Hq. done.
  - intros H. split; [split|].
    + intros c Hc. apply list_elem_of_In in Hc.
      destruct (H c Hc) as (Hun & Hq & Hsee).
      rewrite Hsee. apply geb_ge in Hq. rewrite Hq.
      apply orb_true_r.
    + intros c Hc. apply list_elem_of_In in Hc.
      apply bool_decide_eq_true. by destruct (H c Hc).
    + f_equal. clear -H. induction (itemClaims order) as [|c rest IH]; [done|].
      cbn [List.filter]. destruct (H c) as (_ & _ & ->); [left|].
      f_equal. apply IH. intros x Hx. apply H. by right.
Qed.

End ViewFlags.

(** X17.  In a seller's view of an order the counter of claimable items
    counts the unclaimed items of the order that the seller stocks, the
    counter of own items counts the items whose claiming seller is this
    seller, and the flag "can accept in full" is set exactly when every item
    of the order is unclaimed, visible to the seller and requested in a
    quantity that the seller's stock covers. *)
Theorem seller_view_flags
  (w : World) (order : StoredOrder) (sellerId sellerDiscordId : string)
  (v : SellerOrderView) :
  buildSellerOrderView w order sellerId sellerDiscordId = Some v →
  v_orderId v = orderId order
  ∧ v_status v = status order
  ∧ v_isAssignedToMe v = isSeller (assignedSellerId order) sellerId
  ∧ v_claimableItemCount v
    = length (List.filter (claimable (sellersDir w) sellerId)
                          (itemClaims order))
  ∧ v_myClaimedItemCount v
    = length (List.filter (fun c => isSeller (claimedBySellerId c) sellerId)
                          (itemClaims order))
  ∧ (v_claimableItemCount v + v_myClaimedItemCount v
     ≤ 2 * length (v_items v))%nat
  ∧ (v_canAcceptFull v = true ↔
     ∀ c, c ∈ itemClaims order →
          claimStatus c = unclaimed
          ∧ (requestedQty c
             <= inject_Z (getSellerBlueprintQuantity (sellersDir w) sellerId
                            (blueprintId c)))%Q
          ∧ canSee (sellersDir w) sellerId
              (isSeller (assignedSellerId order) sellerId) c = true)
  ∧ (v_canAcceptFull v = true →
     map vi_blueprintId (v_items v) = map blueprintId (itemClaims order)).
Proof.
  intros Hv.
  pose proof (canAcceptFull_acceptable w order sellerId sellerDiscordId v Hv)
    as Hfull.
  pose proof (buildSellerOrderView_spec w order sellerId sellerDiscordId v Hv)
    as (Hid & Hst & Has & _ & Hitems & Hcl & Hmine & Hflag).
  cbn zeta in *.
  repeat (split; [done|]). split; [|split; [done|]].
  - rewrite Hcl, Hmine, Hitems, length_map. apply counters_le_visible.
  - intros Hf. rewrite Hitems, map_map. cbn [viewItem vi_blueprintId].
    f_equal. apply view_all_visible.
    rewrite Hflag in Hf. apply andb_true_iff in Hf as [_ Hf].
    by apply Nat.eqb_eq in Hf.
Qed.

Lemma seller_view_flags_witness :
  ∃ v, buildSellerOrderView (submitted oneSeller threeOfA)
         (demoOrder [demoClaim "A" "Alpha" 3]) "S1" "alice" = Some v
       ∧ v_claimableItemCount v = 1%nat
       ∧ v_myClaimedItemCount v = 0%nat.
Proof.
  eexists. split; [vm_compute; reflexivity|].
  match goal with
  | |- v_claimableItemCount ?v = _ ∧ _ =>
      destruct (seller_view_flags (submitted oneSeller threeOfA)
                  (demoOrder [demoClaim "A" "Alpha" 3]) "S1" "alice" v)
        as (_ & _ & _ & Hc & Hm & _)
  end.
  - vm_compute. reflexivity.
  - split; [rewrite Hc | rewrite Hm]; vm_compute; reflexivity.
Defined.

(** X18.  What the active list offers can be done: when a view of the
    seller's active order list says that the order can be accepted in full,
    [acceptOrderFull] of that order by that seller succeeds and claims the
    items of the view, all of them. *)
Theorem listed_order_accepts_in_full
  (getTime : string → Z) (w : World) (sellerId now : string)
  (v : SellerOrderView) :
  ordersOk w →
  v ∈ getOrdersForSeller getTime w sellerId →
  v_canAcceptFull v = true →
  (acceptOrderFull w (v_orderId v) sellerId now).1
  = succeeded (Some (map vi_blueprintId (v_items v))).
Proof.
  intros Hok Hv Hfull. unfold getOrdersForSeller in Hv.
  destruct (getSellerById (sellersDir w) sellerId) as [seller|] eqn:Hsel;
    [|by apply elem_of_nil in Hv].
  destruct (canSellerReceiveOrders seller) eqn:Hact; cbn [negb] in Hv;
    [|by apply elem_of_nil in Hv].
  apply list_elem_of_omap in Hv as (order & Horder & Hview).
  destruct (isClosedOrCancelled (status order)) eqn:Hst; [done|].
  destruct (isOrderClosedBySeller order sellerId); [done|].
  destruct (assignedToOther order sellerId) eqn:Hother; [done|].
  apply elem_of_getAllOrders in Horder as [[key Hkey] _].
  assert (Hget : getOrderById w (orderId order) = Some order).
  { unfold getOrderById. by rewrite (Hok key order Hkey). }
  pose proof (buildSellerOrderView_spec _ _ _ _ _ Hview)
    as (Hid & _ & _ & _ & Hitems & _ & _ & Hflag).
  cbn zeta in Hitems, Hflag.
  pose proof (proj1 (canAcceptFull_acceptable _ _ _ _ _ Hview) Hfull) as Hall.
  unfold acceptOrderFull. rewrite Hid, Hget, Hst, Hother, Hsel, Hact.
  cbn [negb].
  rewrite acceptCheck_acceptable.
  2:{ intros c Hc. destruct (Hall c Hc) as (Hun & Hq & _).
      split; [by left | done]. }
  cbn [fst]. do 2 f_equal. rewrite Hitems, map_map. cbn [viewItem vi_blueprintId].
  f_equal. symmetry. apply view_all_visible.
  rewrite Hflag in Hfull. apply andb_true_iff in Hfull as [_ Hf].
  by apply Nat.eqb_eq in Hf.
Qed.

Lemma listed_order_accepts_in_full_witness :
  (acceptOrderFull (submitted oneSeller threeOfA) (v_orderId listedView)
     "S1" "t2").1
  = succeeded (Some (map vi_blueprintId (v_items listedView))).
Proof.
  apply (listed_order_accepts_in_full demoTime).
  - exact submitted_ok.
  - vm_compute. left.
  - vm_compute. reflexivity.
Defined.

(** ** Closing and cancelling *)

Section Closing.

Lemma closeSellerState_find_self sellerId now states :
  ∃ st, List.find (fun s => String.eqb (ss_sellerId s) sellerId)
                  (closeSellerState sellerId now states) = Some st
        ∧ ss_status st = seller_closed
        ∧ ss_closedAt st = Some now.
Proof.
  induction states as [|s rest IH]; cbn [closeSellerState].
  - cbn [List.find ss_sellerId]. rewrite String.eqb_refl. by eexists.
  - destruct (String.eqb (ss_sellerId s) sellerId) eqn:E.
    + cbn [List.find ss_sellerId]. rewrite E. by eexists.
    + cbn [List.find]. by rewrite E.
Qed.

Lemma closeSellerState_find_other sellerId now states s :
  s ≠ sellerId →
  List.find (fun st => String.eqb (ss_sellerId st) s)
            (closeSellerState sellerId now states)
  = List.find (fun st => String.eqb (ss_sellerId st) s) states.
Proof.
  intros Hne. induction states as [|st rest IH]; cbn [closeSellerState].
  - cbn [List.find ss_sellerId].
    by destruct (String.eqb_spec sellerId s); [congruence|].
  - destruct (String.eqb_spec (ss_sellerId st) sellerId) as [He|Hn].
    + cbn [List.find ss_sellerId]. rewrite He.
      by destruct (String.eqb_spec sellerId s); [congruence|].
    + cbn [List.find]. by rewrite IH.
Qed.

Lemma filter_nil_elem {A} (p : A → bool) (l : list A) :
  List.filter p l = [] ↔ ∀ x, x ∈ l → p x = false.
Proof.
  split; [|apply filter_all_false].
  induction l as [|a l IH]; [by intros _ x ?%elem_of_nil|].
  cbn [List.filter]. destruct (p a) eqn:E; [done|].
  intros H x [->|Hx]%elem_of_cons; [done | by apply IH].
Qed.

Lemma existsb_elem {A} (p : A → bool) (l : list A) :
  existsb p l = true ↔ ∃ x, x ∈ l ∧ p x = true.
Proof.
  rewrite existsb_exists. split; intros (x & Hx & Hp); exists x;
    (split; [by apply list_elem_of_In | done]).
Qed.

(** An order that is closed, cancelled, closed by the seller or assigned
    to another seller is not in the seller's active list. *)
Lemma not_listed (getTime : string → Z) w sellerId order :
  ordersOk w →
  getOrderById w (orderId order) = Some order →
  isClosedOrCancelled (status order) = true
  ∨ isOrderClosedBySeller order sellerId = true
  ∨ assignedToOther order sellerId = true →
  ∀ v, v ∈ getOrdersForSeller getTime w sellerId →
       v_orderId v ≠ orderId order.
Proof.
  intros Hok Hget Hout v Hv Hid. unfold getOrdersForSeller in Hv.
  destruct (getSellerById (sellersDir w) sellerId) as [seller|];
    [|by apply elem_of_nil in Hv].
  destruct (negb (canSellerReceiveOrders seller));
    [by apply elem_of_nil in Hv|].
  apply list_elem_of_omap in Hv as (o & Ho & Hview).
  apply elem_of_getAllOrders in Ho as [[key Hkey] _].
  destruct (isClosedOrCancelled (status o)) eqn:H1; [done|].
  destruct (isOrderClosedBySeller o sellerId) eqn:H2; [done|].
  destruct (assignedToOther o sellerId) eqn:H3; [done|].
  apply buildSellerOrderView_spec in Hview as (Hvid & _).
  assert (o = order) as ->.
  { pose proof (Hok key o Hkey) as Hk. cbn in Hk.
    rewrite <- Hvid, Hid in Hk. unfold getOrderById in Hget.
    rewrite Hk, Hkey in Hget. congruence. }
  destruct Hout as [?|[?|?]]; congruence.
Qed.

Lemma getOrderById_own_id w oid order :
  ordersOk w → getOrderById w oid = Some order →
  getOrderById w (orderId order) = Some order.
Proof.
  intros Hok Hget. unfold getOrderById.
  by rewrite (getOrderById_key _ _ _ Hok Hget).
Qed.

End Closing.

(** X19.  A seller can close an order for themself exactly when the order
    is neither closed nor cancelled, the seller has not closed it before, is
    assigned to it or has claimed an item, and all items the seller claimed
    are fulfilled.  The close then records the seller's closure, leaves the
    claims, the assignment, the inventories and the closures of other sellers
    as they are, closes the order as a whole only if every item is fulfilled,
    takes the order out of the seller's active list, and cannot be repeated. *)
Theorem seller_close_effect
  (getTime : string → Z) (w : World) (oid sellerId now : string) :
  ordersOk w →
  let r := closeOrder w oid sellerId false now in
  (success r.1 = true ↔
   ∃ order,
     getOrderById w oid = Some order
     ∧ status order ≠ closed ∧ status order ≠ cancelled
     ∧ isOrderClosedBySeller order sellerId = false
     ∧ (assignedSellerId order = Some sellerId
        ∨ ∃ c, c ∈ itemClaims order ∧ claimedBySellerId c = Some sellerId)
     ∧ (∀ c, c ∈ itemClaims order → claimedBySellerId c = Some sellerId →
             claimStatus c = fulfilled))
  ∧ (success r.1 = true →
     ∃ order order',
       getOrderById w oid = Some order
       ∧ getOrderById r.2 oid = Some order'
       ∧ sellersDir r.2 = sellersDir w
       ∧ itemClaims order' = itemClaims order
       ∧ assignedSellerId order' = assignedSellerId order
       ∧ status order'
         = (if allFulfilled (itemClaims order) then closed else status order)
       ∧ isOrderClosedBySeller order' sellerId = true
       ∧ (∀ s, s ≠ sellerId →
               isOrderClosedBySeller order' s = isOrderClosedBySeller order s)
       ∧ (∀ v, v ∈ getOrdersForSeller getTime r.2 sellerId →
               v_orderId v ≠ orderId order)
       ∧ ∀ now', success (closeOrder r.2 oid sellerId false now').1 = false).
Proof.
  intros Hok. cbn zeta. unfold closeOrder.
  destruct (getOrderById w oid) as [order|] eqn:Hget.
  2:{ split; [|done]. split; [done | by intros (? & ? & _)]. }
  destruct (isClosedOrCancelled (status order)) eqn:Hst.
  { split; [|done]. split; [done|]. intros (o & [= <-] & H1 & H2 & _).
    apply isClosedOrCancelled_true in Hst. by destruct Hst. }
  destruct (isOrderClosedBySeller order sellerId) eqn:Hmine.
  { split; [|done]. split; [done|]. intros (o & [= <-] & _ & _ & ? & _).
    congruence. }
  destruct (negb (isSeller (assignedSellerId order) sellerId)
            && negb (existsb (fun c => isSeller (claimedBySellerId c) sellerId)
                             (itemClaims order))) eqn:Hinv.
  { split; [|done]. split; [done|].
    intros (o & [= <-] & _ & _ & _ & Hin & _).
    apply andb_true_iff in Hinv as [Ha Hc].
    apply negb_true_iff in Ha, Hc. apply isSeller_false in Ha.
    destruct Hin as [?|(c & Hc1 & Hc2)]; [done|].
    rewrite existsb_false in Hc. specialize (Hc c Hc1).
    apply isSeller_false in Hc. done. }
  destruct (List.filter _ (itemClaims order)) as [|c0 rest] eqn:Hunf.
  2:{ split; [|done]. split; [done|].
      intros (o & [= <-] & _ & _ & _ & _ & Hall).
      assert (Hc0 : c0 ∈ List.filter
                (fun c => isSeller (claimedBySellerId c) sellerId
                          && negb (bool_decide (claimStatus c = fulfilled)))
                (itemClaims order)) by (rewrite Hunf; left).
      apply list_elem_of_In, filter_In in Hc0 as [Hin Hp].
      apply list_elem_of_In in Hin.
      apply andb_true_iff in Hp as [Hs Hf]. apply isSeller_true in Hs.
      apply negb_true_iff, bool_decide_eq_false in Hf.
      by specialize (Hall c0 Hin Hs). }
  set (states := closeSellerState sellerId now _).
  set (order' := if allFulfilled (itemClaims order) then _ else _).
  assert (Hid : orderId order' = orderId order)
    by (unfold order'; by destruct (allFulfilled _)).
  assert (Hstates : sellerStates order' = Some states)
    by (unfold order'; by destruct (allFulfilled _)).
  assert (Hclaims : itemClaims order' = itemClaims order)
    by (unfold order'; by destruct (allFulfilled _)).
  assert (Hget' : getOrderById (updateOrder w order') oid = Some order')
    by by apply (getOrderById_updateOrder w oid order).
  assert (Hok' : ordersOk (updateOrder w order'))
    by by apply (updateOrder_ok w oid order).
  assert (Hclosed : isOrderClosedBySeller order' sellerId = true).
  { unfold isOrderClosedBySeller. rewrite Hstates. unfold states.
    destruct (closeSellerState_find_self sellerId now
                (match sellerStates order with Some s => s | None => [] end))
      as (st & -> & -> & _). done. }
  cbn [fst snd success succeeded]. split.
  - split; [intros _ | done]. exists order.
    split; [done|].
    assert (Hnot : ¬ (status order = closed ∨ status order = cancelled))
      by (rewrite <- isClosedOrCancelled_true, Hst; done).
    split; [tauto|]. split; [tauto|].
    split; [done|]. split.
    + apply andb_false_iff in Hinv as [Ha|Hc].
      * left. apply negb_false_iff in Ha. by apply isSeller_true.
      * right. apply negb_false_iff, existsb_elem in Hc as (c & Hc & Hs).
        exists c. split; [done | by apply isSeller_true].
    + intros c Hc Hs. rewrite filter_nil_elem in Hunf.
      specialize (Hunf c Hc). apply isSeller_true in Hs.
      rewrite Hs in Hunf. cbn [andb] in Hunf.
      by apply negb_false_iff, bool_decide_eq_true in Hunf.
  - intros _. exists order, order'.
    split; [done|]. split; [done|]. split; [done|]. split; [done|].
    split; [unfold order'; by destruct (allFulfilled _)|].
    split; [unfold order'; by destruct (allFulfilled _)|].
    split; [done|]. split; [|split].
    + intros s Hs. unfold isOrderClosedBySeller. rewrite Hstates.
      unfold states. rewrite closeSellerState_find_other by done.
      by destruct (sellerStates order).
    + rewrite <- Hid.
      apply (not_listed getTime _ sellerId order' Hok');
        [by apply (getOrderById_own_id _ oid) | by right; left].
    + intros now'. rewrite Hget'.
      destruct (isClosedOrCancelled (status order')); [done|].
      by rewrite Hclosed.
Qed.

Lemma seller_close_effect_witness :
  ordersOk fulfilledWorld
  ∧ (success (closeOrder fulfilledWorld "ORD-1" "S1" false "t4").1 = true ↔
     ∃ order,
       getOrderById fulfilledWorld "ORD-1" = Some order
       ∧ status order ≠ closed ∧ status order ≠ cancelled
       ∧ isOrderClosedBySeller order "S1" = false
       ∧ (assignedSellerId order = Some "S1"
          ∨ ∃ c, c ∈ itemClaims order ∧ claimedBySellerId c = Some "S1")
       ∧ (∀ c, c ∈ itemClaims order → claimedBySellerId c = Some "S1" →
               claimStatus c = fulfilled)).
Proof.
  split; [exact fulfilledWorld_ok|].
  apply (seller_close_effect demoTime fulfilledWorld "ORD-1" "S1" "t4"
           fulfilledWorld_ok).
Defined.

(** X20.  The administrator's close succeeds on every stored order, also
    on one that is already closed or cancelled, and stores it as closed by
    the administrator at the time of the call; [cancelOrder] succeeds
    exactly on a stored order that is neither closed nor cancelled and
    stores it as cancelled.  Both leave the claims, the assignment, the
    sellers' closures and the inventories as they are, and take the order
    out of every seller's active list. *)
Theorem admin_close_and_cancel
  (getTime : string → Z) (w : World) (oid admin now : string) :
  ordersOk w →
  let rc := closeOrder w oid admin true now in
  let rx := cancelOrder w oid now in
  (success rc.1 = true ↔ is_Some (getOrderById w oid))
  ∧ (success rx.1 = true ↔
     ∃ order, getOrderById w oid = Some order
              ∧ status order ≠ closed ∧ status order ≠ cancelled)
  ∧ sellersDir rc.2 = sellersDir w
  ∧ sellersDir rx.2 = sellersDir w
  ∧ ∀ order,
      getOrderById w oid = Some order →
      (∃ order',
         getOrderById rc.2 oid = Some order'
         ∧ status order' = closed
         ∧ closedAt order' = Some now
         ∧ closedBySellerId order' = Some admin
         ∧ itemClaims order' = itemClaims order
         ∧ assignedSellerId order' = assignedSellerId order
         ∧ sellerStates order' = sellerStates order
         ∧ ∀ s v, v ∈ getOrdersForSeller getTime rc.2 s →
                  v_orderId v ≠ orderId order)
      ∧ (success rx.1 = true →
         ∃ order',
           getOrderById rx.2 oid = Some order'
           ∧ status order' = cancelled
           ∧ closedAt order' = Some now
           ∧ closedBySellerId order' = closedBySellerId order
           ∧ itemClaims order' = itemClaims order
           ∧ assignedSellerId order' = assignedSellerId order
           ∧ sellerStates order' = sellerStates order
           ∧ ∀ s v, v ∈ getOrdersForSeller getTime rx.2 s →
                    v_orderId v ≠ orderId order).
Proof.
  intros Hok. cbn zeta. unfold closeOrder, cancelOrder.
  destruct (getOrderById w oid) as [order|] eqn:Hget.
  2:{ split; [split; [done | by intros [? ?]]|].
      split; [split; [done | by intros (? & ? & _)]|]. done. }
  split; [split; [by eexists | done]|].
  split.
  { destruct (isClosedOrCancelled (status order)) eqn:Hst.
    - split; [done|]. intros (o & [= <-] & H1 & H2).
      apply isClosedOrCancelled_true in Hst. by destruct Hst.
    - split; [|done]. intros _. exists order. split; [done|].
      assert (Hnot : ¬ (status order = closed ∨ status order = cancelled))
        by (rewrite <- isClosedOrCancelled_true, Hst; done).
      tauto. }
  split; [done|]. split; [by destruct (isClosedOrCancelled (status order))|].
  intros o [= <-]. split.
  - set (order' := setClosure order closed _ _ _).
    exists order'. cbn [snd].
    split; [by apply (getOrderById_updateOrder w oid order)|].
    repeat (split; [done|]).
    intros s. change (orderId order) with (orderId order').
    apply (not_listed getTime).
    + by apply (updateOrder_ok w oid order).
    + apply (getOrderById_own_id _ oid).
      * by apply (updateOrder_ok w oid order).
      * by apply (getOrderById_updateOrder w oid order).
    + by left.
  - destruct (isClosedOrCancelled (status order)); [done|]. intros _.
    set (order' := setClosure order cancelled _ _ _).
    exists order'. cbn [snd].
    split; [by apply (getOrderById_updateOrder w oid order)|].
    repeat (split; [done|]).
    intros s. change (orderId order) with (orderId order').
    apply (not_listed getTime).
    + by apply (updateOrder_ok w oid order).
    + apply (getOrderById_own_id _ oid).
      * by apply (updateOrder_ok w oid order).
      * by apply (getOrderById_updateOrder w oid order).
    + by left.
Qed.

Lemma admin_close_and_cancel_witness :
  ordersOk closedWorld
  ∧ success (closeOrder closedWorld "ORD-1" "admin" true "t4").1 = true
  ∧ success (cancelOrder closedWorld "ORD-1" "t4").1 ≠ true.
Proof.
  assert (Hok : ordersOk closedWorld)
    by (apply (bool_decide_unpack _); vm_compute; exact I).
  split; [exact Hok|].
  destruct (admin_close_and_cancel demoTime closedWorld "ORD-1" "admin" "t4"
              Hok) as (Hc & Hx & _).
  split.
  - apply Hc. eexists. vm_compute. reflexivity.
  - intros E. apply Hx in E as (order & Hget & Hst & _). apply Hst.
    vm_compute in Hget. by injection Hget as <-.
Defined.

(** ** The order lists of a seller *)

Section Listings.

Variable getTime : string → Z.

Lemma newestFirst_trans : Transitive (newestFirst getTime).
Proof. intros a b c. unfold newestFirst. lia. Qed.

Lemma newestFirst_total : Total (newestFirst getTime).
Proof. intros a b. unfold newestFirst. lia. Qed.

Lemma getAllOrders_sorted w :
  StronglySorted (newestFirst getTime) (getAllOrders getTime w).
Proof.
  apply StronglySorted_merge_sort;
    [apply newestFirst_trans | apply newestFirst_total].
Qed.

Lemma getAllOrders_stored w order :
  ordersOk w → order ∈ getAllOrders getTime w →
  getOrderById w (orderId order) = Some order.
Proof.
  intros Hok [[key Hkey] _]%elem_of_getAllOrders.
  unfold getOrderById. by rewrite (Hok key order Hkey).
Qed.

Lemma getAllOrders_ids w :
  ordersOk w → NoDup (map orderId (getAllOrders getTime w)).
Proof.
  intros Hok.
  assert (Hinj : ∀ x y, x ∈ getAllOrders getTime w →
            y ∈ getAllOrders getTime w → orderId x = orderId y → x = y).
  { intros x y Hx Hy Hid.
    apply (getAllOrders_stored w x Hok) in Hx.
    apply (getAllOrders_stored w y Hok) in Hy. congruence. }
  apply (NoDup_fmap_2_strong orderId); [exact Hinj|].
  unfold getAllOrders. rewrite merge_sort_Permutation.
  apply NoDup_filter.
  apply (NoDup_fmap_2_strong snd); [|apply NoDup_map_to_list].
  intros [k1 o1] [k2 o2] H1%elem_of_map_to_list H2%elem_of_map_to_list.
  cbn. intros <-. f_equal.
  rewrite <- (Hok k1 o1 H1). by rewrite <- (Hok k2 o1 H2).
Qed.

Lemma omap_ids_sublist {A B C} (f : A → option B) (g : A → C) (h : B → C)
  (l : list A) :
  (∀ a b, f a = Some b → h b = g a) →
  (map h (omap f l)) `sublist_of` (map g l).
Proof.
  intros H. induction l as [|a l IH]; [done|].
  change (omap f (a :: l))
    with (match f a with Some b => b :: omap f l | None => omap f l end).
  cbn [map]. destruct (f a) as [b|] eqn:E.
  - cbn [map]. rewrite (H a b E). by apply sublist_skip.
  - by apply sublist_cons.
Qed.

Lemma sublist_StronglySorted {A} (R : relation A) (l1 l2 : list A) :
  l1 `sublist_of` l2 → StronglySorted R l2 → StronglySorted R l1.
Proof.
  induction 1 as [|x l1 l2 Hsub IH|x l1 l2 Hsub IH]; [done|..].
  - intros [Hall Hs]%StronglySorted_cons. apply StronglySorted_cons.
    split; [|by apply IH]. rewrite Forall_forall in Hall |- *.
    intros y Hy. apply Hall. by apply (elem_of_sublist l1 l2).
  - intros [_ Hs]%StronglySorted_cons. by apply IH.
Qed.

Lemma buildSellerOrderView_createdAt w order sellerId sellerDiscordId v :
  buildSellerOrderView w order sellerId sellerDiscordId = Some v →
  v_createdAt v = createdAt order.
Proof.
  unfold buildSellerOrderView.
  destruct (viewLoop _ _ _ _) as [[[items n] m] b].
  destruct items; [done|]. by intros [= <-].
Qed.

(** The views that an [omap] over all orders keeps. *)
Lemma listed_views w sellerId discord
  (f : StoredOrder → option SellerOrderView) :
  ordersOk w →
  (∀ o v, f o = Some v → buildSellerOrderView w o sellerId discord = Some v) →
  let views := omap f (getAllOrders getTime w) in
  NoDup (map v_orderId views)
  ∧ StronglySorted (fun a b => b ≤ a)
      (map (fun v => getTime (v_createdAt v)) views)
  ∧ ∀ v, v ∈ views →
         ∃ o, f o = Some v ∧ getOrderById w (v_orderId v) = Some o.
Proof.
  intros Hok Hf. cbn zeta. split; [|split].
  - eapply sublist_NoDup; [apply (getAllOrders_ids w Hok)|].
    apply omap_ids_sublist. intros o v Hv.
    by apply Hf, buildSellerOrderView_spec in Hv as (? & _).
  - eapply sublist_StronglySorted.
    + apply (omap_ids_sublist f (fun o => getTime (createdAt o))).
      intros o v Hv. f_equal.
      by apply Hf, buildSellerOrderView_createdAt in Hv.
    + apply (StronglySorted_fmap _ (newestFirst getTime));
        [done | apply getAllOrders_sorted].
  - intros v (o & Ho & Hv)%list_elem_of_omap. exists o. split; [done|].
    pose proof (Hf o v Hv) as Hb.
    apply buildSellerOrderView_spec in Hb as (-> & _).
    by apply getAllOrders_stored.
Qed.

End Listings.

(** X21.  The two order lists of a seller agree with the single view and
    with each other: every listed view is the view that [getOrderForSeller]
    gives for its order id and shows at least one item; no order appears
    twice, in one list or across the two; the active list holds no order
    that is closed, cancelled or closed by the seller, the archive only such
    orders; both lists run from the newest order to the oldest. *)
Theorem seller_lists_consistent
  (getTime : string → Z) (w : World) (sellerId : string) :
  ordersOk w →
  let active := getOrdersForSeller getTime w sellerId in
  let archived := getArchivedOrdersForSeller getTime w sellerId in
  (∀ v, v ∈ active ∨ v ∈ archived →
        getOrderForSeller w (v_orderId v) sellerId = Some v
        ∧ v_items v ≠ [])
  ∧ NoDup (map v_orderId (active ++ archived))
  ∧ (∀ v, v ∈ active →
          v_status v ≠ closed ∧ v_status v ≠ cancelled
          ∧ v_isClosedByMe v = false)
  ∧ (∀ v, v ∈ archived →
          v_status v = closed ∨ v_status v = cancelled
          ∨ v_isClosedByMe v = true)
  ∧ StronglySorted (fun a b => b ≤ a)
      (map (fun v => getTime (v_createdAt v)) active)
  ∧ StronglySorted (fun a b => b ≤ a)
      (map (fun v => getTime (v_createdAt v)) archived).
Proof.
  intros Hok. cbn zeta.
  unfold getOrdersForSeller, getArchivedOrdersForSeller, getOrderForSeller.
  destruct (getSellerById (sellersDir w) sellerId) as [seller|] eqn:Hsel.
  2:{ split; [intros v [H|H]; by apply elem_of_nil in H|].
      split; [constructor|].
      split; [intros v H; by apply elem_of_nil in H|].
      split; [intros v H; by apply elem_of_nil in H|].
      split; constructor. }
  destruct (canSellerReceiveOrders seller) eqn:Hact; cbn [negb].
  2:{ split; [intros v [H|H]; by apply elem_of_nil in H|].
      split; [constructor|].
      split; [intros v H; by apply elem_of_nil in H|].
      split; [intros v H; by apply elem_of_nil in H|].
      split; constructor. }
  set (fa := fun order : StoredOrder =>
               if isClosedOrCancelled (status order) then None
               else if isOrderClosedBySeller order sellerId then None
               else if assignedToOther order sellerId then None
               else buildSellerOrderView w order sellerId
                      (seller_discordId seller)).
  set (fz := fun order : StoredOrder => _).
  assert (Hfa : ∀ o v, fa o = Some v →
            buildSellerOrderView w o sellerId (seller_discordId seller)
            = Some v
            ∧ isClosedOrCancelled (status o) = false
            ∧ isOrderClosedBySeller o sellerId = false).
  { intros o v. unfold fa.
    destruct (isClosedOrCancelled (status o)); [done|].
    destruct (isOrderClosedBySeller o sellerId); [done|].
    by destruct (assignedToOther o sellerId). }
  assert (Hfz : ∀ o v, fz o = Some v →
            buildSellerOrderView w o sellerId (seller_discordId seller)
            = Some v
            ∧ (isClosedOrCancelled (status o) = true
               ∨ isOrderClosedBySeller o sellerId = true)).
  { intros o v. unfold fz. cbn zeta.
    destruct (isClosedOrCancelled (status o)),
      (isOrderClosedBySeller o sellerId); cbn [negb andb];
      try done;
      try (destruct (negb (_ || _)); [done|]); intros Hb; auto. }
  assert (Hfa' : ∀ o v, fa o = Some v →
            buildSellerOrderView w o sellerId (seller_discordId seller)
            = Some v) by (intros o v H; by apply Hfa in H as [? _]).
  assert (Hfz' : ∀ o v, fz o = Some v →
            buildSellerOrderView w o sellerId (seller_discordId seller)
            = Some v) by (intros o v H; by apply Hfz in H as [? _]).
  destruct (listed_views getTime w sellerId (seller_discordId seller) fa
              Hok Hfa') as (Hnda & Hsa & Hina).
  destruct (listed_views getTime w sellerId (seller_discordId seller) fz
              Hok Hfz') as (Hndz & Hsz & Hinz).
  cbn zeta in *.
  assert (Hstat : ∀ o v,
            buildSellerOrderView w o sellerId (seller_discordId seller)
            = Some v →
            v_status v = status o
            ∧ v_isClosedByMe v = isOrderClosedBySeller o sellerId
            ∧ v_items v ≠ []).
  { intros o v Hb. split; [|split].
    - by apply buildSellerOrderView_spec in Hb as (_ & ? & _).
    - by apply buildSellerOrderView_spec in Hb as (_ & _ & _ & ? & _).
    - by apply buildSellerOrderView_nonempty in Hb. }
  assert (Hacts : ∀ v, v ∈ omap fa (getAllOrders getTime w) →
            v_status v ≠ closed ∧ v_status v ≠ cancelled
            ∧ v_isClosedByMe v = false).
  { intros v Hv. destruct (Hina v Hv) as (o & Ho & _).
    apply Hfa in Ho as (Hb & Hst & Hme).
    destruct (Hstat o v Hb) as (-> & -> & _).
    assert (Hnot : ¬ (status o = closed ∨ status o = cancelled))
      by (rewrite <- isClosedOrCancelled_true, Hst; done).
    split; [tauto|]. split; [tauto | done]. }
  assert (Harch : ∀ v, v ∈ omap fz (getAllOrders getTime w) →
            v_status v = closed ∨ v_status v = cancelled
            ∨ v_isClosedByMe v = true).
  { intros v Hv. destruct (Hinz v Hv) as (o & Ho & _).
    apply Hfz in Ho as (Hb & Hst).
    destruct (Hstat o v Hb) as (-> & -> & _).
    destruct Hst as [Hst|Hst]; [|by right; right].
    apply isClosedOrCancelled_true in Hst. tauto. }
  split; [|split; [|split; [done|split; [done|split; done]]]].
  - intros v [Hv|Hv].
    + destruct (Hina v Hv) as (o & Ho & ->).
      apply Hfa in Ho as (Hb & _). split; [done|]. by apply (Hstat o v).
    + destruct (Hinz v Hv) as (o & Ho & ->).
      apply Hfz in Ho as (Hb & _). split; [done|]. by apply (Hstat o v).
  - rewrite map_app. apply NoDup_app. split; [done|]. split; [|done].
    intros oid (v & -> & Hv)%list_elem_of_fmap (v' & Hid & Hv')%list_elem_of_fmap.
    destruct (Hina v Hv) as (o & Ho & Hget).
    destruct (Hinz v' Hv') as (o' & Ho' & Hget').
    rewrite <- Hid, Hget in Hget'. injection Hget' as <-.
    apply Hfa in Ho as (_ & H1 & H2). apply Hfz in Ho' as (_ & [H|H]);
      congruence.
Qed.

Lemma seller_lists_consistent_witness :
  ordersOk fulfilledWorld
  ∧ NoDup (map v_orderId
             (getOrdersForSeller demoTime fulfilledWorld "S1"
              ++ getArchivedOrdersForSeller demoTime fulfilledWorld "S1")).
Proof.
  split; [exact fulfilledWorld_ok|].
  apply (seller_lists_consistent demoTime fulfilledWorld "S1"
           fulfilledWorld_ok).
Defined.

(** ** Deleting orders *)

Section Deleting.

Lemma lookup_fold_delete {A} (files : list (string * A)) (dir : gmap string A)
  (key : string) :
  fold_left (fun dir file => delete file.1 dir) files dir !! key
  = if bool_decide (key ∈ files.*1) then None else dir !! key.
Proof.
  revert dir. induction files as [|[k a] files IH]; intros dir; [done|].
  cbn [fold_left fst fmap list_fmap]. rewrite IH.
  destruct (decide (key = k)) as [->|Hne].
  - rewrite (bool_decide_eq_true_2 (k ∈ k :: _)) by left.
    rewrite lookup_delete_eq. by case_bool_decide.
  - rewrite lookup_delete_ne by done.
    destruct (decide (key ∈ files.*1)) as [Hin|Hni].
    + rewrite !bool_decide_eq_true_2; [done | by right | done].
    + rewrite !bool_decide_eq_false_2; [done | | done].
      by intros [?|?]%elem_of_cons.
Qed.

Lemma clearAllOrders_empty w : ordersDir (clearAllOrders w).2 = ∅.
Proof.
  apply map_eq. intros key. cbn [clearAllOrders snd ordersDir].
  rewrite lookup_fold_delete, lookup_empty. case_bool_decide as Hin; [done|].
  destruct (ordersDir w !! key) as [o|] eqn:E; [|done].
  exfalso. apply Hin. apply list_elem_of_fmap. exists (key, o).
  split; [done|]. by apply elem_of_map_to_list.
Qed.

End Deleting.

(** X22.  [deleteOrder] answers true exactly when the order is stored;
    afterwards the order cannot be read, every operation of the claim engine
    answers "order not found" for it, a second delete answers false, and the
    orders in other files and the sellers are as before.  [clearAllOrders]
    reports the number of order files and leaves no order: every list is
    empty and no order can be read. *)
Theorem delete_and_clear_orders
  (getTime : string → Z) (w : World) (oid sellerId bid now : string)
  (ids : option (list string)) (isAdmin : bool) :
  let d := deleteOrder w oid in
  let c := clearAllOrders w in
  (d.1 = true ↔ is_Some (getOrderById w oid))
  ∧ getOrderById d.2 oid = None
  ∧ sellersDir d.2 = sellersDir w
  ∧ (∀ oid', getOrderFilePath oid' ≠ getOrderFilePath oid →
             getOrderById d.2 oid' = getOrderById w oid')
  ∧ (deleteOrder d.2 oid).1 = false
  ∧ acceptOrderFull d.2 oid sellerId now = (failure OrderNotFound, d.2)
  ∧ claimOrderItems d.2 oid sellerId ids now = (failure OrderNotFound, d.2)
  ∧ fulfillOrderItem d.2 oid sellerId bid now = (failure OrderNotFound, d.2)
  ∧ fulfillAllClaimedItems d.2 oid sellerId now
    = (failure OrderNotFound, d.2)
  ∧ releaseOrderItem d.2 oid sellerId bid = (failure OrderNotFound, d.2)
  ∧ closeOrder d.2 oid sellerId isAdmin now = (failure OrderNotFound, d.2)
  ∧ cancelOrder d.2 oid now = (failure OrderNotFound, d.2)
  ∧ getOrderForSeller d.2 oid sellerId = None
  ∧ c.1 = (true, size (ordersDir w))
  ∧ sellersDir c.2 = sellersDir w
  ∧ (∀ oid', getOrderById c.2 oid' = None)
  ∧ getAllOrders getTime c.2 = []
  ∧ getOrdersForSeller getTime c.2 sellerId = []
  ∧ getArchivedOrdersForSeller getTime c.2 sellerId = []
  ∧ getAllOrdersForAdmin getTime c.2 = [].
Proof.
  cbn zeta.
  assert (Hgone : getOrderById (deleteOrder w oid).2 oid = None).
  { unfold deleteOrder, getOrderById.
    destruct (ordersDir w !! getOrderFilePath oid) eqn:E; [|done].
    apply lookup_delete_eq. }
  split.
  { unfold deleteOrder, getOrderById.
    destruct (ordersDir w !! getOrderFilePath oid).
    - split; [by eexists | done].
    - split; [done | by intros [? ?]]. }
  split; [done|].
  split; [unfold deleteOrder; by destruct (ordersDir w !! _)|].
  split.
  { intros oid' Hne. unfold deleteOrder, getOrderById.
    destruct (ordersDir w !! getOrderFilePath oid); [|done].
    by apply lookup_delete_ne. }
  split.
  { unfold deleteOrder at 1. unfold getOrderById in Hgone. by rewrite Hgone. }
  split; [unfold acceptOrderFull; by rewrite Hgone|].
  split; [unfold claimOrderItems; by rewrite Hgone|].
  split; [unfold fulfillOrderItem; by rewrite Hgone|].
  split; [unfold fulfillAllClaimedItems, fulfillAllClaimedItemsWith;
          by rewrite Hgone|].
  split; [unfold releaseOrderItem; by rewrite Hgone|].
  split; [unfold closeOrder; by rewrite Hgone|].
  split; [unfold cancelOrder; by rewrite Hgone|].
  split; [unfold getOrderForSeller; by rewrite Hgone|].
  pose proof (clearAllOrders_empty w) as Hempty.
  assert (Hall : getAllOrders getTime (clearAllOrders w).2 = []).
  { unfold getAllOrders. rewrite Hempty, map_to_list_empty. done. }
  split; [cbn; by rewrite length_map_to_list|].
  split; [done|].
  split; [intros oid'; unfold getOrderById; by rewrite Hempty|].
  split; [done|].
  split.
  { unfold getOrdersForSeller. rewrite Hall.
    destruct (getSellerById _ _); [|done]. by destruct (negb _). }
  split.
  { unfold getArchivedOrdersForSeller. rewrite Hall.
    destruct (getSellerById _ _); [|done]. by destruct (negb _). }
  unfold getAllOrdersForAdmin. by rewrite Hall.
Qed.

(** ** The administrator's lists *)

Section AdminLists.

Variable getTime : string → Z.

Lemma filter_complement_Permutation {A} (p q : A → bool) (l : list A) :
  (∀ x, q x = negb (p x)) →
  List.filter p l ++ List.filter q l ≡ₚ l.
Proof.
  intros Hq. induction l as [|a l IH]; [done|]. cbn [List.filter].
  rewrite (Hq a). destruct (p a); cbn [negb app].
  - by constructor.
  - rewrite <- Permutation_middle. by constructor.
Qed.

Lemma filter_sublist_of {A} (p : A → bool) (l : list A) :
  List.filter p l `sublist_of` l.
Proof.
  induction l as [|a l IH]; [done|]. cbn [List.filter].
  destruct (p a); [by apply sublist_skip | by apply sublist_cons].
Qed.

Lemma sellerView_ids_sublist dir sellerId assignee claims :
  map vi_blueprintId
    (map (viewItem dir sellerId)
         (List.filter (canSee dir sellerId assignee) claims))
  `sublist_of` map blueprintId claims.
Proof.
  rewrite map_map. cbn [viewItem vi_blueprintId].
  change (map (fun x => blueprintId x)) with (fmap (M:=list) blueprintId).
  change (map blueprintId) with (fmap (M:=list) blueprintId).
  apply fmap_sublist, filter_sublist_of.
Qed.

End AdminLists.

(** X23.  The administrator's list shows every stored order that carries
    an id exactly once, newest first, each with all its items whoever claimed
    them; the active and the archived list split it by status: the archive
    holds the closed and cancelled orders, the active list the others, in
    the same order.  The items that any seller sees of an order are a
    selection, in order, of the items the administrator sees. *)
Theorem admin_lists_complete
  (getTime : string → Z) (w : World) :
  ordersOk w →
  let all := getAllOrdersForAdmin getTime w in
  let active := getActiveOrdersForAdmin getTime w in
  let archived := getArchivedOrdersForAdmin getTime w in
  (∀ v, v ∈ all ↔
        ∃ order, getOrderById w (orderId order) = Some order
                 ∧ orderId order ≠ "" ∧ v = buildAdminOrderView order)
  ∧ NoDup (map a_orderId all)
  ∧ StronglySorted (fun a b => b ≤ a)
      (map (fun v => getTime (a_createdAt v)) all)
  ∧ active ++ archived ≡ₚ all
  ∧ active `sublist_of` all
  ∧ archived `sublist_of` all
  ∧ (∀ v, v ∈ archived ↔
          v ∈ all ∧ (a_status v = closed ∨ a_status v = cancelled))
  ∧ (∀ v, v ∈ active ↔
          v ∈ all ∧ a_status v ≠ closed ∧ a_status v ≠ cancelled)
  ∧ (∀ order sellerId sv,
       getOrderForSeller w (orderId order) sellerId = Some sv →
       getOrderById w (orderId order) = Some order →
       map vi_blueprintId (v_items sv)
       `sublist_of` map ai_blueprintId (a_items (buildAdminOrderView order))
       ∧ length (a_items (buildAdminOrderView order))
         = length (itemClaims order)).
Proof.
  intros Hok. cbn zeta.
  unfold getAllOrdersForAdmin, getActiveOrdersForAdmin,
    getArchivedOrdersForAdmin.
  set (orders := getAllOrders getTime w).
  set (isActive := fun o : StoredOrder =>
                     negb (bool_decide (status o = closed))
                     && negb (bool_decide (status o = cancelled))).
  set (isArchived := fun o : StoredOrder =>
                       bool_decide (status o = closed)
                       || bool_decide (status o = cancelled)).
  assert (Hcompl : ∀ o, isArchived o = negb (isActive o)).
  { intros o. unfold isArchived, isActive.
    by destruct (bool_decide _), (bool_decide _). }
  assert (Hmem : ∀ v, v ∈ map buildAdminOrderView orders ↔
            ∃ order, getOrderById w (orderId order) = Some order
                     ∧ orderId order ≠ "" ∧ v = buildAdminOrderView order).
  { intros v. rewrite list_elem_of_fmap. split.
    - intros (o & -> & Ho). exists o.
      split; [by apply (getAllOrders_stored getTime)|].
      by apply elem_of_getAllOrders in Ho as [_ ?].
    - intros (o & Hget & Hid & ->). exists o. split; [done|].
      apply elem_of_getAllOrders. split; [|done].
      by exists (getOrderFilePath (orderId o)). }
  split; [exact Hmem|]. split; [|split; [|split; [|split; [|split]]]].
  - rewrite map_map. cbn [buildAdminOrderView a_orderId].
    by apply getAllOrders_ids.
  - rewrite map_map. cbn [buildAdminOrderView a_createdAt].
    apply (StronglySorted_fmap _ (newestFirst getTime));
      [done | apply getAllOrders_sorted].
  - rewrite <- map_app.
    change (map buildAdminOrderView) with (fmap (M:=list) buildAdminOrderView).
    apply fmap_Permutation.
    apply filter_complement_Permutation. exact Hcompl.
  - change (map buildAdminOrderView) with (fmap (M:=list) buildAdminOrderView).
    apply fmap_sublist, filter_sublist_of.
  - change (map buildAdminOrderView) with (fmap (M:=list) buildAdminOrderView).
    apply fmap_sublist, filter_sublist_of.
  - split; [|split].
    + intros v. rewrite !list_elem_of_fmap. split.
      * intros (o & -> & Ho). apply list_elem_of_In, filter_In in Ho
          as [Ho Hst]. apply list_elem_of_In in Ho.
        split; [by exists o|]. cbn [buildAdminOrderView a_status].
        unfold isArchived in Hst.
        apply orb_true_iff in Hst as [H|H]; apply bool_decide_eq_true in H;
          auto.
      * intros [(o & -> & Ho) Hst]. exists o. split; [done|].
        apply list_elem_of_In, filter_In. split; [by apply list_elem_of_In|].
        unfold isArchived. cbn [buildAdminOrderView a_status] in Hst.
        destruct Hst as [->| ->]; by vm_compute.
    + intros v. rewrite !list_elem_of_fmap. split.
      * intros (o & -> & Ho). apply list_elem_of_In, filter_In in Ho
          as [Ho Hst]. apply list_elem_of_In in Ho.
        split; [by exists o|]. cbn [buildAdminOrderView a_status].
        unfold isActive in Hst.
        apply andb_true_iff in Hst as [H1 H2].
        apply negb_true_iff, bool_decide_eq_false in H1, H2. done.
      * intros [(o & -> & Ho) [H1 H2]]. exists o. split; [done|].
        apply list_elem_of_In, filter_In. split; [by apply list_elem_of_In|].
        unfold isActive. cbn [buildAdminOrderView a_status] in H1, H2.
        by rewrite !bool_decide_eq_false_2.
    + intros order sellerId sv Hsv Hget. unfold getOrderForSeller in Hsv.
      rewrite Hget in Hsv.
      destruct (getSellerById (sellersDir w) sellerId) as [seller|]; [|done].
      destruct (negb _); [done|].
      apply buildSellerOrderView_spec in Hsv
        as (_ & _ & _ & _ & -> & _).
      split; [|cbn; by rewrite length_map].
      cbn [buildAdminOrderView a_items]. rewrite (map_map _ ai_blueprintId).
      cbn [ai_blueprintId]. apply sellerView_ids_sublist.
Qed.

Lemma admin_lists_complete_witness :
  ordersOk closedWorld
  ∧ getActiveOrdersForAdmin demoTime closedWorld
    ++ getArchivedOrdersForAdmin demoTime closedWorld
    ≡ₚ getAllOrdersForAdmin demoTime closedWorld.
Proof.
  assert (Hok : ordersOk closedWorld)
    by (apply (bool_decide_unpack _); vm_compute; exact I).
  split; [exact Hok|].
  apply (admin_lists_complete demoTime closedWorld Hok).
Defined.

(** ** The statistics of a seller *)

Section Stats.

Variable getTime : string → Z.

Lemma count_fold {A} (p : A → bool) (l : list A) (n : nat) :
  fold_left (fun n x => if p x then S n else n) l n
  = (n + length (List.filter p l))%nat.
Proof.
  revert n. induction l as [|a l IH]; intros n; cbn [fold_left List.filter].
  - cbn. lia.
  - rewrite IH. destruct (p a); cbn [length]; lia.
Qed.

Lemma sum_list_cons (x : nat) (l : list nat) :
  sum_list (x :: l) = (x + sum_list l)%nat.
Proof. done. Qed.

Lemma countItems_sum st views :
  countItems st views
  = sum_list
      (map (fun v =>
              length (List.filter
                        (fun i => vi_claimedByMe i
                                  && bool_decide (vi_claimStatus i = st))
                        (v_items v)))
           views).
Proof.
  unfold countItems.
  enough (∀ n, fold_left
                 (fun n order =>
                    fold_left
                      (fun n item =>
                         if vi_claimedByMe item
                            && bool_decide (vi_claimStatus item = st)
                         then S n else n)
                      (v_items order) n)
                 views n
               = (n + sum_list
                        (map (fun v =>
                                length (List.filter
                                          (fun i => vi_claimedByMe i
                                                    && bool_decide
                                                         (vi_claimStatus i = st))
                                          (v_items v)))
                             views))%nat) as H by apply (H 0%nat).
  induction views as [|v views IH]; intros n; cbn [fold_left map].
  - cbn. lia.
  - rewrite IH, count_fold, sum_list_cons. lia.
Qed.

Lemma held_visible dir sellerId assignee st claims :
  length (List.filter
            (fun i => vi_claimedByMe i && bool_decide (vi_claimStatus i = st))
            (map (viewItem dir sellerId)
                 (List.filter (canSee dir sellerId assignee) claims)))
  = length (List.filter
              (fun c => isSeller (claimedBySellerId c) sellerId
                        && bool_decide (claimStatus c = st))
              claims).
Proof.
  induction claims as [|c rest IH]; [done|]. cbn [List.filter].
  assert (Hsee : canSee dir sellerId assignee c
                 = isSeller (claimedBySellerId c) sellerId
                   || bool_decide (claimStatus c = unclaimed)
                      && (0 <? getSellerBlueprintQuantity dir sellerId
                                 (blueprintId c))
                   || assignee) by done.
  rewrite Hsee.
  destruct (isSeller (claimedBySellerId c) sellerId) eqn:Hs; cbn [orb andb].
  - cbn [map List.filter viewItem vi_claimedByMe vi_claimStatus]. rewrite Hs.
    cbn [andb]. destruct (bool_decide (claimStatus c = st)); cbn [length];
      by rewrite IH.
  - destruct (_ || _); [|exact IH].
    cbn [map List.filter viewItem vi_claimedByMe vi_claimStatus]. rewrite Hs.
    exact IH.
Qed.

Lemma view_held w order sellerId discord st :
  match buildSellerOrderView w order sellerId discord with
  | Some v =>
      length (List.filter
                (fun i => vi_claimedByMe i
                          && bool_decide (vi_claimStatus i = st))
                (v_items v))
  | None => 0%nat
  end = heldWith st sellerId order.
Proof.
  unfold heldWith.
  rewrite <- (held_visible (sellersDir w) sellerId
                (isSeller (assignedSellerId order) sellerId)).
  pose proof (buildSellerOrderView_items w order sellerId discord) as H.
  cbn zeta in H.
  destruct (buildSellerOrderView w order sellerId discord) as [v|].
  - destruct H as [-> _]. done.
  - by rewrite H.
Qed.

Lemma sum_omap_filter {A B} (f : A → option B) (g : B → nat) (h : A → nat)
  (cond : A → bool) (l : list A) :
  (∀ a, match f a with Some b => g b | None => 0%nat end
        = if cond a then h a else 0%nat) →
  sum_list (map g (omap f l)) = sum_list (map h (List.filter cond l)).
Proof.
  intros H. induction l as [|a l IH]; [done|].
  change (omap f (a :: l))
    with (match f a with Some b => b :: omap f l | None => omap f l end).
  cbn [List.filter]. specialize (H a).
  destruct (f a) as [b|], (cond a); cbn [map]; rewrite ?sum_list_cons; lia.
Qed.

End Stats.

(** X24.  For an active seller the statistic of claimed items is the number
    of items the seller holds as claimed in the stored orders that are not
    closed, cancelled, closed by the seller or assigned to another seller,
    and the statistic of fulfilled items is the number of items the seller
    holds as fulfilled in the stored orders of the seller's archive; items
    fulfilled in an order that is still active are not counted.  The number
    of active orders is that of [countOrdersForSeller].  For an unknown or
    inactive seller all four numbers are zero. *)
Theorem seller_stats_count_store
  (getTime : string → Z) (w : World) (sellerId : string) :
  let stats := getSellerOrderStats getTime w sellerId in
  let orders := getAllOrders getTime w in
  st_activeOrders stats = countOrdersForSeller getTime w sellerId
  ∧ (st_activeOrders stats
     ≤ length (List.filter (activeFor sellerId) orders))%nat
  ∧ (st_archivedOrders stats
     ≤ length (List.filter (archivedFor sellerId) orders))%nat
  ∧ (∀ seller,
       getSellerById (sellersDir w) sellerId = Some seller →
       seller_status seller = active →
       st_claimedItems stats
       = sum_list (map (heldWith claimed sellerId)
                       (List.filter (activeFor sellerId) orders))
       ∧ st_fulfilledItems stats
         = sum_list (map (heldWith fulfilled sellerId)
                         (List.filter (archivedFor sellerId) orders)))
  ∧ ((∀ seller, getSellerById (sellersDir w) sellerId = Some seller →
                seller_status seller ≠ active) →
     stats = mkStats 0 0 0 0).
Proof.
  cbn zeta. unfold getSellerOrderStats, countOrdersForSeller.
  cbn [st_activeOrders st_claimedItems st_fulfilledItems st_archivedOrders].
  unfold getOrdersForSeller, getArchivedOrdersForSeller.
  set (orders := getAllOrders getTime w).
  destruct (getSellerById (sellersDir w) sellerId) as [seller|] eqn:Hsel.
  2:{ split; [done|]. split; [cbn; lia|]. split; [cbn; lia|].
      split; [done|]. done. }
  destruct (canSellerReceiveOrders seller) eqn:Hact; cbn [negb].
  2:{ split; [done|]. split; [cbn; lia|]. split; [cbn; lia|].
      split; [|done]. intros s [= <-] Hs.
      apply canSellerReceiveOrders_true in Hs. congruence. }
  set (fa := fun order : StoredOrder => _).
  set (fz := fun order : StoredOrder => _).
  assert (Ha : ∀ o (g : SellerOrderView → nat) (h : StoredOrder → nat),
            (∀ v, buildSellerOrderView w o sellerId (seller_discordId seller)
                  = Some v → g v = h o) →
            (buildSellerOrderView w o sellerId (seller_discordId seller)
             = None → h o = 0%nat) →
            match fa o with Some v => g v | None => 0%nat end
            = if activeFor sellerId o then h o else 0%nat).
  { intros o g h Hsome Hnone. unfold fa, activeFor.
    destruct (isClosedOrCancelled (status o)); [done|].
    destruct (isOrderClosedBySeller o sellerId); [done|].
    destruct (assignedToOther o sellerId); [done|]. cbn [negb andb].
    destruct (buildSellerOrderView _ _ _ _) as [v|];
      [by apply Hsome | symmetry; by apply Hnone]. }
  assert (Hz : ∀ o (g : SellerOrderView → nat) (h : StoredOrder → nat),
            (∀ v, buildSellerOrderView w o sellerId (seller_discordId seller)
                  = Some v → g v = h o) →
            (buildSellerOrderView w o sellerId (seller_discordId seller)
             = None → h o = 0%nat) →
            match fz o with Some v => g v | None => 0%nat end
            = if archivedFor sellerId o then h o else 0%nat).
  { intros o g h Hsome Hnone. unfold fz, archivedFor. cbn zeta.
    destruct (isClosedOrCancelled (status o)),
      (isOrderClosedBySeller o sellerId),
      (existsb _ (itemClaims o)),
      (isSeller (assignedSellerId o) sellerId); cbn [negb andb orb];
      try done;
      (destruct (buildSellerOrderView _ _ _ _) as [v|];
       [by apply Hsome | symmetry; by apply Hnone]). }
  assert (Hlen : ∀ (f : StoredOrder → option SellerOrderView)
                   (cond : StoredOrder → bool) (l : list StoredOrder),
            (∀ o, match f o with Some v => 1%nat | None => 0%nat end
                  = if cond o then
                      match buildSellerOrderView w o sellerId
                              (seller_discordId seller) with
                      | Some _ => 1%nat | None => 0%nat end
                    else 0%nat) →
            (length (omap f l) ≤ length (List.filter cond l))%nat).
  { intros f cond l Hf. induction l as [|o rest IH]; [done|].
    change (omap f (o :: rest))
      with (match f o with Some b => b :: omap f rest | None => omap f rest end).
    cbn [List.filter]. specialize (Hf o).
    destruct (f o), (cond o); cbn [length]; lia. }
  split; [done|]. split; [|split; [|split; [|intros H; exfalso; apply (H seller eq_refl);
                        by apply canSellerReceiveOrders_true]]].
  - apply Hlen. intros o.
    apply (Ha o (fun _ => 1%nat)
             (fun o => match buildSellerOrderView w o sellerId
                               (seller_discordId seller) with
                       | Some _ => 1%nat | None => 0%nat end)).
    + by intros v ->.
    + by intros ->.
  - apply Hlen. intros o.
    apply (Hz o (fun _ => 1%nat)
             (fun o => match buildSellerOrderView w o sellerId
                               (seller_discordId seller) with
                       | Some _ => 1%nat | None => 0%nat end)).
    + by intros v ->.
    + by intros ->.
  - intros s [= <-] _. rewrite !countItems_sum. split.
    + apply sum_omap_filter. intros o. apply Ha.
      * intros v Hv. rewrite <- (view_held w o sellerId
                                   (seller_discordId seller) claimed).
        by rewrite Hv.
      * intros Hv. rewrite <- (view_held w o sellerId
                                 (seller_discordId seller) claimed).
        by rewrite Hv.
    + apply sum_omap_filter. intros o. apply Hz.
      * intros v Hv. rewrite <- (view_held w o sellerId
                                   (seller_discordId seller) fulfilled).
        by rewrite Hv.
      * intros Hv. rewrite <- (view_held w o sellerId
                                 (seller_discordId seller) fulfilled).
        by rewrite Hv.
Qed.

(** ** Order files from before claim tracking *)

Section Migration.

Lemma find_existsb {A} (p : A → bool) (l : list A) :
  existsb p l = match List.find p l with Some _ => true | None => false end.
Proof.
  induction l as [|a l IH]; [done|]. cbn [List.find existsb].
  by destruct (p a).
Qed.

Lemma addMigratedClaim_addInitialClaim claims item :
  addMigratedClaim claims item = addInitialClaim claims item.
Proof.
  unfold addMigratedClaim, addInitialClaim, findClaim.
  rewrite find_existsb. by destruct (List.find _ claims).
Qed.

Lemma fold_left_ext {A B} (f g : A → B → A) (l : list B) (a : A) :
  (∀ a b, f a b = g a b) → fold_left f l a = fold_left g l a.
Proof.
  intros H. revert a. induction l as [|b l IH]; intros a; [done|].
  cbn [fold_left]. by rewrite H, IH.
Qed.

Lemma migrated_claims groups :
  fold_left (fun claims g => fold_left addMigratedClaim (sg_items g) claims)
            groups []
  = initialClaims groups.
Proof.
  unfold initialClaims. apply fold_left_ext. intros claims g.
  apply fold_left_ext. apply addMigratedClaim_addInitialClaim.
Qed.

End Migration.

(** X25.  Reading an order file from before claim tracking gives it the
    status open and exactly the claims that [saveOrder] creates from the
    same seller groups, hence one unclaimed claim per blueprint; every other
    field is kept, whether or not the status and the claims are present.
    An order that has a status and claims is read as it is, so a migrated
    order is not changed by a second read. *)
Theorem legacy_order_migration (l : LegacyOrder) (o : StoredOrder) :
  migrateOrderIfNeeded (asLegacy o) = o
  ∧ migrateOrderIfNeeded (asLegacy (migrateOrderIfNeeded l))
    = migrateOrderIfNeeded l
  ∧ status (migrateOrderIfNeeded l) = default open (lo_status l)
  ∧ itemClaims (migrateOrderIfNeeded l)
    = default (initialClaims (lo_sellerGroups l)) (lo_itemClaims l)
  ∧ (lo_itemClaims l = None →
     claimIdsOk (itemClaims (migrateOrderIfNeeded l))
     ∧ (∀ c, c ∈ itemClaims (migrateOrderIfNeeded l) → pristine c)
     ∧ ∀ b, b ∈ map blueprintId (itemClaims (migrateOrderIfNeeded l))
            ↔ b ∈ map gi_blueprintId
                      (flat_map sg_items (lo_sellerGroups l)))
  ∧ orderId (migrateOrderIfNeeded l) = lo_orderId l
  ∧ buyerDiscordNick (migrateOrderIfNeeded l) = lo_buyerDiscordNick l
  ∧ offer (migrateOrderIfNeeded l) = lo_offer l
  ∧ originalOffer (migrateOrderIfNeeded l) = lo_originalOffer l
  ∧ notes (migrateOrderIfNeeded l) = lo_notes l
  ∧ sellerGroups (migrateOrderIfNeeded l) = lo_sellerGroups l
  ∧ isMultiSeller (migrateOrderIfNeeded l) = lo_isMultiSeller l
  ∧ sellerCount (migrateOrderIfNeeded l) = lo_sellerCount l
  ∧ createdAt (migrateOrderIfNeeded l) = lo_createdAt l
  ∧ sellerIds (migrateOrderIfNeeded l) = lo_sellerIds l
  ∧ assignedSellerId (migrateOrderIfNeeded l) = lo_assignedSellerId l
  ∧ assignedSellerDiscordId (migrateOrderIfNeeded l)
    = lo_assignedSellerDiscordId l
  ∧ assignedAt (migrateOrderIfNeeded l) = lo_assignedAt l
  ∧ sellerStates (migrateOrderIfNeeded l) = lo_sellerStates l
  ∧ closedAt (migrateOrderIfNeeded l) = lo_closedAt l
  ∧ closedBySellerId (migrateOrderIfNeeded l) = lo_closedBySellerId l.
Proof.
  assert (Hclaims : itemClaims (migrateOrderIfNeeded l)
                    = default (initialClaims (lo_sellerGroups l))
                              (lo_itemClaims l)).
  { unfold migrateOrderIfNeeded. cbn [itemClaims].
    destruct (lo_itemClaims l); [done|]. apply migrated_claims. }
  split; [by destruct o|]. split; [done|].
  split; [unfold migrateOrderIfNeeded; cbn; by destruct (lo_status l)|].
  split; [exact Hclaims|]. split; [|done].
  intros Hnone. rewrite Hclaims, Hnone. cbn [default].
  destruct (initialClaims_claimsFor (lo_sellerGroups l)) as (Hnd & Hids & Hcl).
  split; [exact Hnd|]. split; [|exact Hids].
  intros c Hc. by destruct (Hcl c Hc).
Qed.

(** ** The public stock *)

Section Aggregated.

Implicit Types (agg : list AggregatedEntry) (b sid : string) (q : Z).

Lemma addToAggregated_find_same agg b q sid :
  aggregatedFor (addToAggregated agg b q sid) b
  = Some match aggregatedFor agg b with
         | Some e => {| ag_blueprintId := ag_blueprintId e;
                        ag_totalQty :=
                          Number.add (ag_totalQty e) (inject_Z q);
                        ag_sellers := ag_sellers e ++ [sid] |}
         | None => {| ag_blueprintId := b; ag_totalQty := inject_Z q;
                      ag_sellers := [sid] |}
         end.
Proof.
  unfold aggregatedFor. induction agg as [|e rest IH];
    cbn [addToAggregated List.find ag_blueprintId].
  - by rewrite String.eqb_refl.
  - destruct (String.eqb (ag_blueprintId e) b) eqn:E.
    + cbn [List.find ag_blueprintId]. by rewrite E.
    + cbn [List.find]. by rewrite E.
Qed.

Lemma addToAggregated_find_other agg b q sid b' :
  b' ≠ b →
  aggregatedFor (addToAggregated agg b q sid) b' = aggregatedFor agg b'.
Proof.
  intros Hne. unfold aggregatedFor. induction agg as [|e rest IH];
    cbn [addToAggregated List.find ag_blueprintId].
  - by destruct (String.eqb_spec b b'); [congruence|].
  - destruct (String.eqb_spec (ag_blueprintId e) b) as [He|Hn].
    + cbn [List.find ag_blueprintId]. rewrite He.
      by destruct (String.eqb_spec b b'); [congruence|].
    + cbn [List.find]. by rewrite IH.
Qed.

Lemma addToAggregated_keys agg b q sid :
  map ag_blueprintId (addToAggregated agg b q sid)
  = if bool_decide (b ∈ map ag_blueprintId agg)
    then map ag_blueprintId agg
    else (map ag_blueprintId agg ++ [b])%list.
Proof.
  induction agg as [|e rest IH]; cbn [addToAggregated map].
  - by rewrite bool_decide_eq_false_2 by apply not_elem_of_nil.
  - destruct (String.eqb_spec (ag_blueprintId e) b) as [He|Hn].
    + rewrite bool_decide_eq_true_2 by (rewrite He; left). done.
    + cbn [map]. rewrite IH.
      destruct (decide (b ∈ map ag_blueprintId rest)) as [Hin|Hni].
      * rewrite !bool_decide_eq_true_2; [done | by right | done].
      * rewrite !bool_decide_eq_false_2; [done | | done].
        intros [?|?]%elem_of_cons; [congruence | done].
Qed.

Lemma addToAggregated_NoDup agg b q sid :
  NoDup (map ag_blueprintId agg) →
  NoDup (map ag_blueprintId (addToAggregated agg b q sid)).
Proof.
  intros Hnd. rewrite addToAggregated_keys. case_bool_decide; [done|].
  apply NoDup_app. split; [done|]. split; [|apply NoDup_singleton].
  by intros x Hx ->%list_elem_of_singleton.
Qed.

Lemma aggregateSeller_triples agg seller :
  aggregateSeller agg seller = fold_left addTriple (triplesOf seller) agg.
Proof.
  unfold aggregateSeller, triplesOf. revert agg.
  induction (seller_inventory seller) as [|item rest IH]; intros agg; [done|].
  cbn [fold_left flat_map]. rewrite IH.
  destruct (0 <? inv_quantity item); [|done]. done.
Qed.

Lemma aggregate_triples sellers agg :
  fold_left aggregateSeller sellers agg
  = fold_left addTriple (flat_map triplesOf sellers) agg.
Proof.
  revert agg. induction sellers as [|s rest IH]; intros agg; [done|].
  cbn [fold_left flat_map]. rewrite fold_left_app, IH.
  by rewrite aggregateSeller_triples.
Qed.

Lemma fold_addTriple_spec triples agg :
  NoDup (map ag_blueprintId agg) →
  NoDup (map ag_blueprintId (fold_left addTriple triples agg))
  ∧ ∀ b, aggregatedFor (fold_left addTriple triples agg) b
         = match aggregatedFor agg b, rowsOf b triples with
           | None, [] => None
           | None, rows =>
               Some {| ag_blueprintId := b;
                       ag_totalQty := totalOf (map snd rows);
                       ag_sellers := map fst rows |}
           | Some e, rows =>
               Some {| ag_blueprintId := ag_blueprintId e;
                       ag_totalQty := addAll (ag_totalQty e) (map snd rows);
                       ag_sellers := ag_sellers e ++ map fst rows |}
           end.
Proof.
  revert agg. induction triples as [|[b0 [s0 q0]] rest IH]; intros agg Hnd.
  - split; [done|]. intros b. cbn [fold_left rowsOf flat_map].
    destruct (aggregatedFor agg b) as [e|]; [|done].
    cbn [map addAll fold_left]. rewrite app_nil_r. by destruct e.
  - cbn [fold_left]. unfold addTriple at 2. cbn [fst snd].
    destruct (IH (addToAggregated agg b0 q0 s0)) as [Hnd' Hfind];
      [by apply addToAggregated_NoDup|].
    split; [exact Hnd'|]. intros b. rewrite Hfind.
    cbn [rowsOf flat_map fst snd]. fold (rowsOf b rest).
    destruct (String.eqb_spec b0 b) as [->|Hne].
    + rewrite addToAggregated_find_same.
      destruct (aggregatedFor agg b) as [e|]; cbn [app map totalOf addAll
        fold_left fst snd ag_blueprintId ag_totalQty ag_sellers].
      * f_equal. f_equal. by rewrite <- (assoc_L (++)).
      * done.
    + rewrite addToAggregated_find_other by done. done.
Qed.

Lemma rowsOf_triples sellers b :
  rowsOf b (flat_map triplesOf sellers) = stockRows sellers b.
Proof.
  unfold rowsOf, stockRows, triplesOf.
  induction sellers as [|s rest IH]; [done|]. cbn [flat_map].
  rewrite flat_map_app, IH. f_equal.
  induction (seller_inventory s) as [|item inv IHi]; [done|].
  cbn [flat_map]. rewrite flat_map_app, IHi. f_equal.
  destruct (0 <? inv_quantity item); cbn [flat_map fst snd app].
  - rewrite andb_true_r, app_nil_r. done.
  - by rewrite andb_false_r.
Qed.








Variable localeCompare : string → string → Z.

Lemma aggregated_inventory_spec dir :
  NoDup (map ag_blueprintId (getAggregatedInventory localeCompare dir))
  ∧ ∀ b,
      aggregatedFor (getAggregatedInventory localeCompare dir) b
      = match stockRows (getActiveSellers localeCompare dir) b with
        | [] => None
        | rows => Some {| ag_blueprintId := b;
                          ag_totalQty := totalOf (map snd rows);
                          ag_sellers := map fst rows |}
        end.
Proof.
  unfold getAggregatedInventory. rewrite aggregate_triples.
  destruct (fold_addTriple_spec
              (flat_map triplesOf (getActiveSellers localeCompare dir)) [])
    as [Hnd Hfind]; [constructor|].
  split; [exact Hnd|]. intros b. by rewrite Hfind, rowsOf_triples.
Qed.

End Aggregated.


(** The total is what the additions of the runtime give: 2^53 - 1 and 2
    add up to 2^53. *)
Example aggregated_total_rounds :
  ag_totalQty <$> aggregatedFor (getAggregatedInventory demoCompare bigStock) "A"
  = Some (inject_Z (2 ^ 53)).
Proof. vm_compute. reflexivity. Qed.

(** ** Sellers that leave the market *)

Section Market.

Variable localeCompare : string → string → Z.

Lemma stockRows_ids sellers b x :
  x ∈ map fst (stockRows sellers b) →
  ∃ s, s ∈ sellers ∧ seller_id s = x.
Proof.
  intros (r & -> & Hr)%list_elem_of_fmap. unfold stockRows in Hr.
  apply elem_of_flat_map in Hr as (s & Hs & Hr).
  apply elem_of_flat_map in Hr as (item & _ & Hr).
  destruct (_ && _); [|by apply elem_of_nil in Hr].
  apply list_elem_of_singleton in Hr as ->. by exists s.
Qed.

Lemma aggregatedFor_member (agg : list AggregatedEntry) e :
  NoDup (map ag_blueprintId agg) → e ∈ agg →
  aggregatedFor agg (ag_blueprintId e) = Some e.
Proof.
  unfold aggregatedFor. induction agg as [|e0 rest IH];
    [by intros _ ?%elem_of_nil|].
  cbn [map]. intros [Hni Hnd]%NoDup_cons [->|Hin]%elem_of_cons.
  - cbn [List.find]. by rewrite String.eqb_refl.
  - cbn [List.find].
    destruct (String.eqb_spec (ag_blueprintId e0) (ag_blueprintId e)) as [He|_];
      [|by apply IH].
    exfalso. apply Hni. rewrite He. apply list_elem_of_fmap. by exists e.
Qed.

(** Where no active seller carries the id, the market does not show it. *)
Lemma not_on_market dir sid items b :
  (∀ s, s ∈ getActiveSellers localeCompare dir → seller_id s ≠ sid) →
  (sid ∉ map sg_sellerId (resolveOrderToSellers localeCompare dir items))
  ∧ (∀ e, e ∈ getAggregatedInventory localeCompare dir →
          sid ∉ ag_sellers e)
  ∧ (sid ∉ map seller_id (getSellersWithBlueprint localeCompare dir b)).
Proof.
  intros Hnone. split; [|split].
  - intros Hin. apply resolveOrderToSellers_ids in Hin
      as (item & s & _ & Hs & Hid & _). by apply (Hnone s).
  - intros e He Hin.
    destruct (aggregated_inventory_spec localeCompare dir) as [Hnd Hentry].
    pose proof (aggregatedFor_member _ e Hnd He) as Hfind.
    rewrite Hentry in Hfind.
    destruct (stockRows _ _) as [|r rows] eqn:E; [done|].
    injection Hfind as Hfind. apply (f_equal ag_sellers) in Hfind.
    cbn [ag_sellers] in Hfind. rewrite <- Hfind in Hin.
    change (sid ∈ map fst (r :: rows)) in Hin. rewrite <- E in Hin. apply stockRows_ids in Hin as (s & Hs & Hid).
    by apply (Hnone s).
  - intros (s & Hid & Hs)%list_elem_of_fmap.
    unfold getSellersWithBlueprint in Hs.
    apply list_elem_of_In, filter_In in Hs as [Hs _].
    apply list_elem_of_In in Hs. by apply (Hnone s).
Qed.

End Market.

(** X27.  Setting a seller's status to anything but active, or deleting the
    seller, takes the seller off the market: where seller files are named
    after the seller ids, the seller's id is in no group of
    [resolveOrderToSellers], among the sellers of no entry of the public
    stock and not returned by [getSellersWithBlueprint].  The status update
    keeps the inventory and touches no other seller, so setting the status
    back to active restores the seller's stock; after deletion the seller
    cannot be read and every quantity of the seller reads as zero. *)
Theorem inactive_seller_leaves_market
  (localeCompare : string → string → Z) (dir : SellerDir)
  (sid : string) (st : SellerStatus) (now now' : string)
  (seller : SellerWithInventory) (items : list RequestedItem) (b : string) :
  sellersOk dir →
  getSellerById dir sid = Some seller →
  st ≠ active →
  let dir' := (updateSellerStatus dir sid st now).2 in
  let gone := (deleteSeller dir sid).2 in
  (getSellerById dir' sid = Some (withStatus seller st now)
   ∧ getSellerInventory dir' sid = seller_inventory seller
   ∧ (∀ s, s ≠ sid → getSellerById dir' s = getSellerById dir s)
   ∧ (sid ∉ map sg_sellerId (resolveOrderToSellers localeCompare dir' items))
   ∧ (∀ e, e ∈ getAggregatedInventory localeCompare dir' →
           sid ∉ ag_sellers e)
   ∧ (sid ∉ map seller_id (getSellersWithBlueprint localeCompare dir' b))
   ∧ getSellerById (updateSellerStatus dir' sid active now').2 sid
     = Some (withStatus seller active now'))
  ∧ ((deleteSeller dir sid).1 = true
     ∧ getSellerById gone sid = None
     ∧ getSellerBlueprintQuantity gone sid b = 0
     ∧ (∀ s, s ≠ sid → getSellerById gone s = getSellerById dir s)
     ∧ (sid ∉ map sg_sellerId (resolveOrderToSellers localeCompare gone items))
     ∧ (∀ e, e ∈ getAggregatedInventory localeCompare gone →
             sid ∉ ag_sellers e)
     ∧ (sid ∉ map seller_id (getSellersWithBlueprint localeCompare gone b))
     ∧ (deleteSeller gone sid).1 = false).
Proof.
  intros Hok Hget Hst. cbn zeta.
  unfold updateSellerStatus at 1 2 3 4 5 6 7. rewrite Hget. cbn [snd].
  unfold deleteSeller at 1 2 3 4 5 6 7 8. unfold getSellerById in Hget.
  rewrite Hget. cbn [fst snd].
  set (dir' := <[sid := withStatus seller st now]> dir).
  assert (Hnone' : ∀ s, s ∈ getActiveSellers localeCompare dir' →
             seller_id s ≠ sid).
  { intros s [[key Hkey] (_ & _ & Hact)]%elem_of_getActiveSellers Hid.
    unfold dir' in Hkey. rewrite lookup_insert in Hkey.
    case_decide as Hk.
    - injection Hkey as <-. cbn in Hact. done.
    - apply Hk. rewrite <- Hid. by apply (Hok key s). }
  assert (HnoneD : ∀ s, s ∈ getActiveSellers localeCompare (delete sid dir) →
             seller_id s ≠ sid).
  { intros s [[key Hkey] _]%elem_of_getActiveSellers Hid.
    apply lookup_delete_Some in Hkey as [Hk Hkey].
    apply Hk. rewrite <- Hid. by apply (Hok key s). }
  destruct (not_on_market localeCompare dir' sid items b Hnone')
    as (H1 & H2 & H3).
  destruct (not_on_market localeCompare (delete sid dir) sid items b HnoneD)
    as (H4 & H5 & H6).
  split.
  - split; [apply lookup_insert_eq|].
    split; [unfold getSellerInventory, getSellerById, dir';
            by rewrite lookup_insert_eq|].
    split; [intros s Hs; unfold getSellerById, dir';
            by rewrite lookup_insert_ne|].
    split; [done|]. split; [done|]. split; [done|].
    unfold updateSellerStatus, getSellerById. rewrite Hget. cbn [snd].
    rewrite lookup_insert_eq. cbn [snd]. by rewrite lookup_insert_eq.
  - split; [done|].
    split; [apply lookup_delete_eq|].
    split; [unfold getSellerBlueprintQuantity, getSellerById;
            by rewrite lookup_delete_eq|].
    split; [intros s Hs; unfold getSellerById; by rewrite lookup_delete_ne|].
    split; [done|]. split; [done|]. split; [done|].
    unfold deleteSeller. rewrite Hget. cbn [snd]. by rewrite lookup_delete_eq.
Qed.

Lemma inactive_seller_leaves_market_witness :
  sellersOk demoSellers
  ∧ ("S1" ∉ map seller_id
              (getSellersWithBlueprint demoCompare
                 (updateSellerStatus demoSellers "S1" banned "t5").2 "A")).
Proof.
  assert (Hok : sellersOk demoSellers)
    by (apply (bool_decide_unpack _); vm_compute; exact I).
  split; [exact Hok|].
  destruct (inactive_seller_leaves_market demoCompare demoSellers "S1" banned
              "t5" "t6" demoSeller [] "A" Hok)
    as [(_ & _ & _ & _ & _ & H & _) _]; [reflexivity | discriminate | exact H].
Defined.

(** ** The well-formed store *)

Section StoreInvariants.

Implicit Types (w : World) (dir : SellerDir).

















End StoreInvariants.



(** ** Registration *)

Section Register.

Variable localeCompare : string → string → Z.
Variable trim : string → string.
Variable toLowerCase : string → string.
Variable jsLength : string → nat.

Lemma getSellerByDiscordId_None dir discordId :
  getSellerByDiscordId localeCompare toLowerCase dir discordId = None ↔
  ∀ s, s ∈ getAllSellers localeCompare dir →
       toLowerCase (seller_discordId s) ≠ toLowerCase discordId.
Proof.
  unfold getSellerByDiscordId. rewrite find_none_iff.
  split; intros H s Hs; specialize (H s Hs); by apply String.eqb_neq.
Qed.

Lemma elem_of_getAllSellers dir seller :
  seller ∈ getAllSellers localeCompare dir ↔
  (∃ key, dir !! key = Some seller)
  ∧ seller_id seller ≠ "" ∧ seller_discordId seller ≠ "".
Proof.
  unfold getAllSellers.
  rewrite merge_sort_Permutation, list_elem_of_filter, list_elem_of_fmap.
  split.
  - intros ([Hid Hdid] & ([key s] & -> & Hin)).
    apply elem_of_map_to_list in Hin. split; [by exists key | done].
  - intros ([key Hkey] & Hid & Hdid). split; [done|].
    exists (key, seller). split; [done|]. by apply elem_of_map_to_list.
Qed.

Lemma validatePassword_None password :
  validatePassword jsLength password = None ↔
  password ≠ "" ∧ (8 ≤ jsLength password ≤ 128)%nat.
Proof.
  unfold validatePassword, MIN_PASSWORD_LENGTH, MAX_PASSWORD_LENGTH.
  destruct (String.eqb_spec password "") as [->|Hne].
  - split; [done | by intros [? _]].
  - destruct (Nat.ltb_spec (jsLength password) 8);
      [split; [done | lia]|].
    destruct (Nat.ltb_spec 128 (jsLength password));
      [split; [done | lia]|].
    split; [intros _; split; [done | lia] | done].
Qed.

Lemma validateDiscordId_None discordId :
  validateDiscordId trim jsLength discordId = None ↔
  discordId ≠ "" ∧ (1 ≤ jsLength (trim discordId) ≤ 64)%nat.
Proof.
  unfold validateDiscordId.
  destruct (String.eqb_spec discordId "") as [->|Hne].
  - split; [done | by intros [? _]].
  - cbn zeta. destruct (Nat.eqb_spec (jsLength (trim discordId)) 0);
      [split; [done | lia]|].
    destruct (Nat.ltb_spec 64 (jsLength (trim discordId)));
      [split; [done | lia]|].
    split; [intros _; split; [done | lia] | done].
Qed.

Lemma registerSeller_cases dir discordId password id hash now :
  let accepted :=
    (discordId ≠ "" ∧ (1 ≤ jsLength (trim discordId) ≤ 64)%nat)
    ∧ (password ≠ "" ∧ (8 ≤ jsLength password ≤ 128)%nat)
    ∧ (∀ s, s ∈ getAllSellers localeCompare dir →
            toLowerCase (seller_discordId s) ≠ toLowerCase discordId) in
  let new := newSeller id (trim discordId) hash now in
  (¬ accepted
   ∧ ∃ e, registerSeller localeCompare trim toLowerCase jsLength
            dir discordId password id hash now = (inl e, dir))
  ∨ (accepted
     ∧ registerSeller localeCompare trim toLowerCase jsLength
         dir discordId password id hash now
       = (inr new, <[id := new]> dir)).
Proof.
  cbn zeta. unfold registerSeller.
  pose proof (validateDiscordId_None discordId) as Hd.
  pose proof (validatePassword_None password) as Hp.
  pose proof (getSellerByDiscordId_None dir discordId) as Hf.
  destruct (validateDiscordId trim jsLength discordId) as [e1|].
  { left. split; [|by eexists]. intros (H & _). by apply Hd in H. }
  destruct (validatePassword jsLength password) as [e2|].
  { left. split; [|by eexists]. intros (_ & H & _). by apply Hp in H. }
  destruct (getSellerByDiscordId localeCompare toLowerCase dir discordId)
    as [existing|].
  { left. split; [|by eexists]. intros (_ & _ & H). by apply Hf in H. }
  right. split; [|done].
  split; [by apply Hd|]. split; [by apply Hp | by apply Hf].
Qed.

End Register.

(** X29.  [registerSeller] succeeds exactly when the Discord id is not
    empty and has between 1 and 64 characters after trimming, the password
    has between 8 and 128 characters, and no listed seller has the same
    Discord id up to letter case.  It then stores, under the new id, a seller
    with the trimmed Discord id, the status pending verification and an empty
    inventory, who is not among the active sellers and of whom every quantity
    reads as zero, and leaves the other sellers as they are; a later
    registration under a Discord id that equals the stored one up to letter
    case is refused.  A refused registration changes nothing. *)
Theorem registration_gate
  (localeCompare : string → string → Z)
  (trim toLowerCase : string → string) (jsLength : string → nat)
  (dir : SellerDir) (discordId password id hash now : string) :
  let register := registerSeller localeCompare trim toLowerCase jsLength in
  let r := register dir discordId password id hash now in
  (∀ seller,
     r.1 = inr seller ↔
     (discordId ≠ "" ∧ (1 ≤ jsLength (trim discordId) ≤ 64)%nat)
     ∧ (password ≠ "" ∧ (8 ≤ jsLength password ≤ 128)%nat)
     ∧ (∀ s, s ∈ getAllSellers localeCompare dir →
             toLowerCase (seller_discordId s) ≠ toLowerCase discordId)
     ∧ seller = newSeller id (trim discordId) hash now)
  ∧ (∀ e, r.1 = inl e → r.2 = dir)
  ∧ (∀ seller,
       r.1 = inr seller →
       getSellerById r.2 id = Some seller
       ∧ seller_status seller = pending_verification
       ∧ canSellerReceiveOrders seller = false
       ∧ getSellerInventory r.2 id = []
       ∧ (∀ b, getSellerBlueprintQuantity r.2 id b = 0)
       ∧ (∀ s, s ≠ id → getSellerById r.2 s = getSellerById dir s)
       ∧ (seller ∉ getActiveSellers localeCompare r.2)
       ∧ (id ≠ "" → trim discordId ≠ "" →
          ∀ discordId' password' id' hash' now',
            toLowerCase discordId' = toLowerCase (trim discordId) →
            ∃ e, register r.2 discordId' password' id' hash' now'
                 = (inl e, r.2))).
Proof.
  cbn zeta.
  destruct (registerSeller_cases localeCompare trim toLowerCase jsLength
              dir discordId password id hash now)
    as [[Hno (e & Heq)]|[Hyes Heq]]; rewrite !Heq; cbn [fst snd].
  { split; [|split; [done|done]]. intros seller. split; [done|].
    intros (H1 & H2 & H3 & _). exfalso. apply Hno. done. }
  set (new := newSeller id (trim discordId) hash now).
  split; [|split; [done|]].
  - intros seller. split.
    + intros [= <-]. destruct Hyes as (? & ? & ?). done.
    + by intros (_ & _ & _ & ->).
  - intros seller [= <-].
    split; [apply lookup_insert_eq|]. split; [done|]. split; [done|].
    split; [unfold getSellerInventory, getSellerById;
            by rewrite lookup_insert_eq|].
    split; [intros b; unfold getSellerBlueprintQuantity, getSellerById;
            by rewrite lookup_insert_eq|].
    split; [intros s Hs; unfold getSellerById; by rewrite lookup_insert_ne|].
    split.
    { intros (_ & _ & _ & Hact)%elem_of_getActiveSellers. done. }
    intros Hid Hdid d' p' id' h' n' Hlow.
    destruct (registerSeller_cases localeCompare trim toLowerCase jsLength
                (<[id := new]> dir) d' p' id' h' n')
      as [[_ (e & Heq')]|[(_ & _ & Hfree) _]]; [by exists e|].
    exfalso. apply (Hfree new); [|by rewrite Hlow].
    apply elem_of_getAllSellers. split; [|done].
    exists id. apply lookup_insert_eq.
Qed.

(* ===================================================================== *)
(** * The rate limiter *)
(* ===================================================================== *)

Section Limiter.

Implicit Types (st : Limiter) (key : string) (config : RateLimitConfig).

Lemma cleanup_lookup st now key :
  rateLimitStore (cleanupOldEntries st now) !! key
  = rateLimitStore st !! key
  ∨ (rateLimitStore (cleanupOldEntries st now) !! key = None
     ∧ ∃ e, rateLimitStore st !! key = Some e ∧ entry_resetAt e ≤ now).
Proof.
  unfold cleanupOldEntries. destruct (_ <? _); [by left|].
  cbn [rateLimitStore].
  destruct (rateLimitStore st !! key) as [e|] eqn:E.
  - destruct (decide (entry_resetAt e ≤ now)) as [Hle|Hgt].
    + right. split; [|by exists e]. apply map_lookup_filter_None. right.
      intros e' He'. rewrite E in He'. injection He' as <-. cbn. tauto.
    + left. apply map_lookup_filter_Some. done.
  - left. apply map_lookup_filter_None. by left.
Qed.

Lemma cleanup_keeps st now key e :
  rateLimitStore st !! key = Some e → now < entry_resetAt e →
  rateLimitStore (cleanupOldEntries st now) !! key = Some e.
Proof.
  intros He Hlt. destruct (cleanup_lookup st now key) as [->|[_ (e' & He' & ?)]];
    [done|]. rewrite He in He'. injection He' as <-. lia.
Qed.

(** A request of the key while its window [(n, R)] is open. *)
Lemma check_in_window st key config nowC now n R :
  rateLimitStore st !! key = Some (mkEntry n R) →
  nowC ≤ now < R →
  let r := checkRateLimit st key config nowC now in
  (allowed r.1, remaining r.1) = windowOutcome config n 0
  ∧ resetAt r.1 = R
  ∧ (allowed r.1 = false → 1 ≤ retryAfter r.1)
  ∧ rateLimitStore r.2 !! key
    = Some (mkEntry (if maxRequests config <=? n then n else n + 1) R).
Proof.
  intros He [Hc Hn]. cbn zeta. unfold checkRateLimit.
  rewrite (cleanup_keeps st nowC key _ He) by (cbn; lia).
  cbn [entry_resetAt entry_count]. destruct (R <=? now) eqn:E; [lia|].
  unfold windowOutcome. cbn zeta. rewrite Z.add_0_r.
  destruct (maxRequests config <=? n) eqn:Hmax.
  - cbn [fst snd allowed remaining resetAt retryAfter].
    destruct (n + 1 <=? maxRequests config) eqn:E2; [lia|].
    split; [done|]. split; [done|]. split.
    + intros _. unfold ceilDiv.
      assert (- (R - now) / 1000 < 0); [|lia].
      apply Z.div_lt_upper_bound; lia.
    + by apply cleanup_keeps; [|cbn; lia].
  - cbn [fst snd allowed remaining resetAt retryAfter entry_count
         entry_resetAt rateLimitStore].
    destruct (n + 1 <=? maxRequests config) eqn:E2; [|lia].
    split; [done|]. split; [done|]. split; [done|].
    apply lookup_insert_eq.
Qed.

(** A request of another key leaves the open window as it is. *)
Lemma check_other_key st key key' config nowC now e :
  rateLimitStore st !! key = Some e →
  nowC < entry_resetAt e → key' ≠ key →
  rateLimitStore (checkRateLimit st key' config nowC now).2 !! key = Some e.
Proof.
  intros He Hlt Hne. unfold checkRateLimit.
  pose proof (cleanup_keeps st nowC key e He Hlt) as Hk.
  destruct (rateLimitStore (cleanupOldEntries st nowC) !! key') as [e'|].
  - destruct (_ <=? _); cbn [snd rateLimitStore];
      [by rewrite lookup_insert_ne|].
    destruct (_ <=? _); cbn [snd rateLimitStore];
      [done | by rewrite lookup_insert_ne].
  - cbn [snd rateLimitStore]. by rewrite lookup_insert_ne.
Qed.

(** The first request of a key without an open window opens one. *)
Lemma check_opens_window st key config nowC now :
  nowC ≤ now →
  (∀ e, rateLimitStore st !! key = Some e → entry_resetAt e ≤ now) →
  let r := checkRateLimit st key config nowC now in
  r.1 = mkResult true (maxRequests config - 1) (now + windowMs config) 0
  ∧ rateLimitStore r.2 !! key = Some (mkEntry 1 (now + windowMs config)).
Proof.
  intros Hc Hexp. cbn zeta. unfold checkRateLimit.
  destruct (rateLimitStore (cleanupOldEntries st nowC) !! key) as [e|] eqn:E.
  - assert (entry_resetAt e ≤ now).
    { destruct (cleanup_lookup st nowC key) as [Heq|[Hn _]];
        [|congruence]. rewrite E in Heq. by apply Hexp. }
    destruct (entry_resetAt e <=? now) eqn:E2; [|lia].
    split; [done|]. apply lookup_insert_eq.
  - split; [done|]. apply lookup_insert_eq.
Qed.

Lemma map_seq_S {A} (f : nat → A) (n : nat) :
  map f (seq 0 (S n)) = f 0%nat :: map (fun i => f (S i)) (seq 0 n).
Proof. cbn [seq map]. by rewrite <- seq_shift, map_map. Qed.

(** The requests served while the window [(n, R)] of the key is open. *)
Lemma serve_in_window requests st key config n R :
  rateLimitStore st !! key = Some (mkEntry n R) →
  Forall (fun rq => rq_nowCleanup rq ≤ rq_now rq < R
                    ∧ (rq_key rq = key → rq_config rq = config)) requests →
  let results := resultsFor key (serve st requests).1 in
  map (fun r => (allowed r, remaining r)) results
  = map (windowOutcome config n) (seq 0 (length results))
  ∧ Forall (fun r => resetAt r = R
                     ∧ (allowed r = false → 1 ≤ retryAfter r)) results.
Proof.
  revert st n. induction requests as [|rq rest IH]; intros st n He Hall.
  - split; [done | constructor].
  - apply Forall_cons in Hall as [[Htime Hcfg] Hall]. cbn zeta.
    cbn [serve].
    destruct (checkRateLimit st (rq_key rq) (rq_config rq) (rq_nowCleanup rq)
                (rq_now rq)) as [result st'] eqn:Hcheck.
    destruct (serve st' rest) as [results st''] eqn:Hserve.
    cbn [fst]. unfold resultsFor. cbn [List.filter fst].
    destruct (String.eqb_spec (rq_key rq) key) as [Hk|Hk].
    + rewrite Hk, (Hcfg Hk) in Hcheck.
      destruct (check_in_window st key config (rq_nowCleanup rq) (rq_now rq)
                  n R He Htime) as (Hout & Hreset & Hretry & Hst').
      rewrite Hcheck in Hout, Hreset, Hretry, Hst'. cbn [fst snd] in *.
      destruct (IH st' _ Hst' Hall) as [Hmap Hfor].
      rewrite Hserve in Hmap, Hfor. cbn [fst] in Hmap, Hfor.
      unfold resultsFor in Hmap, Hfor.
      cbn [map snd length]. split.
      * rewrite map_seq_S. f_equal; [exact Hout|].
        rewrite Hmap. apply map_ext. intros i. unfold windowOutcome.
        cbn zeta. destruct (maxRequests config <=? n) eqn:Hmax.
        -- apply Z.leb_le in Hmax.
           destruct (n + Z.of_nat i + 1 <=? maxRequests config) eqn:E1;
             [apply Z.leb_le in E1; lia|].
           destruct (n + Z.of_nat (S i) + 1 <=? maxRequests config) eqn:E2;
             [apply Z.leb_le in E2; lia | done].
        -- replace (n + 1 + Z.of_nat i + 1) with (n + Z.of_nat (S i) + 1)
             by lia. done.
      * by constructor.
    + assert (Hst' : rateLimitStore st' !! key = Some (mkEntry n R)).
      { replace st' with (checkRateLimit st (rq_key rq) (rq_config rq)
                            (rq_nowCleanup rq) (rq_now rq)).2
          by by rewrite Hcheck.
        apply check_other_key; [done | cbn; lia | done]. }
      destruct (IH st' n Hst' Hall) as [Hmap Hfor].
      rewrite Hserve in Hmap, Hfor. done.
Qed.

End Limiter.

(** X30.  The first request of a key that has no open window is allowed,
    whatever the limit, and opens a window of [windowMs].  Of the further
    requests of that key made before the window ends, exactly those that are
    at most the [maxRequests]-th of the window are allowed, each told how
    many requests remain; the others are refused with the end of the window
    and a wait of at least one second.  Requests of other keys and the
    periodic cleanup do not change this. *)
Theorem rate_limit_window
  (st : Limiter) (key : string) (config : RateLimitConfig)
  (nowCleanup now : Z) (requests : list Request) :
  nowCleanup ≤ now →
  (∀ e, rateLimitStore st !! key = Some e → entry_resetAt e ≤ now) →
  Forall (fun rq => rq_nowCleanup rq ≤ rq_now rq < now + windowMs config
                    ∧ (rq_key rq = key → rq_config rq = config)) requests →
  let first := checkRateLimit st key config nowCleanup now in
  let later := resultsFor key (serve first.2 requests).1 in
  first.1 = mkResult true (maxRequests config - 1) (now + windowMs config) 0
  ∧ map (fun r => (allowed r, remaining r)) later
    = map (windowOutcome config 1) (seq 0 (length later))
  ∧ Forall (fun r => resetAt r = now + windowMs config
                     ∧ (allowed r = false → 1 ≤ retryAfter r)) later.
Proof.
  intros Hc Hexp Hall. cbn zeta.
  destruct (check_opens_window st key config nowCleanup now Hc Hexp)
    as [Hfirst Hentry].
  split; [exact Hfirst|].
  apply (serve_in_window requests _ key config 1 (now + windowMs config));
    done.
Qed.

Lemma rate_limit_window_witness :
  let st := mkLimiter ∅ 0 in
  let requests :=
    [mkRequest "ip" DEFAULT_CONFIG 1000 1000;
     mkRequest "other" DEFAULT_CONFIG 2000 2000;
     mkRequest "ip" DEFAULT_CONFIG 70000 70000;
     mkRequest "ip" DEFAULT_CONFIG 80000 80001] in
  map (fun r => (allowed r, remaining r))
      (resultsFor "ip"
         (serve (checkRateLimit st "ip" DEFAULT_CONFIG 500 500).2 requests).1)
  = [(true, 1); (true, 0); (false, 0)].
Proof.
  cbn zeta.
  destruct (rate_limit_window (mkLimiter ∅ 0) "ip" DEFAULT_CONFIG 500 500
              [mkRequest "ip" DEFAULT_CONFIG 1000 1000;
               mkRequest "other" DEFAULT_CONFIG 2000 2000;
               mkRequest "ip" DEFAULT_CONFIG 70000 70000;
               mkRequest "ip" DEFAULT_CONFIG 80000 80001])
    as (_ & Hmap & _).
  - lia.
  - intros e He. vm_compute in He. discriminate.
  - repeat constructor; cbn; try lia; done.
  - rewrite Hmap. vm_compute. reflexivity.
Defined.
